(** * MMTUK CMS: the publishing core, embedded in Rocq

    A shallow embedding of the repository-synchronisation, capability-policy
    and action-dispatch code of the MMTUK content management system, with the
    properties its specification states about them.

    Layout (one module per source file, then the properties):
    - [Py]             the Python values the code manipulates (str, dict, JSON)
    - [Accounts]       accounts/models.py        (UserProfile capability checks)
    - [Schemas]        content_schema/schemas.py (catalogue, validation, defaults)
    - [ContentService] chat/services/content_service.py
    - [Runtime]        the mutable world: settings, mirror, database, cache
    - [GitService]     chat/services/git_service.py
    - [ContentReader]  chat/services/content_reader_service.py
    - [ImageService]   chat/services/image_service.py
    - [Views]          chat/views.py             (the dispatcher's handlers)
    - [PyX], [SchemasX], [GitServiceX], [ViewsX]
                       further functions of the same files: slugs, unpushed
                       commits, the delete handler, the review views
    - [Fixtures]       concrete actors, intents and worlds
    - [PolicyProps], [FormatProps], [MergeProps], [Frame], [GitProps],
      [HandlerProps]   the properties, leaf-first
    - [SlugProps], [CapabilityProps], [SchemaProps], [PathProps],
      [RoundTripProps], [StorageProps], [CommitProps], [ReaderProps],
      [RefusalProps], [MutationProps], [DeleteProps], [ReviewProps]
                       further properties of the code

    Modelling conventions.  A Python [str] or [bytes] is a [string] of 8-bit
    characters with ASCII case and whitespace rules.  A [dict] is an
    association list in insertion order.  Exceptions are a [Raise] outcome of
    a state-and-exception monad; effects that an exception does not undo stay
    in the state.  Calls that leave the process (git transport, database)
    consult an oracle carried by the world, so that every failure the code
    guards against can be exercised. *)

From Stdlib Require Import String Ascii List ZArith Bool Lia Arith.
Import ListNotations.

#[local] Open Scope list_scope.
#[local] Open Scope string_scope.

(* ================================================================== *)
(** * Python values *)
(* ================================================================== *)

Module Py.

(** ** Strings *)

Definition startswith (s p : string) : bool := String.prefix p s.

Fixpoint drop (n : nat) (s : string) : string :=
  match n, s with
  | O, _ => s
  | S _, EmptyString => EmptyString
  | S n', String _ r => drop n' r
  end.

Fixpoint take (n : nat) (s : string) : string :=
  match n, s with
  | O, _ => EmptyString
  | S _, EmptyString => EmptyString
  | S n', String c r => String c (take n' r)
  end.

(** [s[i:j]] for [0 <= i <= j]. *)
Definition slice (i j : nat) (s : string) : string := take (j - i) (drop i s).

(** [s.find(sub, start)]: [None] stands for Python's [-1]. *)
Definition find (s sub : string) (start : nat) : option nat :=
  String.index start sub s.

Definition endswith (s p : string) : bool :=
  (String.length p <=? String.length s)%nat
  && String.eqb (drop (String.length s - String.length p) s) p.

(** Whitespace removed by [str.strip()] (ASCII range). *)
Definition is_space (c : ascii) : bool :=
  let n := nat_of_ascii c in
  ((9 <=? n) && (n <=? 13) || (28 <=? n) && (n <=? 32))%nat.

Fixpoint lstrip (s : string) : string :=
  match s with
  | EmptyString => EmptyString
  | String c r => if is_space c then lstrip r else s
  end.

Fixpoint rstrip (s : string) : string :=
  match s with
  | EmptyString => EmptyString
  | String c r =>
      match rstrip r with
      | EmptyString => if is_space c then EmptyString else String c EmptyString
      | r' => String c r'
      end
  end.

Definition strip (s : string) : string := rstrip (lstrip s).

(** [s.lstrip('/')] *)
Fixpoint lstrip_char (x : ascii) (s : string) : string :=
  match s with
  | EmptyString => EmptyString
  | String c r => if Ascii.eqb c x then lstrip_char x r else s
  end.

Definition lower_char (c : ascii) : ascii :=
  let n := nat_of_ascii c in
  if ((65 <=? n) && (n <=? 90))%nat then ascii_of_nat (n + 32) else c.

Fixpoint lower (s : string) : string :=
  match s with
  | EmptyString => EmptyString
  | String c r => String (lower_char c) (lower r)
  end.

(** [c in s] for a single character [c]. *)
Fixpoint has_char (c : ascii) (s : string) : bool :=
  match s with
  | EmptyString => false
  | String d r => Ascii.eqb c d || has_char c r
  end.

(** [s.replace(c, by)] for a single character [c]. *)
Fixpoint replace_char (c : ascii) (by_ : string) (s : string) : string :=
  match s with
  | EmptyString => EmptyString
  | String d r =>
      if Ascii.eqb c d then by_ ++ replace_char c by_ r
      else String d (replace_char c by_ r)
  end.

Definition join (sep : string) (l : list string) : string := String.concat sep l.

Definition mem_str (s : string) (l : list string) : bool :=
  existsb (String.eqb s) l.

(** Decimal rendering of an integer, as [str(n)]. *)
Fixpoint digits (fuel : nat) (n : N) (acc : string) : string :=
  match fuel with
  | O => acc
  | S f =>
      let d := ascii_of_N (48 + N.modulo n 10) in
      let q := N.div n 10 in
      if N.eqb q 0 then String d acc else digits f q (String d acc)
  end.

Definition str_of_N (n : N) : string := digits (S (N.to_nat (N.log2 n))) n "".

Definition str_of_Z (z : Z) : string :=
  match z with
  | Z0 => "0"
  | Zpos p => str_of_N (Npos p)
  | Zneg p => "-" ++ str_of_N (Npos p)
  end.

(** Zero-padded rendering to at least [w] digits, as [strftime]'s
    [%Y], [%m], [%d], [%H], [%M], [%S] produce for non-negative fields. *)
Fixpoint zeros (n : nat) : string :=
  match n with O => "" | S k => String "0" (zeros k) end.

Definition pad (w : nat) (z : Z) : string :=
  let s := str_of_Z z in zeros (w - String.length s) ++ s.

(** ** Values

    The values a frontmatter mapping holds: what [json.loads] gives for the
    advisory service's action block and what [yaml.safe_load] gives for a
    content file.  Numbers are integers (the schema's one number field is a
    minute count) and lists are lists of strings (the schema's one list type
    is [string_array]); nested containers are left out. *)

Inductive value : Type :=
| VNone
| VBool (b : bool)
| VInt (z : Z)
| VStr (s : string)
| VList (l : list string)
| VDate (y m d : Z)
| VDateTime (y m d hh mm ss : Z).

Definition value_eqb (a b : value) : bool :=
  match a, b with
  | VNone, VNone => true
  | VBool x, VBool y => Bool.eqb x y
  | VInt x, VInt y => Z.eqb x y
  (* Python: True == 1 and False == 0 *)
  | VBool x, VInt y | VInt y, VBool x => Z.eqb (if x then 1 else 0) y
  | VStr x, VStr y => String.eqb x y
  | VList x, VList y =>
      if list_eq_dec string_dec x y then true else false
  | VDate y1 m1 d1, VDate y2 m2 d2 => Z.eqb y1 y2 && Z.eqb m1 m2 && Z.eqb d1 d2
  | VDateTime y1 m1 d1 a1 b1 c1, VDateTime y2 m2 d2 a2 b2 c2 =>
      Z.eqb y1 y2 && Z.eqb m1 m2 && Z.eqb d1 d2
      && Z.eqb a1 a2 && Z.eqb b1 b2 && Z.eqb c1 c2
  | _, _ => false
  end.

(** [bool(v)] *)
Definition truthy (v : value) : bool :=
  match v with
  | VNone => false
  | VBool b => b
  | VInt z => negb (Z.eqb z 0)
  | VStr s => negb (String.eqb s "")
  | VList l => match l with [] => false | _ => true end
  | VDate _ _ _ | VDateTime _ _ _ _ _ _ => true
  end.

Definition iso_date (y m d : Z) : string :=
  pad 4 y ++ "-" ++ pad 2 m ++ "-" ++ pad 2 d.

Definition iso_time (hh mm ss : Z) : string :=
  pad 2 hh ++ ":" ++ pad 2 mm ++ ":" ++ pad 2 ss.

(** [str(v)], as an f-string renders [v].  The [repr] of a list element is
    written with single quotes, which is Python's choice for a string
    without quotes or escapes. *)
Definition str (v : value) : string :=
  match v with
  | VNone => "None"
  | VBool true => "True"
  | VBool false => "False"
  | VInt z => str_of_Z z
  | VStr s => s
  | VList l => "[" ++ join ", " (map (fun s => "'" ++ s ++ "'") l) ++ "]"
  | VDate y m d => iso_date y m d
  | VDateTime y m d hh mm ss => iso_date y m d ++ " " ++ iso_time hh mm ss
  end.

(** [a or b] *)
Definition por (a b : value) : value := if truthy a then a else b.

(** ** Dictionaries: association lists in insertion order *)

Definition dict : Type := list (string * value).

Fixpoint get (d : dict) (k : string) : option value :=
  match d with
  | [] => None
  | (k', v) :: r => if String.eqb k k' then Some v else get r k
  end.

Definition contains (d : dict) (k : string) : bool :=
  match get d k with Some _ => true | None => false end.

(** [d.get(k, default)] *)
Definition get_default (d : dict) (k : string) (default : value) : value :=
  match get d k with Some v => v | None => default end.

(** [d[k] = v]: an existing key keeps its position. *)
Fixpoint set (d : dict) (k : string) (v : value) : dict :=
  match d with
  | [] => [(k, v)]
  | (k', v') :: r =>
      if String.eqb k k' then (k, v) :: r else (k', v') :: set r k v
  end.

(** [d.update(other)] *)
Definition update (d other : dict) : dict :=
  fold_left (fun acc kv => set acc (fst kv) (snd kv)) other d.



End Py.

Example str_of_Z_ex :
  Py.str_of_Z 1205 = "1205" /\ Py.str_of_Z (-30) = "-30" /\ Py.pad 2 7 = "07".
Proof. repeat split; reflexivity. Qed.

Example strip_ex : Py.strip ("  a b " ++ String (ascii_of_nat 10) "") = "a b".
Proof. reflexivity. Qed.

(* ================================================================== *)
(** * accounts/models.py *)
(* ================================================================== *)

Module Accounts.
Import Py.

(** [ROLE_CHOICES] *)
Inductive role : Type := admin | editor | group_lead | contributor.

(** [LOCAL_GROUP_CHOICES] *)
Definition LOCAL_GROUP_CHOICES : list string :=
  ["brighton"; "london"; "oxford"; "pennines"; "scotland"; "solent"].

(** [UserProfile]: [local_group] is the empty string when left blank. *)
Record UserProfile : Type := mkProfile {
  profile_role : role;
  local_group : string
}.

Definition role_eqb (a b : role) : bool :=
  match a, b with
  | admin, admin | editor, editor
  | group_lead, group_lead | contributor, contributor => true
  | _, _ => false
  end.

Definition editor_types : list string :=
  ["article"; "briefing"; "news"; "local_event"; "local_news"; "ecosystem"].

Definition local_types : list string := ["local_event"; "local_news"].

Definition contributor_types : list string :=
  ["article"; "briefing"; "news"; "local_event"; "local_news"].

(** [can_publish_directly(self, content_type, local_group=None)] *)
Definition can_publish_directly (self : UserProfile)
    (content_type : string) (lg : value) : bool :=
  match profile_role self with
  | admin => true
  | editor => mem_str content_type editor_types
  | group_lead =>
      if mem_str content_type local_types
      then value_eqb lg (VStr (local_group self))
      else false
  | contributor => false
  end.

(** [can_create(self, content_type, local_group=None)] *)
Definition can_create (self : UserProfile)
    (content_type : string) (lg : value) : bool :=
  match profile_role self with
  | admin => true
  | editor => mem_str content_type editor_types
  | group_lead => if mem_str content_type local_types then true else false
  | contributor => mem_str content_type contributor_types
  end.

(** [content_type in ('local_event', 'local_news', None)] *)
Definition local_type_or_none (content_type : option string) : bool :=
  match content_type with
  | None => true
  | Some t => mem_str t local_types
  end.

(** [can_approve(self, content_type=None, local_group=None)] *)
Definition can_approve (self : UserProfile)
    (content_type : option string) (lg : value) : bool :=
  match profile_role self with
  | admin => true
  | editor => true
  | group_lead =>
      if truthy lg && value_eqb lg (VStr (local_group self))
      then local_type_or_none content_type
      else false
  | contributor => false
  end.

(** [can_edit(self, content_type=None, local_group=None)] *)
Definition can_edit (self : UserProfile)
    (content_type : option string) (lg : value) : bool :=
  match profile_role self with
  | admin => true
  | editor => true
  | group_lead =>
      match content_type with
      | Some t =>
          if mem_str t local_types
          then (if truthy lg then value_eqb lg (VStr (local_group self)) else true)
          else false
      | None => false
      end
  | contributor => false
  end.

(** [can_delete(self, content_type=None, local_group=None)] *)
Definition can_delete (self : UserProfile)
    (content_type : option string) (lg : value) : bool :=
  match profile_role self with
  | admin | editor => true
  | _ => false
  end.

End Accounts.

(* ================================================================== *)
(** * content_schema/schemas.py *)
(* ================================================================== *)

Module Schemas.
Import Py.

Inductive field_type : Type :=
| TString | TEnum | TDate | TDateTime | TNumber | TBoolean | TStringArray.

(** A field definition: its ["type"], its ["options"] when the key is
    present, its ["default"] when the key is present.  The descriptive keys
    (["description"], ["optional"]) steer the prompt only and are left out. *)
Record field_def : Type := mkField {
  f_type : field_type;
  f_options : option (list string);
  f_default : option value
}.

Record schema : Type := mkSchema {
  s_name : string;
  directory : string;
  required_fields : list string;
  fields : list (string * field_def)
}.

Definition fstr : field_def := mkField TString None None.
Definition fstr_d (d : string) : field_def := mkField TString None (Some (VStr d)).
Definition fdate : field_def := mkField TDate None None.
Definition fbool_d (b : bool) : field_def := mkField TBoolean None (Some (VBool b)).
Definition fenum (o : list string) : field_def := mkField TEnum (Some o) None.
Definition fenum_d (o : list string) (d : string) : field_def :=
  mkField TEnum (Some o) (Some (VStr d)).

Definition group_options : list string :=
  ["brighton"; "london"; "oxford"; "pennines"; "scotland"; "solent"].

Definition article_schema : schema :=
  mkSchema "Article" "src/content/articles/"
    ["title"; "slug"; "category"; "author"; "pubDate"]
    [ ("title", fstr); ("slug", fstr);
      ("category", fenum ["Article"; "Commentary"; "Research";
                          "Core Ideas"; "Core Insights"; "But what about...?"]);
      ("layout", fenum_d ["default"; "simplified"; "rebuttal"] "default");
      ("sector", fstr_d "Economics");
      ("author", fstr_d "MMTUK");
      ("authorTitle", fstr);
      ("pubDate", fdate);
      ("readTime", mkField TNumber None (Some (VInt 5)));
      ("summary", fstr); ("thumbnail", fstr); ("mainImage", fstr);
      ("featured", fbool_d false);
      ("color", fstr) ].

Definition briefing_schema : schema :=
  mkSchema "Briefing" "src/content/briefings/"
    ["title"; "slug"; "author"; "pubDate"]
    [ ("title", fstr); ("slug", fstr); ("author", fstr);
      ("authorTitle", fstr); ("pubDate", fdate);
      ("readTime", mkField TNumber None (Some (VInt 5)));
      ("summary", fstr); ("thumbnail", fstr); ("mainImage", fstr);
      ("featured", fbool_d false); ("draft", fbool_d false);
      ("sourceUrl", fstr); ("sourceTitle", fstr); ("sourceAuthor", fstr);
      ("sourcePublication", fstr); ("sourceDate", fdate) ].

Definition news_schema : schema :=
  mkSchema "News" "src/content/news/"
    ["title"; "slug"; "date"; "category"]
    [ ("title", fstr); ("slug", fstr); ("date", fdate);
      ("category", fenum ["Announcement"; "Event"; "Press Release"; "Update"]);
      ("summary", fstr); ("thumbnail", fstr); ("mainImage", fstr) ].

Definition local_event_schema : schema :=
  mkSchema "Local Event" "src/content/localEvents/"
    ["title"; "slug"; "localGroup"; "date"; "tag"; "location"; "description"]
    [ ("title", fstr); ("slug", fstr);
      ("localGroup", fenum group_options);
      ("date", mkField TDateTime None None);
      ("tag", fstr); ("location", fstr); ("description", fstr);
      ("link", fstr); ("image", fstr) ].

Definition local_news_schema : schema :=
  mkSchema "Local News" "src/content/localNews/"
    ["heading"; "slug"; "text"; "localGroup"; "date"]
    [ ("heading", fstr); ("slug", fstr); ("text", fstr);
      ("localGroup", fenum group_options);
      ("date", fdate); ("link", fstr); ("image", fstr) ].

Definition bio_schema : schema :=
  mkSchema "Bio" "src/content/bios/"
    ["name"; "slug"; "role"]
    [ ("name", fstr); ("slug", fstr); ("role", fstr); ("photo", fstr);
      ("linkedin", fstr); ("twitter", fstr); ("website", fstr);
      ("advisoryBoard", fbool_d false) ].

Definition ecosystem_schema : schema :=
  mkSchema "Ecosystem Entry" "src/content/ecosystem/"
    ["name"; "slug"]
    [ ("name", fstr); ("slug", fstr); ("country", fstr_d "UK");
      ("types", mkField TStringArray None None);
      ("summary", fstr); ("logo", fstr); ("website", fstr);
      ("twitter", fstr); ("facebook", fstr); ("youtube", fstr);
      ("discord", fstr);
      ("status", fenum_d ["Active"; "Inactive"; "Archived"] "Active") ].

Definition CONTENT_TYPES : list (string * schema) :=
  [ ("article", article_schema); ("briefing", briefing_schema);
    ("news", news_schema); ("local_event", local_event_schema);
    ("local_news", local_news_schema); ("bio", bio_schema);
    ("ecosystem", ecosystem_schema) ].

(** [CONTENT_TYPES.get(content_type)] *)
Fixpoint lookup {A} (l : list (string * A)) (k : string) : option A :=
  match l with
  | [] => None
  | (k', a) :: r => if String.eqb k k' then Some a else lookup r k
  end.

Definition get_schema (content_type : string) : option schema :=
  lookup CONTENT_TYPES content_type.

(** Every pattern of the catalogue is ["{slug}.md"]. *)
Definition filename_pattern (slug : string) : string := slug ++ ".md".

(** [format_date(d)] *)
Definition format_date (d : value) : string :=
  match d with
  | VDateTime y m dd hh mm ss =>
      iso_date y m dd ++ "T" ++ iso_time hh mm ss ++ ".000Z"
  | VDate y m dd => iso_date y m dd ++ "T00:00:00.000Z"
  | VStr s => s
  | other => str other
  end.

(** [auto_layout(category)] *)
Definition auto_layout (category : value) : string :=
  if value_eqb category (VStr "Core Ideas")
     || value_eqb category (VStr "Core Insights") then "simplified"
  else if value_eqb category (VStr "But what about...?") then "rebuttal"
  else "default".

(** The entries of a validation error list. *)
Inductive verror : Type :=
| UnknownContentType (content_type : string)
| MissingRequired (field_name : string)
| InvalidOption (field_name : string) (v : value) (options : list string).

(** [frontmatter[field_name] in (None, '')] *)
Definition none_or_empty (v : value) : bool :=
  value_eqb v VNone || value_eqb v (VStr "").

Definition missing_errors (required : list string) (frontmatter : dict)
  : list verror :=
  flat_map (fun field_name =>
    match get frontmatter field_name with
    | None => [MissingRequired field_name]
    | Some v => if none_or_empty v then [MissingRequired field_name] else []
    end) required.

(** [value not in field_def['options']] *)
Definition in_options (v : value) (options : list string) : bool :=
  existsb (fun o => value_eqb v (VStr o)) options.

Definition option_errors (flds : list (string * field_def)) (frontmatter : dict)
  : list verror :=
  flat_map (fun kv : string * value =>
    let (field_name, v) := kv in
    match lookup flds field_name with
    | None => []
    | Some fd =>
        match f_type fd, f_options fd with
        | TEnum, Some options =>
            if in_options v options then []
            else [InvalidOption field_name v options]
        | _, _ => []
        end
    end) frontmatter.

(** [validate_frontmatter(content_type, frontmatter)] *)
Definition validate_frontmatter (content_type : string) (frontmatter : dict)
  : bool * list verror :=
  match get_schema content_type with
  | None => (false, [UnknownContentType content_type])
  | Some sc =>
      let errors := (missing_errors (required_fields sc) frontmatter
                     ++ option_errors (fields sc) frontmatter)%list in
      (match errors with [] => true | _ => false end, errors)
  end.

Definition add_default (result : dict) (fld : string * field_def) : dict :=
  match f_default (snd fld) with
  | Some d => if contains result (fst fld) then result else set result (fst fld) d
  | None => result
  end.

(** [apply_defaults(content_type, frontmatter)] *)
Definition apply_defaults (content_type : string) (frontmatter : dict) : dict :=
  match get_schema content_type with
  | None => frontmatter
  | Some sc =>
      let result := fold_left add_default (fields sc) frontmatter in
      if String.eqb content_type "article" && contains result "category"
      then
        if negb (contains frontmatter "layout")
           || negb (truthy (get_default frontmatter "layout" VNone))
        then set result "layout"
               (VStr (auto_layout (get_default result "category" VNone)))
        else result
      else result
  end.

End Schemas.

(* ================================================================== *)
(** * chat/services/content_service.py *)
(* ================================================================== *)

Module ContentService.
Import Py Schemas.

Definition nl : string := String "010" "".

(** [get_file_path(content_type, slug)]: [None] stands for the
    [ValueError] raised on an unknown content type. *)
Definition get_file_path (content_type slug : string) : option string :=
  match get_schema content_type with
  | None => None
  | Some sc => Some (directory sc ++ filename_pattern slug)
  end.

(** [get_image_path(content_type, slug, extension='png')] *)
Definition get_image_path (content_type slug : string) : string :=
  if String.eqb content_type "bio"
  then "public/images/bios/" ++ slug ++ ".png"
  else if String.eqb content_type "briefing"
  then "public/images/briefings/" ++ slug ++ "-thumbnail.png"
  else "public/images/" ++ slug ++ ".png".

Definition yaml_special : list ascii :=
  [":"; "#"; "{"; "}"; "["; "]"; ","; "&"; "*"; "?"; "|"; "-";
   "<"; ">"; "="; "!"; "%"; "@"; "`"]%char.

Definition yaml_literals : list string :=
  ["true"; "false"; "yes"; "no"; "null"; "on"; "off"].

Definition dq : ascii := "034"%char.
Definition dquote : string := String dq "".

(** [_yaml_value(value)] *)
Definition _yaml_value (v : value) : string :=
  match v with
  | VBool b => if b then "true" else "false"
  | VInt z => str_of_Z z
  | VList l =>
      "[" ++ join ", " (map (fun x => dquote ++ x ++ dquote) l) ++ "]"
  | VStr s =>
      if existsb (fun c => has_char c s) yaml_special
      then dquote ++ replace_char dq ("\" ++ dquote) s ++ dquote
      else if mem_str (lower s) yaml_literals
      then dquote ++ s ++ dquote
      else s
  | other => str other
  end.

Definition is_date_type (t : field_type) : bool :=
  match t with TDate | TDateTime => true | _ => false end.

(** One pass of the loop over [schema['fields']]: the line emitted for a
    field, if any. *)
Definition field_line (frontmatter : dict) (fld : string * field_def)
  : list string :=
  let (field_name, fd) := fld in
  match get frontmatter field_name with
  | None | Some VNone => []
  | Some v =>
      let v' := if is_date_type (f_type fd) then VStr (format_date v) else v in
      [field_name ++ ": " ++ _yaml_value v']
  end.

Definition body_lines (body : string) : list string :=
  if String.eqb body "" then []
  else if endswith body nl then [body] else [body; ""].

(** [generate_markdown(content_type, frontmatter, body='')]: the markdown
    text, or the error list. *)
Definition generate_markdown (content_type : string) (frontmatter : dict)
    (body : string) : option string * list verror :=
  match get_schema content_type with
  | None => (None, [UnknownContentType content_type])
  | Some sc =>
      let frontmatter := apply_defaults content_type frontmatter in
      let (is_valid, errors) := validate_frontmatter content_type frontmatter in
      if negb is_valid then (None, errors)
      else
        let lines := (["---"] ++ flat_map (field_line frontmatter) (fields sc)
                      ++ ["---"; ""] ++ body_lines body)%list in
        (Some (join nl lines), [])
  end.

End ContentService.

(* ================================================================== *)
(** * Collaborators outside the repository *)
(* ================================================================== *)

(** What [yaml.safe_load] answers: a mapping, some other document, or a
    [yaml.YAMLError]. *)
Inductive yaml_result : Type :=
| YDict (d : Py.dict)
| YOther
| YError.

(** The libraries the core calls and does not own.  [download_image] and
    [convert_to_png] answer [None] where httpx or Pillow raise;
    [get_pdf_image] is the lookup of a stored PDF image. *)
Class Collaborators : Type := {
  yaml_safe_load : string -> yaml_result;
  download_image : string -> option (string * string);
  convert_to_png : string -> option string;
  get_pdf_image : nat -> Z -> option (string * string)
}.


(* ================================================================== *)
(** * The world the services act on *)
(* ================================================================== *)

Module Runtime.
Import Py.

(** Files of a directory tree: relative path to content. *)
Definition files : Type := list (string * string).

Fixpoint fs_get (fs : files) (p : string) : option string :=
  match fs with
  | [] => None
  | (q, c) :: r => if String.eqb p q then Some c else fs_get r p
  end.

Fixpoint fs_set (fs : files) (p c : string) : files :=
  match fs with
  | [] => [(p, c)]
  | (q, c') :: r => if String.eqb p q then (p, c) :: r else (q, c') :: fs_set r p c
  end.

Definition fs_remove (fs : files) (p : string) : files :=
  filter (fun e => negb (String.eqb p (fst e))) fs.

(** A commit: its identity stands for the change it carries, which a rebase
    keeps while it rewrites the hash. *)
Record commit : Type := mkCommit {
  c_id : nat;
  c_message : string;
  c_author : string;
  c_staged : list (string * option string)
}.

Definition history : Type := list commit.   (* newest first *)

Definition ids (h : history) : list nat := map c_id h.

Definition in_history (c : commit) (h : history) : bool :=
  existsb (Nat.eqb (c_id c)) (ids h).

(** [repo.iter_commits('a..b')]: the commits of [b] that [a] does not reach. *)
Definition range (a b : history) : history :=
  filter (fun c => negb (in_history c a)) b.

Fixpoint is_suffix (a b : history) : bool :=
  if list_eq_dec Nat.eq_dec (ids a) (ids b) then true
  else match b with
       | [] => false
       | _ :: b' => is_suffix a b'
       end.

(** The clone directory.  [is_repo] is false for a plain directory that a
    file write created; [rebasing] says that an interrupted rebase left its
    state behind. *)
Record Repo : Type := mkRepo {
  is_repo : bool;
  worktree : files;
  branch : history;
  origin_ref : history;
  rebasing : bool
}.

Inductive status : Type := pending | approved | rejected | published.

Definition status_eqb (a b : status) : bool :=
  match a, b with
  | pending, pending | approved, approved
  | rejected, rejected | published, published => true
  | _, _ => false
  end.

(** [ContentDraft] (chat/models.py); the timestamps are left out. *)
Record ContentDraft : Type := mkDraft {
  d_id : nat;
  d_conversation : nat;
  d_created_by : string;
  d_content_type : string;
  d_title : value;
  d_slug : string;
  d_frontmatter_json : dict;
  d_body_markdown : string;
  d_image_path : string;
  d_image_data : option string;
  d_status : status;
  d_reviewer : option string;
  d_review_feedback : string;
  d_git_commit_sha : string
}.

(** [ContentAuditLog] (chat/models.py) *)
Record ContentAuditLog : Type := mkAudit {
  a_content_type : string;
  a_slug : string;
  a_action : string;
  a_user : string;
  a_git_commit_sha : string;
  a_changes_summary : string
}.

(** An entry of [list_content]'s result; the modification time is left out. *)
Record item : Type := mkItem {
  it_content_type : string;
  it_slug : value;
  it_title : value;
  it_frontmatter : dict;
  it_file_path : string
}.

(** The result of [read_content]. *)
Record content : Type := mkContent {
  ct_frontmatter : dict;
  ct_body : string;
  ct_raw_markdown : string;
  ct_file_path : string
}.

Inductive git_cmd : Type :=
| Clone | SetUrl | Fetch | Checkout | IterCommits | Rebase | RebaseAbort
| ResetHard | IndexAdd (path : string) | IndexRemove (path : string)
| Commit | Push | PullRebase.

(** What the code does to the world, in the order it does it. *)
Inductive event : Type :=
| EvAcquire | EvRelease
| EvGit (g : git_cmd)
| EvWrite (path content : string)
| EvDelete (path : string)
| EvWriteOutput (path : string)
| EvDraft (s : status)
| EvAudit (action : string)
| EvCacheClear.

(** The answer of the outside to one call: it works, it fails, or (for a
    rebase) it stops on a conflict. *)
Inductive verdict : Type := Good | Fail | Conflict.

Record World : Type := mkWorld {
  DEBUG : bool;
  mirror : option Repo;
  remote : history;
  output : files;
  drafts : list ContentDraft;
  audit : list ContentAuditLog;
  list_cache : list (string * list item);
  read_cache : list (string * content);
  trace : list event;
  script : list verdict;
  next_id : nat;
  checkout_tree : files -> history -> files
}.

Definition with_mirror (m : option Repo) (w : World) : World :=
  mkWorld (DEBUG w) m (remote w) (output w) (drafts w) (audit w)
    (list_cache w) (read_cache w) (trace w) (script w) (next_id w)
    (checkout_tree w).

Definition with_remote (h : history) (w : World) : World :=
  mkWorld (DEBUG w) (mirror w) h (output w) (drafts w) (audit w)
    (list_cache w) (read_cache w) (trace w) (script w) (next_id w)
    (checkout_tree w).

Definition with_output (o : files) (w : World) : World :=
  mkWorld (DEBUG w) (mirror w) (remote w) o (drafts w) (audit w)
    (list_cache w) (read_cache w) (trace w) (script w) (next_id w)
    (checkout_tree w).

Definition with_drafts (d : list ContentDraft) (w : World) : World :=
  mkWorld (DEBUG w) (mirror w) (remote w) (output w) d (audit w)
    (list_cache w) (read_cache w) (trace w) (script w) (next_id w)
    (checkout_tree w).

Definition with_audit (a : list ContentAuditLog) (w : World) : World :=
  mkWorld (DEBUG w) (mirror w) (remote w) (output w) (drafts w) a
    (list_cache w) (read_cache w) (trace w) (script w) (next_id w)
    (checkout_tree w).

Definition with_caches (l : list (string * list item))
    (r : list (string * content)) (w : World) : World :=
  mkWorld (DEBUG w) (mirror w) (remote w) (output w) (drafts w) (audit w)
    l r (trace w) (script w) (next_id w) (checkout_tree w).

Definition with_trace (t : list event) (w : World) : World :=
  mkWorld (DEBUG w) (mirror w) (remote w) (output w) (drafts w) (audit w)
    (list_cache w) (read_cache w) t (script w) (next_id w) (checkout_tree w).

Definition with_script (s : list verdict) (w : World) : World :=
  mkWorld (DEBUG w) (mirror w) (remote w) (output w) (drafts w) (audit w)
    (list_cache w) (read_cache w) (trace w) s (next_id w) (checkout_tree w).

Definition with_next_id (n : nat) (w : World) : World :=
  mkWorld (DEBUG w) (mirror w) (remote w) (output w) (drafts w) (audit w)
    (list_cache w) (read_cache w) (trace w) (script w) n (checkout_tree w).

(** ** Exceptions and the monad *)

Inductive exn : Type :=
| GitCommandError
| InvalidGitRepositoryError
| NoSuchPathError
| OSError
| DatabaseError
| ValueError.

Inductive res (A : Type) : Type :=
| Ok (a : A)
| Raise (e : exn).
Arguments Ok {A} a.
Arguments Raise {A} e.

Definition M (A : Type) : Type := World -> res A * World.

Definition ret {A} (a : A) : M A := fun w => (Ok a, w).

Definition bind {A B} (m : M A) (k : A -> M B) : M B :=
  fun w => match m w with
           | (Ok a, w') => k a w'
           | (Raise e, w') => (Raise e, w')
           end.

Definition raise {A} (e : exn) : M A := fun w => (Raise e, w).

(** [try: m  except Exception: h] *)
Definition try_except {A} (m : M A) (h : exn -> M A) : M A :=
  fun w => match m w with
           | (Ok a, w') => (Ok a, w')
           | (Raise e, w') => h e w'
           end.

(** [try: m  except git.GitCommandError: h] *)
Definition try_git {A} (m : M A) (h : M A) : M A :=
  try_except m (fun e => match e with GitCommandError => h | _ => raise e end).

Definition gets {A} (f : World -> A) : M A := fun w => (Ok (f w), w).

Definition modify (f : World -> World) : M unit := fun w => (Ok tt, f w).

Definition log (e : event) : M unit :=
  modify (fun w => with_trace (trace w ++ [e]) w).

(** The next answer of the outside; an exhausted script answers [Good]. *)
Definition consult : M verdict :=
  fun w => match script w with
           | [] => (Ok Good, w)
           | v :: r => (Ok v, with_script r w)
           end.

Definition fresh : M nat :=
  fun w => (Ok (next_id w), with_next_id (S (next_id w)) w).

(** [with _git_lock: m]: released on every way out. *)
Definition with_lock {A} (m : M A) : M A :=
  fun w => match m (with_trace (trace w ++ [EvAcquire]) w) with
           | (r, w') => (r, with_trace (trace w' ++ [EvRelease]) w')
           end.

Module Notations.
Notation "x <- m ;; k" := (bind m (fun x => k))
  (at level 61, m at next level, right associativity).
Notation "m ;;; k" := (bind m (fun _ => k))
  (at level 61, right associativity).
End Notations.

End Runtime.

(* ================================================================== *)
(** * chat/services/git_service.py *)
(* ================================================================== *)

Module GitService.
Import Py Runtime Runtime.Notations.

(** ** The git transport

    What the commands of GitPython do to the mirror.  Commands that reach the
    network ([clone], [fetch], [push], [pull]) and the ones the code guards
    ([iter_commits], [rebase], the index) consult the outside; [checkout],
    [reset --hard] and [rebase --abort] depend on the mirror alone. *)

Definition set_repo (r : Repo) : M unit := modify (with_mirror (Some r)).

(** [git.Repo(str(clone_dir))] *)
Definition open_repo : M Repo :=
  m <- gets mirror ;;
  match m with
  | None => raise NoSuchPathError
  | Some r => if is_repo r then ret r else raise InvalidGitRepositoryError
  end.

(** [git.Repo.clone_from(url, clone_dir, branch=branch)] *)
Definition git_clone : M unit :=
  log (EvGit Clone) ;;;
  v <- consult ;;
  match v with
  | Good =>
      w <- gets (fun w => w) ;;
      set_repo (mkRepo true (checkout_tree w [] (remote w))
                  (remote w) (remote w) false)
  | _ => raise GitCommandError
  end.

(** [origin.fetch()] *)
Definition git_fetch : M unit :=
  log (EvGit Fetch) ;;;
  v <- consult ;;
  match v with
  | Good =>
      r <- open_repo ;;
      h <- gets remote ;;
      set_repo (mkRepo true (worktree r) (branch r) h (rebasing r))
  | _ => raise GitCommandError
  end.

(** [repo.git.checkout(branch)] *)
Definition git_checkout : M unit := log (EvGit Checkout).

(** [list(repo.iter_commits('origin/branch..branch'))] *)
Definition iter_commits : M history :=
  log (EvGit IterCommits) ;;;
  v <- consult ;;
  match v with
  | Good => r <- open_repo ;; ret (range (origin_ref r) (branch r))
  | _ => raise GitCommandError
  end.

(** [repo.git.rebase('origin/branch')]: refused while another rebase is
    pending; otherwise it replays the local commits on the remote tip, or
    stops on a conflict and leaves its state behind. *)
Definition git_rebase : M unit :=
  log (EvGit Rebase) ;;;
  r <- open_repo ;;
  if rebasing r then raise GitCommandError
  else
    v <- consult ;;
    match v with
    | Good =>
        let h := (range (origin_ref r) (branch r) ++ origin_ref r)%list in
        w <- gets (fun w => w) ;;
        set_repo (mkRepo true (checkout_tree w (worktree r) h) h
                    (origin_ref r) false)
    | Conflict =>
        set_repo (mkRepo true (worktree r) (branch r) (origin_ref r) true) ;;;
        raise GitCommandError
    | Fail => raise GitCommandError
    end.

(** [repo.git.rebase('--abort')]: an error when no rebase is pending. *)
Definition git_rebase_abort : M unit :=
  log (EvGit RebaseAbort) ;;;
  r <- open_repo ;;
  if rebasing r
  then set_repo (mkRepo true (worktree r) (branch r) (origin_ref r) false)
  else raise GitCommandError.

(** [repo.git.reset('--hard', 'origin/branch')] *)
Definition git_reset_hard : M unit :=
  log (EvGit ResetHard) ;;;
  r <- open_repo ;;
  w <- gets (fun w => w) ;;
  set_repo (mkRepo true (checkout_tree w (worktree r) (origin_ref r))
              (origin_ref r) (origin_ref r) (rebasing r)).

(** [repo.remotes.origin.push()]: rejected unless the remote branch is an
    ancestor of the local one. *)
Definition git_push : M unit :=
  log (EvGit Push) ;;;
  v <- consult ;;
  r <- open_repo ;;
  h <- gets remote ;;
  match v with
  | Good =>
      if is_suffix h (branch r)
      then modify (with_remote (branch r)) ;;;
           set_repo (mkRepo true (worktree r) (branch r) (branch r) (rebasing r))
      else raise GitCommandError
  | _ => raise GitCommandError
  end.

(** [repo.git.pull('--rebase')] *)
Definition git_pull_rebase : M unit :=
  log (EvGit PullRebase) ;;;
  v <- consult ;;
  r <- open_repo ;;
  h <- gets remote ;;
  match v with
  | Good =>
      if rebasing r then raise GitCommandError else
      let b := (range h (branch r) ++ h)%list in
      w <- gets (fun w => w) ;;
      set_repo (mkRepo true (checkout_tree w (worktree r) b) b h false)
  | Conflict =>
      set_repo (mkRepo true (worktree r) (branch r) h true) ;;;
      raise GitCommandError
  | Fail => raise GitCommandError
  end.

(** ** The service *)

(** [ensure_repo()] *)
Definition ensure_repo : M unit :=
  m <- gets mirror ;;
  match m with
  | None => git_clone
  | Some _ =>
      _ <- open_repo ;;
      log (EvGit SetUrl) ;;;
      git_fetch ;;;
      git_checkout ;;;
      ahead <- try_except iter_commits (fun _ => ret []) ;;
      match ahead with
      | _ :: _ =>
          try_git git_rebase
            (try_except git_rebase_abort (fun _ => ret tt) ;;;
             git_reset_hard)
      | [] => git_reset_hard
      end
  end.

(** [full_path.write_text(...)] / [write_bytes] under the clone directory,
    after [mkdir(parents=True, exist_ok=True)]. *)
Definition write_file_to_repo (relative_path content_bytes : string) : M unit :=
  log (EvWrite relative_path content_bytes) ;;;
  v <- consult ;;
  match v with
  | Good =>
      m <- gets mirror ;;
      match m with
      | None =>
          set_repo (mkRepo false [(relative_path, content_bytes)] [] [] false)
      | Some r =>
          set_repo (mkRepo (is_repo r)
                      (fs_set (worktree r) relative_path content_bytes)
                      (branch r) (origin_ref r) (rebasing r))
      end
  | _ => raise OSError
  end.

(** [write_file_to_output(relative_path, content_bytes)] *)
Definition write_file_to_output (relative_path content_bytes : string) : M unit :=
  log (EvWriteOutput relative_path) ;;;
  v <- consult ;;
  match v with
  | Good =>
      modify (fun w => with_output (fs_set (output w) relative_path content_bytes) w)
  | _ => raise OSError
  end.

(** [read_file_from_repo(relative_path)] *)
Definition read_file_from_repo (w : World) (relative_path : string)
  : option string :=
  let in_clone := match mirror w with
                  | Some r => fs_get (worktree r) relative_path
                  | None => None
                  end in
  match in_clone with
  | Some c => Some c
  | None => if DEBUG w then fs_get (output w) relative_path else None
  end.

(** [delete_file_from_repo(relative_path)] *)
Definition delete_file_from_repo (relative_path : string) : M bool :=
  m <- gets mirror ;;
  match m with
  | None => ret false
  | Some r =>
      match fs_get (worktree r) relative_path with
      | None => ret false
      | Some _ =>
          log (EvDelete relative_path) ;;;
          v <- consult ;;
          match v with
          | Good =>
              set_repo (mkRepo (is_repo r) (fs_remove (worktree r) relative_path)
                          (branch r) (origin_ref r) (rebasing r)) ;;;
              ret true
          | _ => raise OSError
          end
      end
  end.

(** The staging loop of [commit_locally]: a path that is on disk is added, a
    path that is gone is removed; a removal that fails is only logged. *)
Fixpoint stage (fs : list string) (staged : list (string * option string))
  : M (list (string * option string)) :=
  match fs with
  | [] => ret staged
  | f :: rest =>
      r <- open_repo ;;
      match fs_get (worktree r) f with
      | Some c =>
          log (EvGit (IndexAdd f)) ;;;
          v <- consult ;;
          match v with
          | Good => stage rest (staged ++ [(f, Some c)])%list
          | _ => raise GitCommandError
          end
      | None =>
          log (EvGit (IndexRemove f)) ;;;
          v <- consult ;;
          match v with
          | Good => stage rest (staged ++ [(f, None)])%list
          | _ => stage rest staged
          end
      end
  end.

Definition hexsha (n : nat) : string := "sha-" ++ str_of_N (N.of_nat n).

(** The block that [commit_locally] runs under the lock. *)
Definition commit_body (fs : list string) (commit_message author_name : string)
  : M string :=
  d <- gets DEBUG ;;
  if d then ret "debug-no-push"
  else
    _ <- open_repo ;;
    staged <- stage fs [] ;;
    log (EvGit Commit) ;;;
    v <- consult ;;
    match v with
    | Good =>
        n <- fresh ;;
        r <- open_repo ;;
        set_repo (mkRepo true (worktree r)
                    (mkCommit n commit_message author_name staged :: branch r)
                    (origin_ref r) (rebasing r)) ;;;
        ret (hexsha n)
    | _ => raise GitCommandError
    end.

(** [commit_locally(files, commit_message, author_name, author_email)] *)
Definition commit_locally (fs : list string) (commit_message author_name : string)
  : M string :=
  with_lock (commit_body fs commit_message author_name).

(** The block that [push_to_remote] runs under the lock. *)
Definition push_body : M nat :=
  d <- gets DEBUG ;;
  if d then ret 0
  else
    m <- gets mirror ;;
    match m with
    | None => ret 0
    | Some _ =>
        _ <- open_repo ;;
        ahead <- try_except iter_commits (fun _ => ret []) ;;
        let count := List.length ahead in
        if Nat.eqb count 0 then ret 0
        else
          try_git git_push (git_pull_rebase ;;; git_push) ;;;
          ret count
    end.

(** [push_to_remote()] *)
Definition push_to_remote : M nat := with_lock push_body.

(** [commit_and_push(files, commit_message, author_name, author_email)] *)
Definition commit_and_push (fs : list string) (commit_message author_name : string)
  : M string :=
  sha <- commit_locally fs commit_message author_name ;;
  (if String.eqb sha "debug-no-push" then ret 0 else push_to_remote) ;;;
  ret sha.

End GitService.

(* ================================================================== *)
(** * chat/services/content_reader_service.py *)
(* ================================================================== *)

Module ContentReader.
Import Py Schemas Runtime Runtime.Notations GitService.

Definition CACHE_KEY_PREFIX : string := "content_reader".

(** [_cache_key(name, *args)]: falsy arguments are dropped. *)
Definition _cache_key (name : string) (args : list string) : string :=
  join ":" ([CACHE_KEY_PREFIX; name]
            ++ filter (fun a => negb (String.eqb a "")) args)%list.

(** [invalidate_cache()] *)
Definition invalidate_cache : M unit :=
  log EvCacheClear ;;;
  modify (with_caches [] []).

(** [_ensure_repo_available()] *)
Definition _ensure_repo_available : M unit :=
  try_except ensure_repo (fun _ => ret tt).

(** [_get_content_dir(content_type)] *)
Definition _get_content_dir (content_type : string) : option string :=
  match get_schema content_type with
  | None => None
  | Some sc => Some (directory sc)
  end.

(** [_get_title_from_frontmatter(frontmatter, content_type)] *)
Definition _get_title_from_frontmatter (frontmatter : option dict) : value :=
  match frontmatter with
  | None | Some [] => VStr "Untitled"
  | Some fm =>
      por (get_default fm "title" VNone)
        (por (get_default fm "heading" VNone)
           (por (get_default fm "name" VNone) (VStr "Untitled")))
  end.

(** ** Paths *)

Definition with_slash (d : string) : string :=
  if endswith d "/" then d else d ++ "/".

(** [p] names a file directly inside [d] that matches ["*.md"]. *)
Definition md_in_directory (d p : string) : bool :=
  let d' := with_slash d in
  let name := drop (String.length d') p in
  startswith p d' && negb (has_char "/" name) && endswith name ".md".

Fixpoint insert_sorted (x : string) (l : list string) : list string :=
  match l with
  | [] => [x]
  | y :: r => if String.leb x y then x :: l else y :: insert_sorted x r
  end.

Definition sorted (l : list string) : list string :=
  fold_right insert_sorted [] l.

(** [list_files_in_directory(relative_dir, pattern='*.md')] *)
Definition list_files_in_directory (w : World) (relative_dir : string)
  : list string :=
  match mirror w with
  | None => []
  | Some r =>
      sorted (filter (md_in_directory relative_dir) (map fst (worktree r)))
  end.

(** The part of [s] after its last ['/']. *)
Fixpoint basename (s : string) : string :=
  match s with
  | EmptyString => EmptyString
  | String c r =>
      if has_char "/" r then basename r
      else if Ascii.eqb c "/" then r else s
  end.

(** [name[:i]] for the last ['.'] of [name] at [0 < i < len(name) - 1]. *)
Fixpoint cut_suffix (name : string) : string :=
  match name with
  | EmptyString => EmptyString
  | String c r =>
      if has_char "." r then String c (cut_suffix r)
      else if Ascii.eqb c "." then
        (match r with EmptyString => name | _ => EmptyString end)
      else name
  end.

(** [Path(file_path).stem] *)
Definition stem (file_path : string) : string :=
  match basename file_path with
  | EmptyString => EmptyString
  | String c r =>
      if has_char "." r then String c (cut_suffix r) else String c r
  end.

Section WithCollaborators.
Context `{Collaborators}.

(** [_parse_frontmatter(raw_text)] *)
Definition _parse_frontmatter (raw_text : string) : option dict * string :=
  if String.eqb raw_text "" || negb (startswith raw_text "---")
  then (None, raw_text)
  else
    match find raw_text "---" 3 with
    | None => (None, raw_text)
    | Some end_idx =>
        let yaml_str := strip (slice 3 end_idx raw_text) in
        let body := strip (drop (end_idx + 3) raw_text) in
        match yaml_safe_load yaml_str with
        | YDict frontmatter => (Some frontmatter, body)
        | YOther | YError => (None, raw_text)
        end
    end.

(** The body of the inner loop of [list_content]. *)
Definition scan_file (w : World) (ct file_path : string) : list item :=
  match read_file_from_repo w file_path with
  | None => []
  | Some raw =>
      let (frontmatter, body) := _parse_frontmatter raw in
      let slug := match frontmatter with
                  | None | Some [] => VStr ""
                  | Some fm => get_default fm "slug" (VStr "")
                  end in
      let slug := if truthy slug then slug else VStr (stem file_path) in
      [ mkItem ct slug (_get_title_from_frontmatter frontmatter)
          (match frontmatter with Some fm => fm | None => [] end) file_path ]
  end.

Definition scan_type (w : World) (ct : string) : list item :=
  match _get_content_dir ct with
  | None => []
  | Some d =>
      if String.eqb d "" then []
      else flat_map (scan_file w ct) (list_files_in_directory w d)
  end.

(** [list_content(content_type=None)] *)
Definition list_content (content_type : option string) : M (list item) :=
  let t := match content_type with Some t => t | None => "" end in
  let cache_k := _cache_key "list" [if String.eqb t "" then "all" else t] in
  c <- gets list_cache ;;
  match lookup c cache_k with
  | Some cached => ret cached
  | None =>
      _ensure_repo_available ;;;
      w <- gets (fun w => w) ;;
      let types_to_scan :=
        if String.eqb t "" then map fst CONTENT_TYPES else [t] in
      let results := flat_map (scan_type w) types_to_scan in
      modify (fun w => with_caches ((cache_k, results) :: list_cache w)
                         (read_cache w) w) ;;;
      ret results
  end.

(** [_find_file_path_by_slug(content_type, slug)] *)
Definition _find_file_path_by_slug (content_type slug : string)
  : M (option string) :=
  match get_schema content_type with
  | None => ret None
  | Some sc =>
      let direct_path := directory sc ++ filename_pattern slug in
      w <- gets (fun w => w) ;;
      match read_file_from_repo w direct_path with
      | Some _ => ret (Some direct_path)
      | None =>
          all_items <- list_content (Some content_type) ;;
          ret (option_map it_file_path
                 (List.find (fun it => value_eqb (it_slug it) (VStr slug))
                    all_items))
      end
  end.

(** [read_content(content_type, slug)] *)
Definition read_content (content_type slug : string) : M (option content) :=
  let cache_k := _cache_key "read" [content_type; slug] in
  c <- gets read_cache ;;
  match lookup c cache_k with
  | Some cached => ret (Some cached)
  | None =>
      _ensure_repo_available ;;;
      file_path <- _find_file_path_by_slug content_type slug ;;
      match file_path with
      | None => ret None
      | Some fp =>
          if String.eqb fp "" then ret None
          else
            w <- gets (fun w => w) ;;
            match read_file_from_repo w fp with
            | None => ret None
            | Some raw =>
                let (frontmatter, body) := _parse_frontmatter raw in
                let result :=
                  mkContent (match frontmatter with Some fm => fm | None => [] end)
                    body raw fp in
                modify (fun w => with_caches (list_cache w)
                                   ((cache_k, result) :: read_cache w) w) ;;;
                ret (Some result)
            end
      end
  end.

(** [check_slug_exists(content_type, slug)] *)
Definition check_slug_exists (content_type slug : string) : M bool :=
  r <- _find_file_path_by_slug content_type slug ;;
  ret (match r with Some _ => true | None => false end).

End WithCollaborators.
End ContentReader.

(* ================================================================== *)
(** * chat/services/image_service.py *)
(* ================================================================== *)

Module ImageService.
Import Py.

Definition png_magic : string :=
  String "137" (String "P" (String "N" (String "G"
    (String "013" (String "010" (String "026" (String "010" "")))))))%char.

Section WithCollaborators.
Context `{Collaborators}.

(** [process_image(url, slug)]: [None] stands for [(None, None)]. *)
Definition process_image (url slug : string) : option (string * string) :=
  match download_image url with
  | None => None
  | Some (image_bytes, content_type) =>
      let is_png := startswith content_type "image/png"
                    || endswith (lower url) ".png"
                    || String.eqb (take 8 image_bytes) png_magic in
      let filename := slug ++ "-thumbnail.png" in
      if is_png then Some (image_bytes, filename)
      else match convert_to_png image_bytes with
           | None => None
           | Some png => Some (png, filename)
           end
  end.

End WithCollaborators.
End ImageService.

(* ================================================================== *)
(** * chat/views.py *)
(* ================================================================== *)

Module Views.
Import Py Schemas Accounts ContentService Runtime Runtime.Notations.
Import GitService ContentReader ImageService.

(** [django.contrib.auth.models.User] with its profile. *)
Record User : Type := mkUser {
  u_username : string;
  u_full_name : string
}.

(** An entry of the action block's ["images"]; a missing key reads as the
    default the handler gives to [.get]. *)
Record img_info : Type := mkImg {
  i_source : string;
  i_index : Z;
  i_url : string;
  i_save_as : string
}.

(** The action block after [json.loads]: [a_body] is [None] when the key is
    absent, [a_frontmatter] and [a_images] are empty when theirs are. *)
Record action_data : Type := mkAction {
  a_type : string;
  a_slug_key : string;
  a_fm : dict;
  a_body : option string;
  a_images : list img_info
}.

(** The ["message"] of an error result. *)
Inductive error_kind : Type :=
| DuplicateSlug (slug : string)
| PermissionDenied
| ValidationErrors (errors : list verror)
| MissingTypeOrSlug
| ContentNotFound
| FailedToSaveEdits.

(** The handlers' [action_result] dictionary, by its ["type"].  The reply
    text that goes with it is a rendering of the same data. *)
Inductive action_result : Type :=
| RError (e : error_kind)
| RContentCreated (title : value) (content_type : string)
| RDraftPending (draft_id : nat)
| RContentEdited (title : value) (content_type : string).

(** [frontmatter.get('title') or frontmatter.get('heading')
     or frontmatter.get('name', 'Untitled')] *)
Definition title_of (fm : dict) : value :=
  por (get_default fm "title" VNone)
    (por (get_default fm "heading" VNone)
       (get_default fm "name" (VStr "Untitled"))).

(** [ContentDraft.objects.create(...)] *)
Definition create_draft (conv : nat) (user : User) (content_type : string)
    (title : value) (slug : string) (fm : dict) (body : string)
    (image_data : option string) (image_path : string)
    (st : status) (sha : string) : M ContentDraft :=
  log (EvDraft st) ;;;
  v <- consult ;;
  match v with
  | Good =>
      n <- fresh ;;
      let d := mkDraft n conv (u_username user) content_type title slug fm body
                 image_path image_data st None "" sha in
      modify (fun w => with_drafts (d :: drafts w) w) ;;;
      ret d
  | _ => raise DatabaseError
  end.

(** [_log_audit(content_type, slug, action, user, sha, changes_summary)] *)
Definition _log_audit (content_type slug action : string) (user : User)
    (sha changes_summary : string) : M unit :=
  try_except
    (log (EvAudit action) ;;;
     v <- consult ;;
     match v with
     | Good =>
         modify (fun w =>
           with_audit (mkAudit content_type slug action (u_username user)
                         sha changes_summary :: audit w) w)
     | _ => raise DatabaseError
     end)
    (fun _ => ret tt).

(** [image_bytes and image_repo_path] *)
Definition image_to_write (image_bytes image_repo_path : option string)
  : option (string * string) :=
  match image_bytes, image_repo_path with
  | Some b, Some p =>
      if String.eqb b "" || String.eqb p "" then None else Some (p, b)
  | _, _ => None
  end.

(** [image_repo_path or ''] *)
Definition or_empty (p : option string) : string :=
  match p with Some s => s | None => "" end.

(** [user.get_full_name() or user.username] *)
Definition author_of (user : User) : string :=
  if String.eqb (u_full_name user) "" then u_username user else u_full_name user.

Definition commit_msg (verb content_type : string) (title : value)
    (who : string) : string :=
  verb ++ " " ++ content_type ++ ": " ++ str title
    ++ " — via MMTUK CMS (" ++ who ++ ")".

(** The write-and-commit part shared by the create and edit handlers:
    [DEBUG] writes to the output directory, otherwise the mirror is
    refreshed, the files written and committed locally.  Gives the sha. *)
Definition write_and_commit (verb content_type : string) (title : value)
    (user : User) (file_path markdown : string)
    (image : option (string * string)) : M string :=
  d <- gets DEBUG ;;
  if d then
    write_file_to_output file_path markdown ;;;
    match image with
    | Some (p, b) => write_file_to_output p b
    | None => ret tt
    end ;;;
    ret "debug-mode"
  else
    ensure_repo ;;;
    write_file_to_repo file_path markdown ;;;
    files_written <-
      match image with
      | Some (p, b) => write_file_to_repo p b ;;; ret [file_path; p]
      | None => ret [file_path]
      end ;;
    commit_locally files_written
      (commit_msg verb content_type title (u_username user)) (author_of user).

Section WithCollaborators.
Context `{Collaborators}.

(** The image step of [_handle_content_action]: the bytes and the
    repository path of the first requested image, when it resolves. *)
Definition resolve_image (content_type slug : string) (conv : nat)
    (images : list img_info) : option string * option string :=
  match images with
  | [] => (None, None)
  | img :: _ =>
      let path := if String.eqb (i_save_as img) ""
                  then get_image_path content_type slug
                  else "public/" ++ lstrip_char "/" (i_save_as img) in
      let found :=
        if String.eqb (i_source img) "pdf"
        then option_map fst (get_pdf_image conv (i_index img))
        else if String.eqb (i_url img) "" then None
        else option_map fst (process_image (i_url img) slug) in
      match found with
      | Some b => if String.eqb b "" then (None, None) else (Some b, Some path)
      | None => (None, None)
      end
  end.

(** The [try] block of [_handle_content_action]. *)
Definition publish_attempt (conv : nat) (user : User) (content_type : string)
    (title : value) (slug : string) (fm : dict) (body : string)
    (file_path markdown : string) (image_bytes image_repo_path : option string)
  : M action_result :=
  sha <- write_and_commit "Add" content_type title user file_path markdown
           (image_to_write image_bytes image_repo_path) ;;
  create_draft conv user content_type title slug fm body None "" published sha ;;;
  _log_audit content_type slug "create" user sha "" ;;;
  invalidate_cache ;;;
  ret (RContentCreated title content_type).

(** The pending draft of the [except] and [else] branches. *)
Definition save_pending (conv : nat) (user : User) (content_type : string)
    (title : value) (slug : string) (fm : dict) (body : string)
    (image_bytes image_repo_path : option string) : M action_result :=
  draft <- create_draft conv user content_type title slug fm body
             image_bytes (or_empty image_repo_path) pending "" ;;
  ret (RDraftPending (d_id draft)).

(** [_handle_content_action(action_data, profile, conv, user)] *)
Definition _handle_content_action (a : action_data) (profile : UserProfile)
    (conv : nat) (user : User) : M action_result :=
  let content_type := a_type a in
  let frontmatter := a_fm a in
  let body := match a_body a with Some b => b | None => "" end in
  let slug := str (get_default frontmatter "slug" (VStr "")) in
  let title := title_of frontmatter in
  dup <- check_slug_exists content_type slug ;;
  if dup then ret (RError (DuplicateSlug slug))
  else
    let local_group := get_default frontmatter "localGroup" (VStr "") in
    if negb (can_create profile content_type local_group)
    then ret (RError PermissionDenied)
    else
      match generate_markdown content_type frontmatter body with
      | (Some markdown, []) =>
          let (image_bytes, image_repo_path) :=
            resolve_image content_type slug conv (a_images a) in
          let can_publish := can_publish_directly profile content_type local_group in
          match get_file_path content_type slug with
          | None => raise ValueError
          | Some file_path =>
              if can_publish
              then try_except
                     (publish_attempt conv user content_type title slug
                        frontmatter body file_path markdown
                        image_bytes image_repo_path)
                     (fun _ => save_pending conv user content_type title slug
                                 frontmatter body image_bytes image_repo_path)
              else save_pending conv user content_type title slug
                     frontmatter body image_bytes image_repo_path
          end
      | (_, errors) => ret (RError (ValidationErrors errors))
      end.

(** The image step of [_handle_edit_action]: URL images only. *)
Definition resolve_edit_image (content_type slug : string)
    (images : list img_info) : option string * option string :=
  match images with
  | [] => (None, None)
  | img :: _ =>
      if String.eqb (i_url img) "" then (None, None)
      else
        match option_map fst (process_image (i_url img) slug) with
        | Some b =>
            if String.eqb b "" then (None, None)
            else (Some b,
                  Some (if String.eqb (i_save_as img) ""
                        then get_image_path content_type slug
                        else "public/" ++ lstrip_char "/" (i_save_as img)))
        | None => (None, None)
        end
  end.

(** [merged_fm = dict(existing['frontmatter']); merged_fm.update(new)] *)
Definition merge_frontmatter (existing new_frontmatter : dict) : dict :=
  update existing new_frontmatter.

(** [new_body if new_body is not None else existing['body']] *)
Definition merge_body (existing : string) (new_body : option string) : string :=
  match new_body with Some b => b | None => existing end.

(** The [try] block of [_handle_edit_action]. *)
Definition edit_attempt (conv : nat) (user : User) (content_type : string)
    (title : value) (slug : string) (merged_fm : dict) (body : string)
    (file_path markdown : string) (image_bytes image_repo_path : option string)
  : M action_result :=
  sha <- write_and_commit "Edit" content_type title user file_path markdown
           (image_to_write image_bytes image_repo_path) ;;
  create_draft conv user content_type title slug merged_fm body None ""
    published sha ;;;
  _log_audit content_type slug "edit" user sha "" ;;;
  invalidate_cache ;;;
  ret (RContentEdited title content_type).

(** [_handle_edit_action(action_data, profile, conv, user)] *)
Definition _handle_edit_action (a : action_data) (profile : UserProfile)
    (conv : nat) (user : User) : M action_result :=
  let content_type := a_type a in
  let slug := a_slug_key a in
  let new_frontmatter := a_fm a in
  let new_body := a_body a in
  if String.eqb content_type "" || String.eqb slug ""
  then ret (RError MissingTypeOrSlug)
  else
    let local_group := get_default new_frontmatter "localGroup" (VStr "") in
    if negb (can_edit profile (Some content_type) local_group)
    then ret (RError PermissionDenied)
    else
      existing <- read_content content_type slug ;;
      match existing with
      | None => ret (RError ContentNotFound)
      | Some ex =>
          let merged_fm := merge_frontmatter (ct_frontmatter ex) new_frontmatter in
          let body := merge_body (ct_body ex) new_body in
          let title := title_of merged_fm in
          match generate_markdown content_type merged_fm body with
          | (Some markdown, []) =>
              let (image_bytes, image_repo_path) :=
                resolve_edit_image content_type slug (a_images a) in
              match get_file_path content_type slug with
              | None => raise ValueError
              | Some file_path =>
                  try_except
                    (edit_attempt conv user content_type title slug merged_fm
                       body file_path markdown image_bytes image_repo_path)
                    (fun _ => ret (RError FailedToSaveEdits))
              end
          | (_, errors) => ret (RError (ValidationErrors errors))
          end
      end.

End WithCollaborators.

(** The answer of a view: a refusal or the rendered drafts. *)
Inductive response : Type :=
| HttpResponseForbidden
| Rendered (drafts : list ContentDraft).

(** [frontmatter_json__localGroup=local_group] *)
Definition has_local_group (lg : string) (d : ContentDraft) : bool :=
  match get (d_frontmatter_json d) "localGroup" with
  | Some (VStr g) => String.eqb g lg
  | _ => false
  end.

(** [pending_list(request)] for the profile of the requesting user. *)
Definition pending_list (profile : UserProfile) (w : World) : response :=
  if negb (can_approve profile None VNone) then HttpResponseForbidden
  else
    let ds := filter (fun d => status_eqb (d_status d) pending) (drafts w) in
    let ds :=
      match profile_role profile with
      | group_lead =>
          filter (fun d => mem_str (d_content_type d) local_types
                           && has_local_group (local_group profile) d) ds
      | _ => ds
      end in
    Rendered ds.

End Views.

(* ================================================================== *)
(** * Further code of the same files *)
(* ================================================================== *)

(** [str.strip] with a character to strip. *)
Module PyX.
Import Py.

(** [s.rstrip('-')] for a single character. *)
Fixpoint rstrip_char (x : ascii) (s : string) : string :=
  match s with
  | EmptyString => EmptyString
  | String c r =>
      match rstrip_char x r with
      | EmptyString => if Ascii.eqb c x then EmptyString else String c EmptyString
      | r' => String c r'
      end
  end.

(** [s.strip('-')] for a single character. *)
Definition strip_char (x : ascii) (s : string) : string :=
  rstrip_char x (lstrip_char x s).

End PyX.

(** content_schema/schemas.py: slugs *)
Module SchemasX.
Import Py PyX Schemas.

(** A character of [[a-z0-9]]. *)
Definition is_slug_alnum (c : ascii) : bool :=
  let n := nat_of_ascii c in
  ((48 <=? n) && (n <=? 57) || (97 <=? n) && (n <=? 122))%nat.

(** [re.sub(r'[^a-z0-9]+', '-', s)]: every maximal run of other characters
    becomes one dash; [in_run] says that the previous character belonged to
    the run being replaced. *)
Fixpoint sub_non_alnum (in_run : bool) (s : string) : string :=
  match s with
  | EmptyString => EmptyString
  | String c r =>
      if is_slug_alnum c then String c (sub_non_alnum false r)
      else if in_run then sub_non_alnum true r
      else String "-" (sub_non_alnum true r)
  end.

(** [generate_slug(title)] *)
Definition generate_slug (title : string) : string :=
  strip_char "-" (sub_non_alnum false (lower title)).

End SchemasX.

(** chat/services/git_service.py: what waits to be pushed *)
Module GitServiceX.
Import Py Runtime Runtime.Notations GitService.

(** [commit.hexsha] of the tip of a branch: an error on a branch without
    commits. *)
Definition head_sha (h : history) : M string :=
  match h with
  | [] => raise ValueError
  | c :: _ => ret (hexsha (c_id c))
  end.

(** [has_unpushed_commits()] *)
Definition has_unpushed_commits : M bool :=
  m <- gets mirror ;;
  match m with
  | None => ret false
  | Some _ =>
      try_except
        (r <- open_repo ;;
         local_sha <- head_sha (branch r) ;;
         remote_sha <- head_sha (origin_ref r) ;;
         if String.eqb local_sha remote_sha then ret false
         else
           ahead <- iter_commits ;;
           ret (negb (Nat.eqb (List.length ahead) 0)))
        (fun _ => ret false)
  end.

(** An entry of [get_unpushed_changes]; the commit date is left out. *)
Record change : Type := mkChange {
  ch_sha : string;
  ch_message : string;
  ch_author : string
}.

Definition change_of (c : commit) : change :=
  mkChange (take 8 (hexsha (c_id c))) (strip (c_message c)) (c_author c).

(** [get_unpushed_changes()] *)
Definition get_unpushed_changes : M (list change) :=
  d <- gets DEBUG ;;
  if d then ret []
  else
    m <- gets mirror ;;
    match m with
    | None => ret []
    | Some _ =>
        try_except
          (_ <- open_repo ;;
           git_fetch ;;;
           ahead <- iter_commits ;;
           ret (map change_of ahead))
          (fun _ => ret [])
    end.

End GitServiceX.

(** chat/views.py: deleting, reviewing drafts, publishing *)
Module ViewsX.
Import Py Schemas Accounts ContentService Runtime Runtime.Notations.
Import GitService ContentReader ImageService Views.

(** The outcomes of [_handle_delete_action], by the ["type"] and
    ["message"] of its result. *)
Inductive delete_result : Type :=
| DMissingTypeOrSlug
| DPermissionDenied
| DContentNotFound
| DFileNotInRepo
| DFailedToDelete
| DContentDeleted (title : value) (content_type : string).

(** [fm.get('title') or fm.get('heading') or fm.get('name') or 'Untitled'] *)
Definition title_or_untitled (fm : dict) : value :=
  por (get_default fm "title" VNone)
    (por (get_default fm "heading" VNone)
       (por (get_default fm "name" VNone) (VStr "Untitled"))).

(** The [try] block of [_handle_delete_action]; the sha is [None] where
    the block returns early because the file was not in the clone. *)
Definition delete_attempt (content_type slug : string) (title : value)
    (user : User) (file_path : string) : M delete_result :=
  d <- gets DEBUG ;;
  sha <- (if d then ret (Some "debug-mode")
          else
            ensure_repo ;;;
            deleted <- delete_file_from_repo file_path ;;
            if negb deleted then ret None
            else
              sha <- commit_locally [file_path]
                       (commit_msg "Delete" content_type title (u_username user))
                       (author_of user) ;;
              ret (Some sha)) ;;
  match sha with
  | None => ret DFileNotInRepo
  | Some sha =>
      _log_audit content_type slug "delete" user sha "" ;;;
      invalidate_cache ;;;
      ret (DContentDeleted title content_type)
  end.

Section WithCollaborators.
Context `{Collaborators}.

(** [_handle_delete_action(action_data, profile, conv, user)] *)
Definition _handle_delete_action (a : action_data) (profile : UserProfile)
    (conv : nat) (user : User) : M delete_result :=
  let content_type := a_type a in
  let slug := a_slug_key a in
  if String.eqb content_type "" || String.eqb slug ""
  then ret DMissingTypeOrSlug
  else if negb (can_delete profile (Some content_type) VNone)
  then ret DPermissionDenied
  else
    existing <- read_content content_type slug ;;
    match existing with
    | None => ret DContentNotFound
    | Some ex =>
        let title := title_or_untitled (ct_frontmatter ex) in
        match get_file_path content_type slug with
        | None => raise ValueError
        | Some file_path =>
            try_except
              (delete_attempt content_type slug title user file_path)
              (fun _ => ret DFailedToDelete)
        end
    end.

End WithCollaborators.

(** ** Reviewing drafts *)

(** The answer of a view that changes something. *)
Inductive http_response : Type :=
| Http404
| Http403
| Http400 (errors : list verror)
| Http500
| HttpRedirect (to : string).

(** [get_object_or_404(ContentDraft, id=draft_id, status='pending')] *)
Definition get_pending (draft_id : nat) (ds : list ContentDraft)
  : option ContentDraft :=
  List.find (fun d => Nat.eqb (d_id d) draft_id
                      && status_eqb (d_status d) pending) ds.

(** The rows after [draft.save()]: the row with the draft's key is
    replaced, or the draft inserted when there is none. *)
Definition put_draft (d : ContentDraft) (ds : list ContentDraft)
  : list ContentDraft :=
  if existsb (fun x => Nat.eqb (d_id x) (d_id d)) ds
  then map (fun x => if Nat.eqb (d_id x) (d_id d) then d else x) ds
  else d :: ds.

(** [draft.save()] *)
Definition save_draft (d : ContentDraft) : M unit :=
  log (EvDraft (d_status d)) ;;;
  v <- consult ;;
  match v with
  | Good => modify (fun w => with_drafts (put_draft d (drafts w)) w)
  | _ => raise DatabaseError
  end.

(** The draft with the reviewer's decision on it. *)
Definition reviewed (d : ContentDraft) (st : status) (reviewer : string)
    (feedback sha : string) : ContentDraft :=
  mkDraft (d_id d) (d_conversation d) (d_created_by d) (d_content_type d)
    (d_title d) (d_slug d) (d_frontmatter_json d) (d_body_markdown d)
    (d_image_path d) (d_image_data d) st (Some reviewer) feedback sha.

(** The writes of [approve_draft]: the sha of the commit. *)
Definition approve_write (draft : ContentDraft) (user : User)
    (file_path markdown : string) : M string :=
  d <- gets DEBUG ;;
  if d then
    write_file_to_output file_path markdown ;;;
    ret "debug-mode"
  else
    ensure_repo ;;;
    write_file_to_repo file_path markdown ;;;
    files_written <-
      match image_to_write (d_image_data draft) (Some (d_image_path draft)) with
      | Some (p, b) => write_file_to_repo p b ;;; ret [file_path; p]
      | None => ret [file_path]
      end ;;
    commit_locally files_written
      (commit_msg "Add" (d_content_type draft) (d_title draft)
         ("approved by " ++ u_username user))
      (author_of user).

(** [approve_draft(request, draft_id)] *)
Definition approve_draft (profile : UserProfile) (user : User)
    (draft_id : nat) : M http_response :=
  ds <- gets drafts ;;
  match get_pending draft_id ds with
  | None => ret Http404
  | Some draft =>
      let local_group :=
        get_default (d_frontmatter_json draft) "localGroup" (VStr "") in
      if negb (can_approve profile (Some (d_content_type draft)) local_group)
      then ret Http403
      else
        match generate_markdown (d_content_type draft)
                (d_frontmatter_json draft) (d_body_markdown draft) with
        | (Some markdown, []) =>
            match get_file_path (d_content_type draft) (d_slug draft) with
            | None => raise ValueError
            | Some file_path =>
                try_except
                  (sha <- approve_write draft user file_path markdown ;;
                   save_draft (reviewed draft approved (u_username user)
                                 (d_review_feedback draft) sha) ;;;
                   ret (HttpRedirect "pending_list"))
                  (fun _ => ret Http500)
            end
        | (_, errors) => ret (Http400 errors)
        end
  end.

(** [reject_draft(request, draft_id)] with the posted feedback. *)
Definition reject_draft (profile : UserProfile) (user : User)
    (draft_id : nat) (feedback : string) : M http_response :=
  ds <- gets drafts ;;
  match get_pending draft_id ds with
  | None => ret Http404
  | Some draft =>
      let local_group :=
        get_default (d_frontmatter_json draft) "localGroup" (VStr "") in
      if negb (can_approve profile (Some (d_content_type draft)) local_group)
      then ret Http403
      else
        save_draft (reviewed draft rejected (u_username user) feedback
                      (d_git_commit_sha draft)) ;;;
        ret (HttpRedirect "pending_list")
  end.


End ViewsX.

(* ================================================================== *)
(** * Fixtures: concrete actors, intents and worlds *)
(* ================================================================== *)

Module Fixtures.
Import Py Accounts Runtime Views.

(** Collaborators that always fail: no YAML document parses, no image
    downloads. *)
Definition offline : Collaborators :=
  {| yaml_safe_load := fun _ => YError;
     download_image := fun _ => None;
     convert_to_png := fun _ => None;
     get_pdf_image := fun _ _ => None |}.

(** A YAML reader that knows one document. *)
Definition reads_one (text : string) (d : dict) : Collaborators :=
  {| yaml_safe_load := fun s => if String.eqb s text then YDict d else YError;
     download_image := fun _ => None;
     convert_to_png := fun _ => None;
     get_pdf_image := fun _ _ => None |}.

Definition keep_tree (t : files) (_ : history) : files := t.

(** No clone yet, empty database, production settings. *)
Definition empty_world : World :=
  mkWorld false None [] [] [] [] [] [] [] [] 0 keep_tree.

Definition ann : User := mkUser "ann" "Ann Lee".

Definition oxford_lead : UserProfile := mkProfile group_lead "oxford".
Definition an_editor : UserProfile := mkProfile editor "".
Definition a_contributor : UserProfile := mkProfile contributor "".

Definition article_fm : dict :=
  [ ("title", VStr "Jobs"); ("slug", VStr "jobs");
    ("category", VStr "Article"); ("author", VStr "Ann");
    ("pubDate", VStr "2024-01-01") ].

Definition create_article : action_data :=
  mkAction "article" "" article_fm (Some "Hello") [].

Definition event_fm (group : string) : dict :=
  [ ("title", VStr "Meetup"); ("slug", VStr "meetup");
    ("localGroup", VStr group); ("date", VStr "2024-05-01T18:00:00.000Z");
    ("tag", VStr "Meetup"); ("location", VStr "Town hall");
    ("description", VStr "Monthly meetup") ].

Definition create_event (group : string) : action_data :=
  mkAction "local_event" "" (event_fm group) (Some "See you there") [].

(** A title that holds the frontmatter marker. *)
Definition dashes_fm : dict :=
  [ ("title", VStr "a---b"); ("slug", VStr "s");
    ("category", VStr "Article"); ("author", VStr "x");
    ("pubDate", VStr "2024-01-01") ].

Definition commit_a : commit := mkCommit 1 "first" "ann" [].
Definition commit_b : commit := mkCommit 2 "second" "ann" [].
Definition commit_c : commit := mkCommit 3 "third" "bob" [].

(** A clone that is one commit ahead of its remote-tracking branch, while
    the remote has moved on by one commit. *)
Definition diverged_repo : Repo :=
  mkRepo true [] [commit_b; commit_a] [commit_a] false.

Definition diverged_world (answers : list verdict) : World :=
  mkWorld false (Some diverged_repo) [commit_c; commit_a] [] [] [] [] [] []
    answers 10 keep_tree.


(** A clone with nothing to push. *)
Definition clean_world : World :=
  mkWorld false (Some (mkRepo true [] [commit_a] [commit_a] false))
    [commit_a] [] [] [] [] [] [] [] 10 keep_tree.

(** A clone that holds one article, and a reader for its frontmatter. *)
Definition jobs_path : string := "src/content/articles/jobs.md".

Definition jobs_raw : string :=
  "---" ++ ContentService.nl ++ "title: Jobs" ++ ContentService.nl ++ "---"
  ++ ContentService.nl ++ ContentService.nl ++ "Hello" ++ ContentService.nl.

Definition jobs_world : World :=
  mkWorld false
    (Some (mkRepo true [(jobs_path, jobs_raw)] [commit_a] [commit_a] false))
    [commit_a] [] [] [] [] [] [] [] 10 keep_tree.

Definition jobs_reader : Collaborators := reads_one "title: Jobs" article_fm.


Definition pending_oxford_event : ContentDraft :=
  mkDraft 7 1 "bob" "local_event" (VStr "Meetup") "meetup" (event_fm "oxford")
    "See you there" "" None pending None "" "".

Definition world_with_draft : World :=
  mkWorld false None [] [] [pending_oxford_event] [] [] [] [] [] 8 keep_tree.

End Fixtures.

(* ================================================================== *)
(** * Properties: capability policy *)
(* ================================================================== *)

Module PolicyProps.
Import Py Accounts Runtime Views.

Lemma mem_local_types (t : string) :
  mem_str t local_types = true <-> t = "local_event" \/ t = "local_news".
Proof.
  unfold mem_str, local_types; simpl.
  rewrite !orb_true_iff, !String.eqb_eq. intuition congruence.
Qed.

Lemma value_eqb_str (v : value) (s : string) :
  value_eqb v (VStr s) = true <-> v = VStr s.
Proof.
  destruct v; simpl; try (split; [discriminate | discriminate]).
  rewrite String.eqb_eq. split; congruence.
Qed.

(** A group lead may create local content for any group. *)
Lemma group_lead_can_create (g t : string) (lg : value) :
  t = "local_event" \/ t = "local_news" ->
  can_create (mkProfile group_lead g) t lg = true.
Proof.
  intros [-> | ->]; reflexivity.
Qed.

(** A group lead publishes local content directly exactly for the own group. *)
Lemma group_lead_publish_iff (g t : string) (lg : value) :
  t = "local_event" \/ t = "local_news" ->
  can_publish_directly (mkProfile group_lead g) t lg = true <-> lg = VStr g.
Proof.
  intros Ht. apply mem_local_types in Ht.
  unfold can_publish_directly; cbn [profile_role local_group].
  rewrite Ht. apply value_eqb_str.
Qed.

Lemma contributor_never_publishes (g t : string) (lg : value) :
  can_publish_directly (mkProfile contributor g) t lg = false.
Proof. reflexivity. Qed.

(** Called without arguments, [can_approve] refuses every group lead. *)
Lemma group_lead_cannot_approve_unscoped (g : string) :
  can_approve (mkProfile group_lead g) None VNone = false.
Proof. reflexivity. Qed.

(** For admins and editors the listing is the set of pending drafts. *)
Lemma pending_list_staff (p : UserProfile) (w : World) :
  profile_role p = admin \/ profile_role p = editor ->
  pending_list p w
  = Rendered (filter (fun d => status_eqb (d_status d) pending) (drafts w)).
Proof.
  intros [Hr | Hr]; unfold pending_list, can_approve; rewrite Hr; reflexivity.
Qed.

(** The Oxford lead is refused although a pending Oxford event waits; an
    editor sees it. *)
Example oxford_lead_is_refused :
  pending_list Fixtures.oxford_lead Fixtures.world_with_draft
  = HttpResponseForbidden /\
  pending_list Fixtures.an_editor Fixtures.world_with_draft
  = Rendered [Fixtures.pending_oxford_event].
Proof. split; reflexivity. Qed.

(** C3.  The pending-drafts listing refuses every group lead, whatever
    the group and whatever drafts are waiting: the view asks
    [can_approve()] without a content type or group, which is false for a
    group lead, so the filter on the lead's own group is never reached. *)
Theorem pending_list_refuses_group_lead (g : string) (w : World) :
  pending_list (mkProfile group_lead g) w = HttpResponseForbidden.
Proof. reflexivity. Qed.

End PolicyProps.

(* ================================================================== *)
(** * Properties: the content file format *)
(* ================================================================== *)

Module FormatProps.
Import Py Schemas ContentService ContentReader Fixtures.

(** A value read back stands for the value written: equal, or for a date
    field equal once serialised. *)
Definition same_field (fd : field_def) (written read : value) : Prop :=
  if is_date_type (f_type fd)
  then format_date read = format_date written
  else read = written.

(** [parsed] agrees with [expected] on every schema field of [T] that
    [expected] gives a value other than [None]. *)
Definition agrees (T : string) (expected parsed : dict) : Prop :=
  forall sc name fd v,
    get_schema T = Some sc ->
    lookup (fields sc) name = Some fd ->
    get expected name = Some v ->
    v <> VNone ->
    exists v', get parsed name = Some v' /\ same_field fd v v'.

(** The round trip of one record through the file format. *)
Definition round_trip `{Collaborators} (T : string) (F : dict) (B : string)
  : Prop :=
  forall md,
    generate_markdown T F B = (Some md, []) ->
    exists fm,
      _parse_frontmatter md = (Some fm, strip B) /\
      agrees T (apply_defaults T F) fm.

Example dashes_generate :
  generate_markdown "article" dashes_fm "Hello"
  = (Some (join nl
       [ "---"; "title: " ++ dquote ++ "a---b" ++ dquote; "slug: s";
         "category: Article"; "layout: default"; "sector: Economics";
         "author: x"; "pubDate: " ++ dquote ++ "2024-01-01" ++ dquote;
         "readTime: 5"; "featured: false"; "---"; ""; "Hello"; "" ]), []).
Proof. reflexivity. Qed.

(** The search for the closing marker stops inside the quoted title. *)
Example dashes_find :
  forall md, generate_markdown "article" dashes_fm "Hello" = (Some md, []) ->
  find md "---" 3 = Some 13.
Proof. intros md H. vm_compute in H. injection H as <-. reflexivity. Qed.

(** C10.  The round trip fails for an article whose title holds three
    dashes, whatever YAML reader is plugged in: [generate_markdown] accepts
    the record, and [_parse_frontmatter] takes the dashes inside the title
    for the closing marker, so the body it returns is not the body that
    was written. *)
Theorem round_trip_fails_on_dashes :
  forall C : Collaborators, ~ @round_trip C "article" dashes_fm "Hello".
Proof.
  intros [yaml dl cv pdf] Hrt.
  destruct (Hrt _ (eq_refl _)) as [fm [Hp _]].
  unfold _parse_frontmatter in Hp.
  vm_compute in Hp.
  destruct (yaml _); discriminate Hp.
Qed.

End FormatProps.

(* ================================================================== *)
(** * Properties: dictionaries and the edit merge *)
(* ================================================================== *)

Module MergeProps.
Import Py Views.

Lemma get_set_same (d : dict) (k : string) (v : value) :
  get (set d k v) k = Some v.
Proof.
  induction d as [| [k' v'] d IH]; simpl.
  - now rewrite String.eqb_refl.
  - destruct (String.eqb k k') eqn:E; simpl.
    + now rewrite String.eqb_refl.
    + now rewrite E.
Qed.

Lemma get_set_other (d : dict) (k k' : string) (v : value) :
  k <> k' -> get (set d k' v) k = get d k.
Proof.
  intros Hne. induction d as [| [q v'] d IH]; simpl.
  - apply String.eqb_neq in Hne. now rewrite Hne.
  - destruct (String.eqb k' q) eqn:E; simpl.
    + apply String.eqb_eq in E; subst q.
      apply String.eqb_neq in Hne. now rewrite Hne.
    + destruct (String.eqb k q); [reflexivity | exact IH].
Qed.




(** The example of the specification. *)
Example merge_example :
  merge_frontmatter [("a", VInt 1); ("b", VInt 2); ("c", VInt 3)]
    [("b", VInt 5)]
  = [("a", VInt 1); ("b", VInt 5); ("c", VInt 3)].
Proof. reflexivity. Qed.

End MergeProps.

(* ================================================================== *)
(** * Frame reasoning: what an operation may do to the world *)
(* ================================================================== *)

Module Frame.
Import Py Schemas Runtime Runtime.Notations GitService ContentReader Views.

(** The git commands of a mirror refresh. *)
Definition sync_cmd (g : git_cmd) : bool :=
  match g with
  | Clone | SetUrl | Fetch | Checkout | IterCommits
  | Rebase | RebaseAbort | ResetHard => true
  | _ => false
  end.

Section Respects.
Context `{Collaborators}.
Variable R : World -> World -> Prop.
Variable allowed : event -> Prop.
Hypothesis R_refl : forall w, R w w.
Hypothesis R_trans : forall a b c, R a b -> R b c -> R a c.
Hypothesis R_log : forall w e, allowed e -> R w (with_trace (trace w ++ [e]) w).
Hypothesis R_script :
  forall w v s, script w = v :: s -> R w (with_script s w).
Hypothesis R_repo :
  forall w r, is_repo r = true -> R w (with_mirror (Some r) w).
Hypothesis R_mirror : forall w m, R w (with_mirror m w).
Hypothesis R_remote : forall w h, R w (with_remote h w).
Hypothesis R_caches : forall w l r, R w (with_caches l r w).
Hypothesis R_next_id : forall w n, R w (with_next_id n w).
Hypothesis allowed_sync : forall g, sync_cmd g = true -> allowed (EvGit g).
Hypothesis allowed_git : forall g, allowed (EvGit g).
Hypothesis allowed_any : forall e, allowed e.
Hypothesis R_output : forall w o, R w (with_output o w).
Hypothesis R_drafts : forall w d, R w (with_drafts d w).
Hypothesis R_audit : forall w a, R w (with_audit a w).

(** [m] takes every world to a world related to it by [R]. *)
Definition respects {A} (m : M A) : Prop := forall w, R w (snd (m w)).

Lemma respects_ret {A} (a : A) : respects (ret a).
Proof. intros w; apply R_refl. Qed.

Lemma respects_raise {A} (e : exn) : respects (@raise A e).
Proof. intros w; apply R_refl. Qed.

Lemma respects_gets {A} (f : World -> A) : respects (gets f).
Proof. intros w; apply R_refl. Qed.

Lemma respects_bind {A B} (m : M A) (k : A -> M B) :
  respects m -> (forall a, respects (k a)) -> respects (bind m k).
Proof.
  intros Hm Hk w. unfold bind.
  specialize (Hm w). destruct (m w) as [[a | e] w1]; simpl in *.
  - eapply R_trans; [exact Hm | apply Hk].
  - exact Hm.
Qed.

Lemma respects_try_except {A} (m : M A) (h : exn -> M A) :
  respects m -> (forall e, respects (h e)) -> respects (try_except m h).
Proof.
  intros Hm Hh w. unfold try_except.
  specialize (Hm w). destruct (m w) as [[a | e] w1]; simpl in *.
  - exact Hm.
  - eapply R_trans; [exact Hm | apply Hh].
Qed.

Lemma respects_try_git {A} (m h : M A) :
  respects m -> respects h -> respects (try_git m h).
Proof.
  intros Hm Hh. apply respects_try_except; [exact Hm |].
  intros []; try apply respects_raise. exact Hh.
Qed.

Lemma respects_log (e : event) : allowed e -> respects (log e).
Proof. intros He w. apply R_log, He. Qed.

Lemma respects_consult : respects consult.
Proof.
  intros w. unfold consult. destruct (script w) eqn:E; simpl.
  - apply R_refl.
  - eapply R_script, E.
Qed.

Lemma respects_fresh : respects fresh.
Proof. intros w. apply R_next_id. Qed.

Lemma respects_set_repo (r : Repo) :
  is_repo r = true -> respects (set_repo r).
Proof. intros Hr w. now apply R_repo. Qed.

Lemma respects_set_dir (r : Repo) : respects (set_repo r).
Proof. intros w. apply R_mirror. Qed.

Lemma respects_with_lock {A} (m : M A) :
  allowed EvAcquire -> allowed EvRelease -> respects m -> respects (with_lock m).
Proof.
  intros Ha Hr Hm w. unfold with_lock.
  specialize (Hm (with_trace (trace w ++ [EvAcquire]) w)).
  destruct (m _) as [r w1]; simpl in *.
  eapply R_trans; [apply R_log, Ha |].
  eapply R_trans; [exact Hm | apply R_log, Hr].
Qed.

Ltac frame_step :=
  first
    [ apply respects_ret | apply respects_raise | apply respects_gets
    | apply respects_consult | apply respects_fresh
    | apply respects_set_repo; reflexivity | apply respects_set_dir
    | apply respects_log;
      first [apply allowed_sync; reflexivity | apply allowed_git | apply allowed_any]
    | apply respects_bind; [| intros ?]
    | apply respects_try_except; [| intros ?]
    | apply respects_try_git
    | match goal with
      | |- respects (match ?x with _ => _ end) => destruct x
      end ].

Ltac frame := repeat frame_step.

Lemma respects_open_repo : respects open_repo.
Proof. unfold open_repo. frame. Qed.

Lemma respects_ensure_repo : respects ensure_repo.
Proof.
  unfold ensure_repo, git_clone, git_fetch, git_checkout, iter_commits,
    git_rebase, git_rebase_abort, git_reset_hard, open_repo.
  frame.
Qed.

Lemma respects_ensure_repo_available : respects _ensure_repo_available.
Proof.
  unfold _ensure_repo_available.
  apply respects_try_except; [apply respects_ensure_repo | intros; apply respects_ret].
Qed.

Lemma respects_list_content (content_type : option string) :
  respects (list_content content_type).
Proof.
  unfold list_content.
  apply respects_bind; [apply respects_gets | intros c].
  destruct (lookup c _); [apply respects_ret |].
  apply respects_bind; [apply respects_ensure_repo_available | intros _].
  apply respects_bind; [apply respects_gets | intros w0].
  apply respects_bind; [| intros; apply respects_ret].
  intros w. apply R_caches.
Qed.

Lemma respects_find_file_path_by_slug (content_type slug : string) :
  respects (_find_file_path_by_slug content_type slug).
Proof.
  unfold _find_file_path_by_slug.
  destruct (get_schema content_type); [| apply respects_ret].
  apply respects_bind; [apply respects_gets | intros w0].
  destruct (read_file_from_repo w0 _); [apply respects_ret |].
  apply respects_bind; [apply respects_list_content | intros; apply respects_ret].
Qed.

Lemma respects_check_slug_exists (content_type slug : string) :
  respects (check_slug_exists content_type slug).
Proof.
  unfold check_slug_exists.
  apply respects_bind; [apply respects_find_file_path_by_slug |].
  intros; apply respects_ret.
Qed.

Lemma respects_read_content (content_type slug : string) :
  respects (read_content content_type slug).
Proof.
  unfold read_content.
  apply respects_bind; [apply respects_gets | intros c].
  destruct (lookup c _); [apply respects_ret |].
  apply respects_bind; [apply respects_ensure_repo_available | intros _].
  apply respects_bind; [apply respects_find_file_path_by_slug | intros fp].
  destruct fp as [fp |]; [| apply respects_ret].
  destruct (String.eqb fp ""); [apply respects_ret |].
  apply respects_bind; [apply respects_gets | intros w0].
  destruct (read_file_from_repo w0 fp); [| apply respects_ret].
  destruct (_parse_frontmatter _) as [fm body].
  apply respects_bind; [| intros; apply respects_ret].
  intros w. apply R_caches.
Qed.

Lemma respects_stage (fs : list string) :
  forall staged, respects (stage fs staged).
Proof.
  induction fs as [| f fs IH]; intros staged; simpl.
  - apply respects_ret.
  - apply respects_bind; [apply respects_open_repo | intros r].
    destruct (fs_get (worktree r) f).
    + frame; apply IH.
    + frame; apply IH.
Qed.

Lemma respects_commit_body (fs : list string) (msg author : string) :
  respects (commit_body fs msg author).
Proof.
  unfold commit_body.
  apply respects_bind; [apply respects_gets | intros d].
  destruct d; [apply respects_ret |].
  apply respects_bind; [apply respects_open_repo | intros _].
  apply respects_bind; [apply respects_stage | intros staged].
  unfold open_repo. frame.
Qed.

Lemma respects_write_file_to_repo (path content : string) :
  respects (write_file_to_repo path content).
Proof. unfold write_file_to_repo. frame. Qed.

Lemma respects_write_file_to_output (path content : string) :
  respects (write_file_to_output path content).
Proof. unfold write_file_to_output. frame. all: intros w; apply R_output. Qed.

Lemma respects_invalidate_cache : respects invalidate_cache.
Proof. unfold invalidate_cache. frame. intros w; apply R_caches. Qed.

Lemma respects_commit_locally (fs : list string) (msg author : string) :
  respects (commit_locally fs msg author).
Proof.
  apply respects_with_lock; try apply allowed_any. apply respects_commit_body.
Qed.

Lemma respects_write_and_commit (verb content_type : string) (title : value)
    (user : User) (file_path markdown : string)
    (image : option (string * string)) :
  respects (write_and_commit verb content_type title user file_path markdown
              image).
Proof.
  unfold write_and_commit.
  apply respects_bind; [apply respects_gets | intros d]. destruct d.
  - apply respects_bind; [apply respects_write_file_to_output | intros _].
    apply respects_bind; [| intros; apply respects_ret].
    destruct image as [[p b] |];
      [apply respects_write_file_to_output | apply respects_ret].
  - apply respects_bind; [apply respects_ensure_repo | intros _].
    apply respects_bind; [apply respects_write_file_to_repo | intros _].
    apply respects_bind; [| intros; apply respects_commit_locally].
    destruct image as [[p b] |]; [| apply respects_ret].
    apply respects_bind; [apply respects_write_file_to_repo |].
    intros; apply respects_ret.
Qed.

Lemma respects_push_body : respects push_body.
Proof.
  unfold push_body, iter_commits, git_push, git_pull_rebase, open_repo.
  frame. all: intros w; apply R_remote.
Qed.

End Respects.

(** ** Two instances *)

(** [w'] is [w] with more events, all of them in [P]. *)
Definition appends (P : event -> Prop) (w w' : World) : Prop :=
  exists evs, trace w' = (trace w ++ evs)%list /\ Forall P evs.

Lemma appends_refl P w : appends P w w.
Proof. exists []. split; [now rewrite app_nil_r | constructor]. Qed.

Lemma appends_same_trace P w w' : trace w' = trace w -> appends P w w'.
Proof.
  intros E. exists []. split; [now rewrite app_nil_r | constructor].
Qed.

Lemma appends_trans P a b c : appends P a b -> appends P b c -> appends P a c.
Proof.
  intros [e1 [H1 F1]] [e2 [H2 F2]]. exists (e1 ++ e2)%list. split.
  - now rewrite H2, H1, app_assoc.
  - apply Forall_app; now split.
Qed.

Lemma appends_log P w e :
  P e -> appends P w (with_trace (trace w ++ [e]) w).
Proof. intros He. exists [e]. split; [reflexivity | now repeat constructor]. Qed.

(** An event of a mirror refresh. *)
Definition sync_event (e : event) : Prop :=
  match e with
  | EvGit g => sync_cmd g = true
  | _ => False
  end.

(** What a read of the content may do: refresh the mirror, fill the
    caches and use up answers of the outside.  It leaves the database, the
    settings, the output directory, the remote and the id counter alone. *)
Definition refreshes (w w' : World) : Prop :=
  appends sync_event w w' /\
  drafts w' = drafts w /\ audit w' = audit w /\ DEBUG w' = DEBUG w /\
  next_id w' = next_id w /\ output w' = output w /\ remote w' = remote w.

Lemma refreshes_refl w : refreshes w w.
Proof. unfold refreshes; repeat split; auto using appends_refl. Qed.

Lemma refreshes_trans a b c : refreshes a b -> refreshes b c -> refreshes a c.
Proof.
  unfold refreshes. intros (A1 & A2 & A3 & A4 & A5 & A6 & A7)
                           (B1 & B2 & B3 & B4 & B5 & B6 & B7).
  repeat split; try congruence. eapply appends_trans; eauto.
Qed.

(** The clone directory, when it exists, is a git repository. *)
Definition healthy (w : World) : Prop :=
  forall r, mirror w = Some r -> is_repo r = true.

(** From here on the outside lets every call succeed. *)
Definition cooperative (w : World) : Prop :=
  Forall (fun v => v = Good) (script w).

(** A read keeps a cooperative outside cooperative, a healthy clone healthy
    and the settings as they are. *)
Definition stays_ready (w w' : World) : Prop :=
  (cooperative w -> cooperative w') /\ (healthy w -> healthy w') /\
  DEBUG w' = DEBUG w.

Lemma stays_ready_refl w : stays_ready w w.
Proof. unfold stays_ready; auto. Qed.

Lemma stays_ready_trans a b c :
  stays_ready a b -> stays_ready b c -> stays_ready a c.
Proof.
  unfold stays_ready. intros (A1 & A2 & A3) (B1 & B2 & B3).
  repeat split; auto. congruence.
Qed.

Lemma stays_ready_repo w r :
  is_repo r = true -> stays_ready w (with_mirror (Some r) w).
Proof.
  intros Hr. unfold stays_ready, cooperative, healthy; simpl.
  repeat split; auto. intros _ r' E. now injection E as <-.
Qed.

Lemma stays_ready_script w v s :
  script w = v :: s -> stays_ready w (with_script s w).
Proof.
  intros E. unfold stays_ready, cooperative, healthy; simpl.
  repeat split; auto. rewrite E. apply Forall_inv_tail.
Qed.

Lemma stays_ready_same w w' :
  script w' = script w -> mirror w' = mirror w -> DEBUG w' = DEBUG w ->
  stays_ready w w'.
Proof.
  intros Es Em Ed. unfold stays_ready, cooperative, healthy.
  rewrite Es, Em. auto.
Qed.

Section Reads.
Context `{Collaborators}.

Lemma check_slug_exists_refreshes (content_type slug : string) (w : World) :
  refreshes w (snd (check_slug_exists content_type slug w)).
Proof.
  apply (respects_check_slug_exists refreshes sync_event);
    first [ apply refreshes_refl
          | apply refreshes_trans
          | intros; unfold refreshes; simpl;
            (split; [first [ apply appends_same_trace; reflexivity
                           | apply appends_log; assumption ] |]);
            repeat split; reflexivity
          | intros g Hg; exact Hg ].
Qed.

Lemma read_content_refreshes (content_type slug : string) (w : World) :
  refreshes w (snd (read_content content_type slug w)).
Proof.
  apply (respects_read_content refreshes sync_event);
    first [ apply refreshes_refl
          | apply refreshes_trans
          | intros; unfold refreshes; simpl;
            (split; [first [ apply appends_same_trace; reflexivity
                           | apply appends_log; assumption ] |]);
            repeat split; reflexivity
          | intros g Hg; exact Hg ].
Qed.

Lemma check_slug_exists_stays_ready (content_type slug : string) (w : World) :
  stays_ready w (snd (check_slug_exists content_type slug w)).
Proof.
  apply (respects_check_slug_exists stays_ready sync_event);
    first [ apply stays_ready_refl
          | apply stays_ready_trans
          | apply stays_ready_repo
          | apply stays_ready_script
          | intros; apply stays_ready_same; reflexivity
          | intros g Hg; exact Hg ].
Qed.

Lemma read_content_stays_ready (content_type slug : string) (w : World) :
  stays_ready w (snd (read_content content_type slug w)).
Proof.
  apply (respects_read_content stays_ready sync_event);
    first [ apply stays_ready_refl
          | apply stays_ready_trans
          | apply stays_ready_repo
          | apply stays_ready_script
          | intros; apply stays_ready_same; reflexivity
          | intros g Hg; exact Hg ].
Qed.

End Reads.

(** [w'] is [w] with more events. *)
Definition grows (w w' : World) : Prop := appends (fun _ => True) w w'.

Ltac grows_frame :=
  first [ apply appends_refl
        | apply appends_trans
        | intros; apply appends_log; exact I
        | intros; apply appends_same_trace; reflexivity
        | intros; exact I ].

Lemma ensure_repo_grows (w : World) : grows w (snd (ensure_repo w)).
Proof. apply (respects_ensure_repo grows (fun _ => True)); grows_frame. Qed.

Lemma stage_grows (fs : list string) staged (w : World) :
  grows w (snd (stage fs staged w)).
Proof. apply (respects_stage grows (fun _ => True)); grows_frame. Qed.

(** What the git service may do: it leaves the database and the settings
    alone. *)
Definition keeps_db (w w' : World) : Prop :=
  grows w w' /\ drafts w' = drafts w /\ audit w' = audit w /\
  DEBUG w' = DEBUG w.

Lemma keeps_db_refl w : keeps_db w w.
Proof. unfold keeps_db; repeat split; apply appends_refl. Qed.

Lemma keeps_db_trans a b c : keeps_db a b -> keeps_db b c -> keeps_db a c.
Proof.
  unfold keeps_db. intros (A1 & A2 & A3 & A4) (B1 & B2 & B3 & B4).
  repeat split; try congruence. eapply appends_trans; eauto.
Qed.

Ltac keeps_db_frame :=
  first [ apply keeps_db_refl
        | apply keeps_db_trans
        | intros; exact I
        | intros; unfold keeps_db, grows; simpl;
          (split; [first [ apply appends_same_trace; reflexivity
                         | apply appends_log; exact I ] |]);
          repeat split; reflexivity ].

Lemma write_and_commit_keeps_db verb content_type title user file_path
    markdown image (w : World) :
  keeps_db w (snd (write_and_commit verb content_type title user file_path
                     markdown image w)).
Proof.
  apply (respects_write_and_commit keeps_db (fun _ => True)); keeps_db_frame.
Qed.

Lemma ensure_repo_keeps_db (w : World) : keeps_db w (snd (ensure_repo w)).
Proof. apply (respects_ensure_repo keeps_db (fun _ => True)); keeps_db_frame. Qed.

Lemma write_file_to_repo_keeps_db path content (w : World) :
  keeps_db w (snd (write_file_to_repo path content w)).
Proof.
  apply (respects_write_file_to_repo keeps_db (fun _ => True)); keeps_db_frame.
Qed.

End Frame.

(* ================================================================== *)
(** * Properties: the git service *)
(* ================================================================== *)

Module GitProps.
Import Py Runtime Runtime.Notations GitService Fixtures Frame.

(** The local commits that the remote-tracking branch does not have. *)
Definition unpushed (w : World) : history :=
  match mirror w with
  | Some r => range (origin_ref r) (branch r)
  | None => []
  end.

(** The events an operation added to the trace. *)
Definition added (w w' : World) (evs : list event) : Prop :=
  trace w' = (trace w ++ evs)%list.






Ltac stuck_in H :=
  first
    [ match type of H with
      | context [match ?x with _ => _ end] => is_var x; destruct x
      end
    | match type of H with
      | context [range ?a ?b] => destruct (range a b) eqn:?
      | context [is_suffix ?a ?b] => destruct (is_suffix a b) eqn:?
      end ].







(** ** The lock *)

(** The events that change the mirror: git commands other than the
    listing of commits, and file writes and deletions in the clone. *)
Definition mutates (e : event) : bool :=
  match e with
  | EvGit IterCommits => false
  | EvGit _ | EvWrite _ _ | EvDelete _ => true
  | _ => false
  end.

(** Every mutation of the trace happens between an acquire and its
    release; [held] says whether the lock is held at the start. *)
Fixpoint guarded (held : bool) (evs : list event) : bool :=
  match evs with
  | [] => true
  | EvAcquire :: r => guarded true r
  | EvRelease :: r => guarded false r
  | e :: r => (held || negb (mutates e)) && guarded held r
  end.

(** An event other than taking or releasing the lock. *)
Definition lock_free (e : event) : Prop := e <> EvAcquire /\ e <> EvRelease.

Lemma guarded_held (evs : list event) :
  Forall lock_free evs -> guarded true (evs ++ [EvRelease]) = true.
Proof.
  induction 1 as [| e evs [Ha Hr] _ IH]; simpl; [reflexivity |].
  destruct e; try congruence; simpl; exact IH.
Qed.

(** A block that does not touch the lock itself runs guarded when it is
    wrapped in [with_lock]. *)
Lemma with_lock_guarded {A} (m : M A) (w : World) :
  (forall w0, Frame.appends lock_free w0 (snd (m w0))) ->
  exists evs, added w (snd (with_lock m w)) evs /\ guarded false evs = true.
Proof.
  intros Hm. unfold with_lock, added.
  destruct (Hm (with_trace (trace w ++ [EvAcquire]) w)) as [evs [Ht Hf]].
  destruct (m _) as [r w1]; simpl in *.
  exists ([EvAcquire] ++ evs ++ [EvRelease])%list. split.
  - rewrite Ht. now rewrite <- !app_assoc.
  - simpl. now apply guarded_held.
Qed.

Lemma lock_free_appends_log (w : World) (e : event) :
  lock_free e -> Frame.appends lock_free w (with_trace (trace w ++ [e]) w).
Proof. apply Frame.appends_log. Qed.

Ltac lock_free_frame :=
  first [ apply Frame.appends_refl
        | apply Frame.appends_trans
        | apply lock_free_appends_log
        | intros; apply Frame.appends_same_trace; reflexivity
        | intros; split; discriminate ].

(** [commit_locally] stages and commits with the lock held. *)
Lemma commit_locally_holds_lock (fs : list string) (msg author : string)
    (w : World) :
  exists evs, added w (snd (commit_locally fs msg author w)) evs
              /\ guarded false evs = true.
Proof.
  apply with_lock_guarded. intros w0.
  apply (Frame.respects_commit_body (Frame.appends lock_free) lock_free);
    lock_free_frame.
Qed.

(** [push_to_remote] counts, pushes and pulls with the lock held. *)
Lemma push_to_remote_holds_lock (w : World) :
  exists evs, added w (snd (push_to_remote w)) evs
              /\ guarded false evs = true.
Proof.
  apply with_lock_guarded. intros w0.
  apply (Frame.respects_push_body (Frame.appends lock_free) lock_free);
    lock_free_frame.
Qed.

(** C2.  [ensure_repo], [write_file_to_repo] and [delete_file_from_repo]
    change the mirror without taking the git lock: on a clone that is in
    sync each of them returns normally and its events, a fetch and a hard
    reset, a file write, a file deletion, happen with the lock free. *)
Theorem mirror_mutations_run_unlocked :
  (exists w' evs,
     ensure_repo clean_world = (Ok tt, w') /\ added clean_world w' evs /\
     In (EvGit ResetHard) evs /\ ~ In EvAcquire evs /\
     guarded false evs = false) /\
  (exists w' evs,
     write_file_to_repo "a.md" "text" clean_world = (Ok tt, w') /\
     added clean_world w' evs /\ ~ In EvAcquire evs /\
     guarded false evs = false) /\
  (exists w' w'' evs,
     write_file_to_repo "a.md" "text" clean_world = (Ok tt, w') /\
     delete_file_from_repo "a.md" w' = (Ok true, w'') /\
     added w' w'' evs /\ ~ In EvAcquire evs /\
     guarded false evs = false).
Proof.
  repeat split.
  - eexists; eexists. repeat split; try reflexivity;
      simpl; intuition discriminate.
  - eexists; eexists. repeat split; try reflexivity;
      simpl; intuition discriminate.
  - eexists; eexists; eexists. repeat split; try reflexivity;
      simpl; intuition discriminate.
Qed.

End GitProps.

(* ================================================================== *)
(** * Properties: the create and edit handlers *)
(* ================================================================== *)

Module HandlerProps.
Import Py Schemas Accounts ContentService Runtime Runtime.Notations.
Import GitService ContentReader Views Fixtures.
Import Frame GitProps MergeProps PolicyProps.

(** ** What the handler reads off an intent *)

Definition slug_of (a : action_data) : string :=
  str (get_default (a_fm a) "slug" (VStr "")).

Definition group_of (a : action_data) : value :=
  get_default (a_fm a) "localGroup" (VStr "").

Definition body_of (a : action_data) : string :=
  match a_body a with Some b => b | None => "" end.

(** The path of the content file of a known content type. *)
Definition file_path_of (content_type slug : string) : string :=
  match get_file_path content_type slug with Some p => p | None => "" end.

(** The database takes the next record. *)
Definition accepts (w : World) : bool :=
  match script w with
  | [] | Good :: _ => true
  | _ => false
  end.

(** The pending draft that holds the payload of a create intent. *)
Definition pending_draft_of (a : action_data) (conv : nat) (user : User)
    (image_bytes image_repo_path : option string) (n : nat) : ContentDraft :=
  mkDraft n conv (u_username user) (a_type a) (title_of (a_fm a)) (slug_of a)
    (a_fm a) (body_of a) (or_empty image_repo_path) image_bytes pending
    None "" "".

Definition is_write (e : event) : Prop :=
  match e with
  | EvWrite _ _ | EvWriteOutput _ | EvDelete _ => True
  | _ => False
  end.

(** No file was written or deleted, nothing staged, committed or pushed. *)
Definition no_publication (evs : list event) : Prop :=
  ~ In (EvGit Commit) evs /\ ~ In (EvGit Push) evs /\
  (forall e, In e evs -> ~ is_write e) /\
  (forall p, ~ In (EvGit (IndexAdd p)) evs).

(** No draft and no audit entry was recorded. *)
Definition no_record (evs : list event) : Prop :=
  (forall st, ~ In (EvDraft st) evs) /\ (forall x, ~ In (EvAudit x) evs).

(** ** Running the monad *)

Lemma bind_ok {A B} (m : M A) (k : A -> M B) w a w1 :
  m w = (Ok a, w1) -> bind m k w = k a w1.
Proof. intros E. unfold bind. now rewrite E. Qed.

Lemma bind_ok_inv {A B} (m : M A) (k : A -> M B) w b w2 :
  bind m k w = (Ok b, w2) ->
  exists a w1, m w = (Ok a, w1) /\ k a w1 = (Ok b, w2).
Proof.
  unfold bind. destruct (m w) as [[a | e] w1]; intros E.
  - now exists a, w1.
  - discriminate.
Qed.

Lemma sync_events_no_publication (evs : list event) :
  Forall sync_event evs -> no_publication evs.
Proof.
  intros Hf. rewrite Forall_forall in Hf. unfold no_publication.
  repeat split.
  - intros Hin. apply Hf in Hin. discriminate Hin.
  - intros Hin. apply Hf in Hin. discriminate Hin.
  - intros e Hin Hw. apply Hf in Hin. destruct e; simpl in *; tauto.
  - intros p Hin. apply Hf in Hin. discriminate Hin.
Qed.

Lemma sync_events_no_record (evs : list event) :
  Forall sync_event evs -> no_record evs.
Proof.
  intros Hf. rewrite Forall_forall in Hf.
  split; intros x Hin; apply Hf in Hin; exact Hin.
Qed.

Lemma no_publication_app (e1 e2 : list event) :
  no_publication e1 -> no_publication e2 -> no_publication (e1 ++ e2).
Proof.
  unfold no_publication.
  intros (A1 & A2 & A3 & A4) (B1 & B2 & B3 & B4).
  repeat split; try (intros Hin; apply in_app_or in Hin; tauto).
  - intros e Hin. apply in_app_or in Hin. destruct Hin; auto.
  - intros p Hin. apply in_app_or in Hin. destruct Hin as [Hin | Hin];
      [eapply A4 | eapply B4]; eauto.
Qed.

Ltac bind_inv H :=
  let a := fresh "a" in
  let w := fresh "w" in
  let E := fresh "E" in
  apply bind_ok_inv in H; destruct H as (a & w & E & H).

Lemma open_repo_ok (w w' : World) (r : Repo) :
  open_repo w = (Ok r, w') -> w' = w /\ mirror w = Some r /\ is_repo r = true.
Proof.
  unfold open_repo, bind, gets, ret, raise.
  destruct (mirror w) as [r0 |]; [| discriminate].
  destruct (is_repo r0) eqn:E; [| discriminate].
  intros H; injection H as <- <-. auto.
Qed.

Lemma consult_ok (w w' : World) (v : verdict) :
  consult w = (Ok v, w') ->
  trace w' = trace w /\ mirror w' = mirror w /\ drafts w' = drafts w /\
  audit w' = audit w /\ next_id w' = next_id w /\ DEBUG w' = DEBUG w.
Proof.
  unfold consult. destruct (script w); intros H; injection H as <- <-;
    repeat split; reflexivity.
Qed.

Lemma write_file_to_repo_ok (path content : string) (w w' : World) :
  write_file_to_repo path content w = (Ok tt, w') ->
  trace w' = (trace w ++ [EvWrite path content])%list.
Proof.
  unfold write_file_to_repo, log, modify. intros H.
  bind_inv H. injection E as <- <-.
  bind_inv H. apply consult_ok in E. destruct E as (Et & _).
  destruct a; try discriminate H.
  bind_inv H. injection E as <- <-.
  unfold set_repo, modify in H.
  destruct (mirror w0); injection H as <-; simpl; exact Et.
Qed.

(** A commit that returns has added a commit whose id is behind the sha. *)
Lemma commit_locally_ok (fs : list string) (msg author sha : string)
    (w w' : World) :
  commit_locally fs msg author w = (Ok sha, w') ->
  DEBUG w = false ->
  exists n r staged rest evs,
    sha = hexsha n /\
    mirror w' = Some r /\
    branch r = mkCommit n msg author staged :: rest /\
    trace w' = (trace w ++ evs)%list /\ In (EvGit Commit) evs.
Proof.
  unfold commit_locally, with_lock. intros H Hd.
  destruct (commit_body fs msg author _) as [r0 w0] eqn:E.
  injection H as -> <-.
  unfold commit_body in E.
  bind_inv E. injection E0 as <- <-. simpl in E. rewrite Hd in E.
  bind_inv E. apply open_repo_ok in E0. destruct E0 as (-> & _ & _).
  bind_inv E.
  pose proof (stage_grows fs [] (with_trace (trace w ++ [EvAcquire]) w)) as Hg.
  rewrite E0 in Hg. simpl in Hg.
  destruct Hg as [evs [Hst _]]. simpl in Hst.
  bind_inv E. unfold log, modify in E1. injection E1 as <- <-.
  bind_inv E. apply consult_ok in E1.
  destruct E1 as (Et & Em & _).
  destruct a1; try discriminate E.
  bind_inv E. unfold fresh in E1. injection E1 as <- <-.
  bind_inv E. apply open_repo_ok in E1. destruct E1 as (-> & Hm & _).
  bind_inv E. unfold set_repo, modify in E1. injection E1 as <- <-.
  injection E as <- <-.
  eexists; eexists; eexists; eexists;
    exists ([EvAcquire] ++ evs ++ [EvGit Commit; EvRelease])%list.
  repeat split.
  - simpl. rewrite Et. simpl. rewrite Hst. now rewrite <- !app_assoc.
  - apply in_or_app. right. apply in_or_app. right. now left.
Qed.

Lemma create_draft_ok conv user content_type title slug fm body
    image_data image_path st sha (w w' : World) (d : ContentDraft) :
  create_draft conv user content_type title slug fm body image_data
    image_path st sha w = (Ok d, w') ->
  d = mkDraft (next_id w) conv (u_username user) content_type title slug fm
        body image_path image_data st None "" sha /\
  drafts w' = d :: drafts w /\
  mirror w' = mirror w /\
  trace w' = (trace w ++ [EvDraft st])%list.
Proof.
  unfold create_draft, log, modify, fresh. intros H.
  bind_inv H. injection E as <- <-.
  bind_inv H. apply consult_ok in E.
  destruct E as (Et & Em & Ed & _ & En & _).
  destruct a; try discriminate H.
  bind_inv H. injection E as <- <-.
  bind_inv H. injection E as <- <-.
  injection H as <- <-. simpl in *.
  rewrite En, Ed, Em, Et. auto.
Qed.

Lemma log_audit_ok content_type slug action user sha summary (w : World) :
  exists w',
    _log_audit content_type slug action user sha summary w = (Ok tt, w') /\
    drafts w' = drafts w /\ mirror w' = mirror w /\
    trace w' = (trace w ++ [EvAudit action])%list.
Proof.
  destruct w as [dbg mir rem out dr au lc rc tr sc nid ck].
  destruct sc as [| [] sc]; eexists; cbv -[app]; repeat split; reflexivity.
Qed.

Lemma invalidate_cache_ok (w : World) :
  exists w',
    invalidate_cache w = (Ok tt, w') /\
    drafts w' = drafts w /\ mirror w' = mirror w /\
    trace w' = (trace w ++ [EvCacheClear])%list.
Proof. eexists. cbv -[app]. repeat split; reflexivity. Qed.

(** The production path of [write_and_commit], when it returns: the
    content file was written and a commit made whose id is behind the sha. *)
Lemma write_and_commit_ok verb content_type title user file_path markdown
    image sha (w w' : World) :
  write_and_commit verb content_type title user file_path markdown image w
  = (Ok sha, w') ->
  DEBUG w = false ->
  exists n r c rest evs,
    sha = hexsha n /\ mirror w' = Some r /\ branch r = c :: rest /\
    c_id c = n /\
    trace w' = (trace w ++ evs)%list /\
    In (EvWrite file_path markdown) evs /\ In (EvGit Commit) evs.
Proof.
  unfold write_and_commit. intros H Hd.
  bind_inv H. injection E as <- <-. rewrite Hd in H.
  bind_inv H.
  pose proof (ensure_repo_keeps_db w) as K1. rewrite E in K1. simpl in K1.
  destruct K1 as ([e1 [T1 _]] & _ & _ & D1).
  bind_inv H.
  pose proof (write_file_to_repo_keeps_db file_path markdown w0) as K2.
  rewrite E0 in K2. simpl in K2. destruct K2 as (_ & _ & _ & D2).
  destruct a0. apply write_file_to_repo_ok in E0.
  bind_inv H.
  assert (K3 : exists e3, trace w2 = (trace w1 ++ e3)%list
                          /\ DEBUG w2 = DEBUG w1).
  { destruct image as [[p b] |].
    - bind_inv E1.
      pose proof (write_file_to_repo_keeps_db p b w1) as K.
      rewrite E2 in K. simpl in K. destruct K as ([e [T _]] & _ & _ & D).
      injection E1 as _ <-. eauto.
    - injection E1 as _ <-. exists []. now rewrite app_nil_r. }
  destruct K3 as [e3 [T3 D3]].
  apply commit_locally_ok in H; [| congruence].
  destruct H as (n & r & staged & rest & e4 & -> & Hm & Hb & T4 & Hin).
  exists n, r, (mkCommit n
                  (commit_msg verb content_type title (u_username user))
                  (author_of user) staged), rest,
    (e1 ++ [EvWrite file_path markdown] ++ e3 ++ e4)%list.
  repeat split; try assumption.
  - rewrite T4, T3, E0, T1. now rewrite <- !app_assoc.
  - rewrite !in_app_iff. simpl. tauto.
  - rewrite !in_app_iff. simpl. tauto.
Qed.

(** ** Runs in which nothing fails *)

Lemma fs_get_set_same (fs : files) (p c : string) :
  fs_get (fs_set fs p c) p = Some c.
Proof.
  induction fs as [| [q c'] fs IH]; simpl.
  - now rewrite String.eqb_refl.
  - destruct (String.eqb p q) eqn:E; simpl.
    + now rewrite String.eqb_refl.
    + now rewrite E.
Qed.

Lemma fs_get_set_keeps (fs : files) (p c q : string) :
  fs_get fs q <> None -> fs_get (fs_set fs p c) q <> None.
Proof.
  induction fs as [| [q' c'] fs IH]; simpl; [congruence |].
  destruct (String.eqb p q') eqn:E; simpl.
  - apply String.eqb_eq in E; subst q'.
    destruct (String.eqb q p); [discriminate | auto].
  - destruct (String.eqb q q'); [discriminate | auto].
Qed.

(** The next answer of a cooperative outside is [Good]. *)
Ltac good_head H :=
  let G := fresh "G" in
  pose proof (Forall_inv H) as G; simpl in G; subst;
  apply Forall_inv_tail in H.

Ltac returned :=
  repeat split; repeat first [reflexivity | assumption | constructor].

Lemma ensure_repo_returns (w : World) :
  cooperative w -> healthy w ->
  exists w1 r,
    ensure_repo w = (Ok tt, w1) /\ cooperative w1 /\ DEBUG w1 = DEBUG w /\
    mirror w1 = Some r /\ is_repo r = true.
Proof.
  unfold cooperative, healthy.
  destruct w as [dbg mir rem out dr au lc rc tr sc nid ck]; simpl.
  intros Hs Hh.
  destruct mir as [[isr wt br orf rb] |].
  - pose proof (Hh _ eq_refl) as Hi. simpl in Hi. subst isr.
    destruct sc as [| v0 sc]; [| good_head Hs; destruct sc as [| v1 sc];
      [| good_head Hs; destruct sc as [| v2 sc]; [| good_head Hs]]];
      destruct (range rem br) eqn:E; destruct rb;
      cbv -[range app]; rewrite ?E;
      eexists; eexists; returned.
  - destruct sc as [| v0 sc]; [| good_head Hs];
      eexists; eexists; cbv -[app]; returned.
Qed.

Lemma write_file_to_repo_returns (path content : string) (w : World) (r : Repo) :
  cooperative w -> mirror w = Some r ->
  exists w1,
    write_file_to_repo path content w = (Ok tt, w1) /\
    cooperative w1 /\ DEBUG w1 = DEBUG w /\
    mirror w1 = Some (mkRepo (is_repo r) (fs_set (worktree r) path content)
                        (branch r) (origin_ref r) (rebasing r)).
Proof.
  unfold cooperative.
  destruct w as [dbg mir rem out dr au lc rc tr sc nid ck]; simpl.
  intros Hs ->.
  destruct sc as [| v0 sc]; [| good_head Hs];
    eexists; cbv -[app fs_set]; returned.
Qed.

Lemma consult_returns (w : World) :
  cooperative w ->
  exists w1,
    consult w = (Ok Good, w1) /\ cooperative w1 /\
    mirror w1 = mirror w /\ DEBUG w1 = DEBUG w.
Proof.
  unfold cooperative, consult.
  destruct (script w) as [| v sc] eqn:E; intros Hs.
  - exists w. rewrite E. returned.
  - good_head Hs. eexists. returned.
Qed.

Lemma stage_returns (fs : list string) :
  forall staged (w : World) (r : Repo),
    cooperative w -> mirror w = Some r -> is_repo r = true ->
    (forall f, In f fs -> fs_get (worktree r) f <> None) ->
    exists st w1,
      stage fs staged w = (Ok st, w1) /\
      cooperative w1 /\ mirror w1 = Some r /\ DEBUG w1 = DEBUG w.
Proof.
  induction fs as [| f fs IH]; intros staged w r Hs Hm Hr Hfs.
  - exists staged, w. cbn. auto.
  - cbn [stage].
    assert (Ho : open_repo w = (Ok r, w)).
    { unfold open_repo, bind, gets, ret. now rewrite Hm, Hr. }
    rewrite (bind_ok _ _ _ _ _ Ho).
    destruct (fs_get (worktree r) f) as [c |] eqn:Ef.
    + set (wl := with_trace (trace w ++ [EvGit (IndexAdd f)]) w).
      assert (El : log (EvGit (IndexAdd f)) w = (Ok tt, wl)) by reflexivity.
      rewrite (bind_ok _ _ _ _ _ El).
      destruct (consult_returns wl Hs) as (wc & Ec & Sc & Mc & Dc).
      rewrite (bind_ok _ _ _ _ _ Ec). cbv iota.
      destruct (IH (staged ++ [(f, Some c)])%list wc r)
        as (st & w1 & E & H1 & H2 & H3); auto.
      { now rewrite Mc. }
      { intros g Hg. apply Hfs. now right. }
      exists st, w1. repeat split; auto. now rewrite H3, Dc.
    + exfalso. apply (Hfs f); [now left | exact Ef].
Qed.

Lemma commit_locally_returns (fs : list string) (msg author : string)
    (w : World) (r : Repo) :
  cooperative w -> mirror w = Some r -> is_repo r = true ->
  DEBUG w = false ->
  (forall f, In f fs -> fs_get (worktree r) f <> None) ->
  exists sha w1,
    commit_locally fs msg author w = (Ok sha, w1) /\ cooperative w1 /\
    DEBUG w1 = DEBUG w.
Proof.
  intros Hs Hm Hr Hd Hfs.
  unfold commit_locally, with_lock.
  set (wq := with_trace (trace w ++ [EvAcquire]) w).
  assert (Ho : open_repo wq = (Ok r, wq)).
  { unfold open_repo, bind, gets, ret. simpl. now rewrite Hm, Hr. }
  destruct (stage_returns fs [] wq r) as (st & w1 & E & H1 & H2 & H3); auto.
  unfold commit_body.
  unfold bind at 1. unfold gets at 1. cbn [DEBUG wq with_trace]. rewrite Hd.
  rewrite (bind_ok _ _ _ _ _ Ho).
  rewrite (bind_ok _ _ _ _ _ E).
  unfold cooperative in *.
  destruct w1 as [dbg mir rem out dr au lc rc tr sc nid ck]; simpl in *.
  subst mir.
  destruct r as [isr wt br orf rb]; simpl in Hr; subst isr.
  destruct sc as [| v0 sc]; [| good_head H1];
    eexists; eexists; cbv -[app hexsha];
    (repeat split; repeat first [assumption | constructor | congruence]).
Qed.

Lemma write_and_commit_returns verb content_type title user file_path
    markdown image (w : World) :
  cooperative w -> healthy w -> DEBUG w = false ->
  exists sha w1,
    write_and_commit verb content_type title user file_path markdown image w
    = (Ok sha, w1) /\ cooperative w1.
Proof.
  intros Hs Hh Hd. unfold write_and_commit.
  unfold bind at 1. unfold gets at 1. rewrite Hd.
  destruct (ensure_repo_returns w Hs Hh) as (w1 & r1 & E1 & S1 & D1 & M1 & R1).
  rewrite (bind_ok _ _ _ _ _ E1).
  destruct (write_file_to_repo_returns file_path markdown w1 r1 S1 M1)
    as (w2 & E2 & S2 & D2 & M2).
  rewrite (bind_ok _ _ _ _ _ E2).
  destruct image as [[p b] |].
  - destruct (write_file_to_repo_returns p b w2 _ S2 M2)
      as (w3 & E3 & S3 & D3 & M3).
    simpl in M3.
    assert (E3' : (write_file_to_repo p b ;;; ret [file_path; p]) w2
                  = (Ok [file_path; p], w3))
      by now rewrite (bind_ok _ _ _ _ _ E3).
    rewrite (bind_ok _ _ _ _ _ E3').
    destruct (commit_locally_returns [file_path; p]
                (commit_msg verb content_type title (u_username user))
                (author_of user) w3 _ S3 M3)
      as (sha & w4 & E4 & S4 & _); auto; try congruence.
    { intros f [<- | [<- | []]]; simpl.
      - apply fs_get_set_keeps. rewrite fs_get_set_same. discriminate.
      - rewrite fs_get_set_same. discriminate. }
    exists sha, w4. auto.
  - assert (E3' : ret [file_path] w2 = (Ok [file_path], w2)) by reflexivity.
    rewrite (bind_ok _ _ _ _ _ E3').
    destruct (commit_locally_returns [file_path]
                (commit_msg verb content_type title (u_username user))
                (author_of user) w2 _ S2 M2)
      as (sha & w4 & E4 & S4 & _); auto; try congruence.
    { intros f [<- | []]; simpl. rewrite fs_get_set_same. discriminate. }
    exists sha, w4. auto.
Qed.

Lemma create_draft_returns conv user content_type title slug fm body
    image_data image_path st sha (w : World) :
  cooperative w ->
  exists d w1,
    create_draft conv user content_type title slug fm body image_data
      image_path st sha w = (Ok d, w1) /\ cooperative w1.
Proof.
  unfold cooperative.
  destruct w as [dbg mir rem out dr au lc rc tr sc nid ck]; simpl.
  intros Hs.
  destruct sc as [| v0 sc]; [| good_head Hs];
    eexists; eexists; cbv -[app]; returned.
Qed.

(** With a healthy clone, production settings and nothing failing, the
    publish attempt returns. *)
Lemma publish_attempt_returns conv user content_type title slug fm body
    file_path markdown ib ip (w : World) :
  cooperative w -> healthy w -> DEBUG w = false ->
  exists r w1,
    publish_attempt conv user content_type title slug fm body file_path
      markdown ib ip w = (Ok r, w1).
Proof.
  intros Hs Hh Hd. unfold publish_attempt.
  destruct (write_and_commit_returns "Add" content_type title user file_path
              markdown (image_to_write ib ip) w Hs Hh Hd)
    as (sha & w1 & E1 & S1).
  rewrite (bind_ok _ _ _ _ _ E1).
  destruct (create_draft_returns conv user content_type title slug fm body
              None "" published sha w1 S1) as (d & w2 & E2 & S2).
  rewrite (bind_ok _ _ _ _ _ E2).
  destruct (log_audit_ok content_type slug "create" user sha "" w2)
    as (w3 & E3 & _).
  rewrite (bind_ok _ _ _ _ _ E3).
  destruct (invalidate_cache_ok w3) as (w4 & E4 & _).
  rewrite (bind_ok _ _ _ _ _ E4).
  eexists; eexists; reflexivity.
Qed.


(** What a publish attempt that returns has done. *)
Lemma publish_attempt_ok conv user content_type title slug fm body
    file_path markdown ib ip (w w' : World) (r : action_result) :
  publish_attempt conv user content_type title slug fm body file_path
    markdown ib ip w = (Ok r, w') ->
  r = RContentCreated title content_type /\
  exists d,
    drafts w' = d :: drafts w /\
    d_status d = published /\ d_frontmatter_json d = fm /\
    d_body_markdown d = body /\ d_content_type d = content_type /\
    d_slug d = slug /\
    (DEBUG w = false ->
     exists r c rest evs,
       mirror w' = Some r /\ branch r = c :: rest /\
       d_git_commit_sha d = hexsha (c_id c) /\
       trace w' = (trace w ++ evs)%list /\
       In (EvWrite file_path markdown) evs /\ In (EvGit Commit) evs /\
       In (EvDraft published) evs).
Proof.
  unfold publish_attempt. intros Hp.
  bind_inv Hp.
  pose proof (write_and_commit_keeps_db "Add" content_type title user
                file_path markdown (image_to_write ib ip) w) as K.
  rewrite E in K. simpl in K. destruct K as (_ & Kd & _ & _).
  bind_inv Hp. apply create_draft_ok in E0.
  destruct E0 as (Hd & Hds & Hm & Ht).
  bind_inv Hp.
  destruct (log_audit_ok content_type slug "create" user a "" w1)
    as (wa & Ea & Da & Ma & Ta).
  rewrite Ea in E0. injection E0 as _ <-.
  bind_inv Hp.
  destruct (invalidate_cache_ok wa) as (wc & Ec & Dc & Mc & Tc).
  rewrite Ec in E0. injection E0 as _ <-.
  injection Hp as <- <-.
  split; [reflexivity |].
  exists a0. rewrite Dc, Da, Hds, Kd. subst a0; simpl.
  repeat split.
  intros Hdbg.
  destruct (write_and_commit_ok _ _ _ _ _ _ _ _ _ _ E Hdbg)
    as (n & r & c & rest & evs & -> & Hmr & Hb & Hc & Tw & I1 & I2).
  exists r, c, rest, (evs ++ [EvDraft published; EvAudit "create"; EvCacheClear])%list.
  repeat split.
  - now rewrite Mc, Ma, Hm.
  - assumption.
  - now rewrite Hc.
  - rewrite Tc, Ta, Ht, Tw. now rewrite <- !app_assoc.
  - rewrite in_app_iff. tauto.
  - rewrite in_app_iff. tauto.
  - rewrite in_app_iff. simpl. tauto.
Qed.

Section WithCollaborators.
Context `{Collaborators}.

(** The image of a create intent, as the handler resolves it. *)
Definition image_of (a : action_data) (conv : nat)
  : option string * option string :=
  resolve_image (a_type a) (slug_of a) conv (a_images a).

(** A create intent passed the duplicate-slug check (which took the world
    from [w] to [w1]), the permission check and validation. *)
Definition passes_checks (a : action_data) (p : UserProfile)
    (w w1 : World) (md : string) : Prop :=
  check_slug_exists (a_type a) (slug_of a) w = (Ok false, w1) /\
  can_create p (a_type a) (group_of a) = true /\
  generate_markdown (a_type a) (a_fm a) (body_of a) = (Some md, []).

Lemma generated_has_path (content_type slug : string) (fm : dict)
    (body md : string) :
  generate_markdown content_type fm body = (Some md, []) ->
  get_file_path content_type slug = Some (file_path_of content_type slug).
Proof.
  unfold generate_markdown, file_path_of, get_file_path.
  destruct (get_schema content_type); [reflexivity | discriminate].
Qed.

(** After the checks the handler is its publish-or-pending tail. *)
Lemma create_after_checks (a : action_data) (p : UserProfile) (conv : nat)
    (u : User) (w w1 : World) (md : string) :
  passes_checks a p w w1 md ->
  _handle_content_action a p conv u w
  = (if can_publish_directly p (a_type a) (group_of a)
     then try_except
            (publish_attempt conv u (a_type a) (title_of (a_fm a)) (slug_of a)
               (a_fm a) (body_of a) (file_path_of (a_type a) (slug_of a)) md
               (fst (image_of a conv)) (snd (image_of a conv)))
            (fun _ => save_pending conv u (a_type a) (title_of (a_fm a))
                        (slug_of a) (a_fm a) (body_of a)
                        (fst (image_of a conv)) (snd (image_of a conv)))
     else save_pending conv u (a_type a) (title_of (a_fm a)) (slug_of a)
            (a_fm a) (body_of a)
            (fst (image_of a conv)) (snd (image_of a conv))) w1.
Proof.
  intros (Hdup & Hcreate & Hgen).
  unfold _handle_content_action.
  fold (slug_of a) (group_of a) (body_of a).
  rewrite (bind_ok _ _ _ _ _ Hdup). cbv iota.
  rewrite Hcreate. cbn [negb]. rewrite Hgen.
  fold (image_of a conv).
  destruct (image_of a conv) as [image_bytes image_repo_path].
  rewrite (generated_has_path _ _ _ _ _ Hgen).
  reflexivity.
Qed.

(** The pending branch: one record, nothing else. *)
Lemma save_pending_accepted (a : action_data) (conv : nat) (u : User)
    (ib ip : option string) (w : World) :
  accepts w = true ->
  exists w',
    save_pending conv u (a_type a) (title_of (a_fm a)) (slug_of a) (a_fm a)
      (body_of a) ib ip w
    = (Ok (RDraftPending (next_id w)), w') /\
    drafts w' = pending_draft_of a conv u ib ip (next_id w) :: drafts w /\
    audit w' = audit w /\
    mirror w' = mirror w /\
    trace w' = (trace w ++ [EvDraft pending])%list.
Proof.
  intros Hacc. unfold accepts in Hacc.
  destruct w as [dbg mir rem out dr au lc rc tr sc nid ck]; simpl in *.
  destruct sc as [| [] sc]; try discriminate Hacc;
    eexists; cbv -[app title_of slug_of body_of or_empty];
    repeat split; reflexivity.
Qed.

Lemma check_refreshes content_type slug (w w1 : World) (r : res bool) :
  check_slug_exists content_type slug w = (r, w1) -> refreshes w w1.
Proof.
  intros E. pose proof (check_slug_exists_refreshes content_type slug w) as K.
  now rewrite E in K.
Qed.

Lemma check_ready content_type slug (w w1 : World) (r : res bool) :
  check_slug_exists content_type slug w = (r, w1) -> stays_ready w w1.
Proof.
  intros E. pose proof (check_slug_exists_stays_ready content_type slug w) as K.
  now rewrite E in K.
Qed.

(** The pending branch of the create handler. *)
Lemma pending_branch (a : action_data) (p : UserProfile) (conv : nat)
    (u : User) (w w1 : World) (md : string) :
  passes_checks a p w w1 md ->
  can_publish_directly p (a_type a) (group_of a) = false ->
  accepts w1 = true ->
  exists w2 evs,
    _handle_content_action a p conv u w = (Ok (RDraftPending (next_id w)), w2) /\
    drafts w2 = pending_draft_of a conv u (fst (image_of a conv))
                  (snd (image_of a conv)) (next_id w) :: drafts w /\
    audit w2 = audit w /\
    added w w2 evs /\ no_publication evs.
Proof.
  intros Hc Hp Hacc.
  rewrite (create_after_checks a p conv u w w1 md Hc), Hp.
  destruct Hc as (Hdup & _ & _).
  apply check_refreshes in Hdup.
  destruct Hdup as ([evs [Ht Hf]] & Hd & Ha & _ & Hn & _).
  destruct (save_pending_accepted a conv u (fst (image_of a conv))
              (snd (image_of a conv)) w1 Hacc)
    as (w2 & Hs & Hd2 & Ha2 & _ & Ht2).
  exists w2, (evs ++ [EvDraft pending])%list.
  rewrite Hs, Hd2, Ha2, Hn, Hd, Ha.
  split; [reflexivity |]. split; [reflexivity |]. split; [reflexivity |].
  split.
  - unfold added. now rewrite Ht2, Ht, app_assoc.
  - apply no_publication_app; [now apply sync_events_no_publication |].
    unfold no_publication. simpl.
    repeat split; try (intros [E | []]; discriminate E).
    + intros e [<- | []]. simpl. tauto.
    + intros q [E | []]; discriminate E.
Qed.

(** The publish branch of the create handler, when the attempt returns. *)
Lemma publish_branch (a : action_data) (p : UserProfile) (conv : nat)
    (u : User) (w w1 w2 : World) (md : string) (r : action_result) :
  passes_checks a p w w1 md ->
  can_publish_directly p (a_type a) (group_of a) = true ->
  publish_attempt conv u (a_type a) (title_of (a_fm a)) (slug_of a) (a_fm a)
    (body_of a) (file_path_of (a_type a) (slug_of a)) md
    (fst (image_of a conv)) (snd (image_of a conv)) w1 = (Ok r, w2) ->
  _handle_content_action a p conv u w
  = (Ok (RContentCreated (title_of (a_fm a)) (a_type a)), w2) /\
  exists d,
    drafts w2 = d :: drafts w /\
    d_status d = published /\ d_frontmatter_json d = a_fm a /\
    d_body_markdown d = body_of a /\
    (DEBUG w = false ->
     exists rp c rest evs,
       mirror w2 = Some rp /\ branch rp = c :: rest /\
       d_git_commit_sha d = hexsha (c_id c) /\
       added w w2 evs /\
       In (EvWrite (file_path_of (a_type a) (slug_of a)) md) evs /\
       In (EvGit Commit) evs).
Proof.
  intros Hc Hp Hrun.
  rewrite (create_after_checks a p conv u w w1 md Hc), Hp.
  unfold try_except. rewrite Hrun.
  destruct Hc as (Hdup & _ & _).
  apply check_refreshes in Hdup.
  destruct Hdup as ([e0 [Ht _]] & Hd & _ & Hdbg & _).
  apply publish_attempt_ok in Hrun.
  destruct Hrun as (-> & d & Hds & Hst & Hfm & Hb & _ & _ & Hprod).
  split; [reflexivity |].
  exists d. rewrite Hds, Hd. repeat split; try assumption.
  intros Hw. rewrite <- Hdbg in Hw.
  destruct (Hprod Hw) as (rp & c & rest & evs & Hm & Hbr & Hsha & Htr & I1 & I2 & _).
  exists rp, c, rest, (e0 ++ evs)%list. repeat split; try assumption.
  - unfold added. now rewrite Htr, Ht, app_assoc.
  - rewrite in_app_iff. tauto.
  - rewrite in_app_iff. tauto.
Qed.

(** The publish branch in production, when nothing fails: it returns. *)
Lemma publish_branch_returns (a : action_data) (p : UserProfile) (conv : nat)
    (u : User) (w w1 : World) (md : string) :
  passes_checks a p w w1 md ->
  can_publish_directly p (a_type a) (group_of a) = true ->
  DEBUG w = false -> cooperative w -> healthy w ->
  exists w2 d rp c rest evs,
    _handle_content_action a p conv u w
    = (Ok (RContentCreated (title_of (a_fm a)) (a_type a)), w2) /\
    drafts w2 = d :: drafts w /\
    d_status d = published /\ d_frontmatter_json d = a_fm a /\
    d_body_markdown d = body_of a /\
    mirror w2 = Some rp /\ branch rp = c :: rest /\
    d_git_commit_sha d = hexsha (c_id c) /\
    added w w2 evs /\
    In (EvWrite (file_path_of (a_type a) (slug_of a)) md) evs /\
    In (EvGit Commit) evs.
Proof.
  intros Hc Hp Hdbg Hs Hh.
  pose proof Hc as (Hdup & _ & _).
  apply check_ready in Hdup. destruct Hdup as (S1 & H1 & D1).
  destruct (publish_attempt_returns conv u (a_type a) (title_of (a_fm a))
              (slug_of a) (a_fm a) (body_of a)
              (file_path_of (a_type a) (slug_of a)) md
              (fst (image_of a conv)) (snd (image_of a conv)) w1)
    as (r & w2 & Hrun); auto; try congruence.
  destruct (publish_branch a p conv u w w1 w2 md r Hc Hp Hrun)
    as (Hr & d & Hd & Hst & Hfm & Hb & Hprod).
  destruct (Hprod Hdbg) as (rp & c & rest & evs & Hm & Hbr & Hsha & Hadd & I1 & I2).
  exists w2, d, rp, c, rest, evs. repeat split; assumption.
Qed.

(** C6.  A create intent whose (content type, slug) resolves to an
    existing content file gets the duplicate-slug error, and produces no
    file write, no commit, no draft record and no audit entry: all the
    handler did is the lookup, which may refresh the mirror. *)
Theorem duplicate_slug_rejected (a : action_data) (p : UserProfile)
    (conv : nat) (u : User) (w w1 : World) :
  check_slug_exists (a_type a) (slug_of a) w = (Ok true, w1) ->
  _handle_content_action a p conv u w
  = (Ok (RError (DuplicateSlug (slug_of a))), w1) /\
  drafts w1 = drafts w /\ audit w1 = audit w /\
  exists evs, added w w1 evs /\ no_publication evs /\ no_record evs.
Proof.
  intros Hdup. split.
  - unfold _handle_content_action. fold (slug_of a).
    now rewrite (bind_ok _ _ _ _ _ Hdup).
  - apply check_refreshes in Hdup.
    destruct Hdup as ([evs [Ht Hf]] & Hd & Ha & _).
    repeat split; try assumption.
    exists evs. repeat split; try assumption;
      try (now apply sync_events_no_publication);
      now apply sync_events_no_record.
Qed.

(** C1.  A create intent passed the checks and its actor can publish
    directly.  If the publish attempt raises, at whatever step, and the
    database then takes the fallback record, the handler returns a
    draft_pending result and the newest draft is a pending one that holds
    the frontmatter, the body and the image of the intent. *)
Theorem publish_failure_keeps_work (a : action_data) (p : UserProfile)
    (conv : nat) (u : User) (w w1 w2 : World) (md : string) (e : exn) :
  passes_checks a p w w1 md ->
  can_publish_directly p (a_type a) (group_of a) = true ->
  publish_attempt conv u (a_type a) (title_of (a_fm a)) (slug_of a) (a_fm a)
    (body_of a) (file_path_of (a_type a) (slug_of a)) md
    (fst (image_of a conv)) (snd (image_of a conv)) w1 = (Raise e, w2) ->
  accepts w2 = true ->
  exists w3 d,
    _handle_content_action a p conv u w = (Ok (RDraftPending (d_id d)), w3) /\
    drafts w3 = d :: drafts w2 /\
    d_status d = pending /\
    d_frontmatter_json d = a_fm a /\
    d_body_markdown d = body_of a /\
    d_image_data d = fst (image_of a conv) /\
    d_image_path d = or_empty (snd (image_of a conv)).
Proof.
  intros Hc Hp Hrun Hacc.
  rewrite (create_after_checks a p conv u w w1 md Hc), Hp.
  unfold try_except. rewrite Hrun.
  destruct (save_pending_accepted a conv u (fst (image_of a conv))
              (snd (image_of a conv)) w2 Hacc)
    as (w3 & Hs & Hd & _).
  exists w3, (pending_draft_of a conv u (fst (image_of a conv))
                (snd (image_of a conv)) (next_id w2)).
  rewrite Hs, Hd. repeat split.
Qed.

(** C4.  A group lead of group [g] creates local content.  For another
    group the create is allowed and direct publish denied, so an intent
    that passes the slug check and validation becomes a pending draft and
    nothing is written or committed.  For the own group direct publish is
    allowed, and in production, when nothing fails, the handler publishes
    at once: the content is created, the file committed and the draft
    recorded as published. *)
Theorem group_lead_scoping (g : string) (a : action_data) (conv : nat)
    (u : User) :
  a_type a = "local_event" \/ a_type a = "local_news" ->
  let p := mkProfile group_lead g in
  (group_of a <> VStr g ->
     can_create p (a_type a) (group_of a) = true /\
     can_publish_directly p (a_type a) (group_of a) = false /\
     forall w w1 md,
       check_slug_exists (a_type a) (slug_of a) w = (Ok false, w1) ->
       generate_markdown (a_type a) (a_fm a) (body_of a) = (Some md, []) ->
       accepts w1 = true ->
       exists w2 d evs,
         _handle_content_action a p conv u w
         = (Ok (RDraftPending (d_id d)), w2) /\
         drafts w2 = d :: drafts w /\ d_status d = pending /\
         d_frontmatter_json d = a_fm a /\
         added w w2 evs /\ no_publication evs) /\
  (group_of a = VStr g ->
     can_publish_directly p (a_type a) (group_of a) = true /\
     forall w w1 md,
       check_slug_exists (a_type a) (slug_of a) w = (Ok false, w1) ->
       generate_markdown (a_type a) (a_fm a) (body_of a) = (Some md, []) ->
       DEBUG w = false -> cooperative w -> healthy w ->
       exists w2 d evs,
         _handle_content_action a p conv u w
         = (Ok (RContentCreated (title_of (a_fm a)) (a_type a)), w2) /\
         drafts w2 = d :: drafts w /\ d_status d = published /\
         d_frontmatter_json d = a_fm a /\
         added w w2 evs /\ In (EvGit Commit) evs).
Proof.
  intros Ht p.
  pose proof (group_lead_can_create g (a_type a) (group_of a) Ht) as Hcreate.
  pose proof (group_lead_publish_iff g (a_type a) (group_of a) Ht) as Hpub.
  split.
  - intros Hne.
    assert (Hno : can_publish_directly p (a_type a) (group_of a) = false).
    { destruct (can_publish_directly p (a_type a) (group_of a)) eqn:E;
        [| reflexivity].
      exfalso. apply Hne. now apply Hpub. }
    repeat split; try assumption.
    intros w w1 md Hdup Hgen Hacc.
    destruct (pending_branch a p conv u w w1 md) as (w2 & evs & Hr & Hd & _ & Ha & Hn);
      try assumption.
    { repeat split; assumption. }
    exists w2, (pending_draft_of a conv u (fst (image_of a conv))
                  (snd (image_of a conv)) (next_id w)), evs.
    repeat split; try assumption; apply Hn.
  - intros He.
    assert (Hyes : can_publish_directly p (a_type a) (group_of a) = true)
      by now apply Hpub.
    split; [assumption |].
    intros w w1 md Hdup Hgen Hdbg Hs Hh.
    destruct (publish_branch_returns a p conv u w w1 md)
      as (w2 & d & rp & c & rest & evs & Hr & Hd & Hst & Hfm & _ & _ & _ & _
          & Hadd & _ & Hin); try assumption.
    { repeat split; assumption. }
    exists w2, d, evs. repeat split; assumption.
Qed.

(** C5.  A create intent passed the duplicate-slug, permission and
    validation checks.  For a contributor, once the database takes the
    record, the outcome is a pending draft, with no file written and no
    commit.  For an editor in production, when nothing fails, the handler
    writes the content file, commits at once and records a published
    draft that carries the sha of the commit now at the head of the local
    branch. *)
Theorem publish_rights_gating (a : action_data) (p : UserProfile)
    (conv : nat) (u : User) (w w1 : World) (md : string) :
  passes_checks a p w w1 md ->
  (profile_role p = contributor ->
     accepts w1 = true ->
     exists w2 d evs,
       _handle_content_action a p conv u w
       = (Ok (RDraftPending (d_id d)), w2) /\
       drafts w2 = d :: drafts w /\ d_status d = pending /\
       added w w2 evs /\ no_publication evs) /\
  (profile_role p = editor ->
     DEBUG w = false -> cooperative w -> healthy w ->
     exists w2 d rp c rest evs,
       _handle_content_action a p conv u w
       = (Ok (RContentCreated (title_of (a_fm a)) (a_type a)), w2) /\
       drafts w2 = d :: drafts w /\ d_status d = published /\
       mirror w2 = Some rp /\ branch rp = c :: rest /\
       d_git_commit_sha d = hexsha (c_id c) /\
       added w w2 evs /\ In (EvGit Commit) evs).
Proof.
  intros Hc. split.
  - intros Hrole Hacc.
    assert (Hno : can_publish_directly p (a_type a) (group_of a) = false).
    { unfold can_publish_directly. now rewrite Hrole. }
    destruct (pending_branch a p conv u w w1 md Hc Hno Hacc)
      as (w2 & evs & Hr & Hd & _ & Ha & Hn).
    exists w2, (pending_draft_of a conv u (fst (image_of a conv))
                  (snd (image_of a conv)) (next_id w)), evs.
    repeat split; try assumption; apply Hn.
  - intros Hrole Hdbg Hs Hh.
    assert (Hyes : can_publish_directly p (a_type a) (group_of a) = true).
    { destruct Hc as (_ & Hcreate & _).
      unfold can_publish_directly, can_create in *.
      now rewrite Hrole in *. }
    destruct (publish_branch_returns a p conv u w w1 md Hc Hyes Hdbg Hs Hh)
      as (w2 & d & rp & c & rest & evs & Hr & Hd & Hst & _ & _ & Hm & Hb
          & Hsha & Hadd & _ & Hin).
    exists w2, d, rp, c, rest, evs. repeat split; assumption.
Qed.

(** What an edit attempt that returns has done. *)
Lemma edit_attempt_ok conv user content_type title slug fm body
    file_path markdown ib ip (w w' : World) (r : action_result) :
  edit_attempt conv user content_type title slug fm body file_path
    markdown ib ip w = (Ok r, w') ->
  r = RContentEdited title content_type /\
  exists d,
    drafts w' = d :: drafts w /\
    d_status d = published /\ d_frontmatter_json d = fm /\
    d_body_markdown d = body /\
    (DEBUG w = false ->
     exists evs,
       trace w' = (trace w ++ evs)%list /\
       In (EvWrite file_path markdown) evs /\ In (EvGit Commit) evs).
Proof.
  unfold edit_attempt. intros Hp.
  bind_inv Hp.
  pose proof (write_and_commit_keeps_db "Edit" content_type title user
                file_path markdown (image_to_write ib ip) w) as K.
  rewrite E in K. simpl in K. destruct K as (_ & Kd & _ & _).
  bind_inv Hp. apply create_draft_ok in E0.
  destruct E0 as (Hd & Hds & Hm & Ht).
  bind_inv Hp.
  destruct (log_audit_ok content_type slug "edit" user a "" w1)
    as (wa & Ea & Da & Ma & Ta).
  rewrite Ea in E0. injection E0 as _ <-.
  bind_inv Hp.
  destruct (invalidate_cache_ok wa) as (wc & Ec & Dc & Mc & Tc).
  rewrite Ec in E0. injection E0 as _ <-.
  injection Hp as <- <-.
  split; [reflexivity |].
  exists a0. rewrite Dc, Da, Hds, Kd. subst a0; simpl.
  repeat split.
  intros Hdbg.
  destruct (write_and_commit_ok _ _ _ _ _ _ _ _ _ _ E Hdbg)
    as (n & r & c & rest & evs & _ & _ & _ & _ & Tw & I1 & I2).
  exists (evs ++ [EvDraft published; EvAudit "edit"; EvCacheClear])%list.
  repeat split.
  - rewrite Tc, Ta, Ht, Tw. now rewrite <- !app_assoc.
  - rewrite in_app_iff. tauto.
  - rewrite in_app_iff. tauto.
Qed.

Lemma read_refreshes content_type slug (w w1 : World) (r : res (option content)) :
  read_content content_type slug w = (r, w1) -> refreshes w w1.
Proof.
  intros E. pose proof (read_content_refreshes content_type slug w) as K.
  now rewrite E in K.
Qed.

Lemma read_ready content_type slug (w w1 : World) (r : res (option content)) :
  read_content content_type slug w = (r, w1) -> stays_ready w w1.
Proof.
  intros E. pose proof (read_content_stays_ready content_type slug w) as K.
  now rewrite E in K.
Qed.


End WithCollaborators.

(** ** The theorems at work on the fixtures *)

(** The stages of a create run with no collaborator reachable. *)
Definition after_check (a : action_data) (w : World) : World :=
  snd (@check_slug_exists offline (a_type a) (slug_of a) w).

Definition md_of (a : action_data) : string :=
  match generate_markdown (a_type a) (a_fm a) (body_of a) with
  | (Some md, _) => md
  | _ => ""
  end.

Definition attempt (a : action_data) (conv : nat) (u : User) (w1 : World)
  : res action_result * World :=
  publish_attempt conv u (a_type a) (title_of (a_fm a)) (slug_of a) (a_fm a)
    (body_of a) (file_path_of (a_type a) (slug_of a)) (md_of a)
    (fst (@image_of offline a conv)) (snd (@image_of offline a conv)) w1.

Lemma duplicate_slug_rejected_witness :
  @_handle_content_action offline create_article an_editor 1 ann jobs_world
  = (Ok (RError (DuplicateSlug "jobs")), jobs_world) /\
  drafts jobs_world = [] /\ audit jobs_world = [].
Proof.
  assert (Hdup : @check_slug_exists offline (a_type create_article)
                   (slug_of create_article) jobs_world
                 = (Ok true, jobs_world)) by (vm_compute; reflexivity).
  destruct (@duplicate_slug_rejected offline create_article an_editor 1 ann
              jobs_world jobs_world Hdup) as (H1 & _).
  split; [exact H1 | split; reflexivity].
Defined.

Definition failing_world : World := with_script [Good; Fail] empty_world.

Lemma publish_failure_keeps_work_witness :
  exists w3 d,
    @_handle_content_action offline create_article an_editor 1 ann
      failing_world
    = (Ok (RDraftPending (d_id d)), w3) /\
    In d (drafts w3) /\ d_status d = pending /\
    d_frontmatter_json d = article_fm /\ d_body_markdown d = "Hello".
Proof.
  pose (w1 := after_check create_article failing_world).
  pose (w2 := snd (attempt create_article 1 ann w1)).
  assert (Hc : @passes_checks offline create_article an_editor failing_world
                 w1 (md_of create_article))
    by (repeat split; vm_compute; reflexivity).
  assert (Hp : can_publish_directly an_editor (a_type create_article)
                 (group_of create_article) = true) by reflexivity.
  assert (Hrun : attempt create_article 1 ann w1 = (Raise GitCommandError, w2))
    by (vm_compute; reflexivity).
  assert (Hacc : accepts w2 = true) by (vm_compute; reflexivity).
  destruct (@publish_failure_keeps_work offline create_article an_editor 1 ann
              failing_world w1 w2 (md_of create_article) GitCommandError
              Hc Hp Hrun Hacc)
    as (w3 & d & H1 & H2 & H3 & H4 & H5 & _).
  exists w3, d. repeat split; try assumption. rewrite H2. now left.
Defined.

Lemma empty_world_healthy : healthy empty_world.
Proof. intros r Hr. discriminate Hr. Qed.

Lemma group_lead_scoping_witness :
  (exists w2 d,
     @_handle_content_action offline (create_event "london") oxford_lead 1 ann
       empty_world = (Ok (RDraftPending (d_id d)), w2) /\
     d_status d = pending) /\
  (exists w2,
     @_handle_content_action offline (create_event "oxford") oxford_lead 1 ann
       empty_world
     = (Ok (RContentCreated (VStr "Meetup") "local_event"), w2)).
Proof.
  split.
  - pose (a := create_event "london").
    pose (w1 := after_check a empty_world).
    destruct (@group_lead_scoping offline "oxford" a 1 ann (or_introl eq_refl))
      as (Hother & _).
    destruct Hother as (_ & _ & Hrun); [discriminate |].
    destruct (Hrun empty_world w1 (md_of a))
      as (w2 & d & evs & H1 & _ & H3 & _);
      try (vm_compute; reflexivity).
    exists w2, d. split; assumption.
  - pose (a := create_event "oxford").
    pose (w1 := after_check a empty_world).
    destruct (@group_lead_scoping offline "oxford" a 1 ann (or_introl eq_refl))
      as (_ & Hown).
    destruct Hown as (_ & Hrun); [reflexivity |].
    destruct (Hrun empty_world w1 (md_of a))
      as (w2 & d & evs & H1 & _);
      try (vm_compute; reflexivity); try exact empty_world_healthy;
      try exact (Forall_nil _).
    exists w2. exact H1.
Defined.

Lemma publish_rights_gating_witness :
  (exists w2 d,
     @_handle_content_action offline create_article a_contributor 1 ann
       empty_world = (Ok (RDraftPending (d_id d)), w2) /\
     d_status d = pending) /\
  (exists w2 d,
     @_handle_content_action offline create_article an_editor 1 ann
       empty_world
     = (Ok (RContentCreated (VStr "Jobs") "article"), w2) /\
     drafts w2 = [d] /\ d_status d = published).
Proof.
  pose (a := create_article).
  pose (w1 := after_check a empty_world).
  split.
  - assert (Hc : @passes_checks offline a a_contributor empty_world w1 (md_of a))
      by (repeat split; vm_compute; reflexivity).
    destruct (@publish_rights_gating offline a a_contributor 1 ann
                empty_world w1 (md_of a) Hc) as (Hcontrib & _).
    destruct Hcontrib as (w2 & d & evs & H1 & _ & H3 & _);
      try (vm_compute; reflexivity).
    exists w2, d. split; assumption.
  - assert (Hc : @passes_checks offline a an_editor empty_world w1 (md_of a))
      by (repeat split; vm_compute; reflexivity).
    destruct (@publish_rights_gating offline a an_editor 1 ann
                empty_world w1 (md_of a) Hc) as (_ & He).
    destruct (He eq_refl eq_refl (Forall_nil _) empty_world_healthy)
      as (w2 & d & rp & c & rest & evs & H1 & H2 & H3 & _).
    exists w2, d. repeat split; [exact H1 | exact H2 | exact H3].
Defined.

Lemma jobs_world_healthy : healthy jobs_world.
Proof. intros r Hr. injection Hr as <-. reflexivity. Qed.


End HandlerProps.

(* ================================================================== *)
(** * Properties: slugs *)
(* ================================================================== *)

Module SlugProps.
Import Py PyX Schemas SchemasX.

Definition slug_char (c : ascii) : bool := is_slug_alnum c || Ascii.eqb c "-".

Fixpoint all_chars (P : ascii -> bool) (s : string) : bool :=
  match s with
  | EmptyString => true
  | String c r => P c && all_chars P r
  end.

Definition starts_dash (s : string) : bool :=
  match s with
  | String c _ => Ascii.eqb c "-"
  | EmptyString => false
  end.

Fixpoint ends_dash (s : string) : bool :=
  match s with
  | EmptyString => false
  | String c r =>
      match r with
      | EmptyString => Ascii.eqb c "-"
      | _ => ends_dash r
      end
  end.

Fixpoint no_double_dash (s : string) : bool :=
  match s with
  | EmptyString => true
  | String c r => negb (Ascii.eqb c "-" && starts_dash r) && no_double_dash r
  end.

(** The shape of a slug: lower-case letters, digits and single dashes, with
    no dash at either end. *)
Definition slug_shaped (s : string) : bool :=
  all_chars slug_char s && no_double_dash s
  && negb (starts_dash s) && negb (ends_dash s).

Lemma alnum_not_dash (c : ascii) :
  is_slug_alnum c = true -> Ascii.eqb c "-" = false.
Proof.
  destruct c as [[] [] [] [] [] [] [] []]; vm_compute; congruence.
Qed.

Lemma lower_slug_char (c : ascii) : slug_char c = true -> lower_char c = c.
Proof.
  destruct c as [[] [] [] [] [] [] [] []]; vm_compute; congruence.
Qed.

Lemma sub_chars (s : string) :
  forall b, all_chars slug_char (sub_non_alnum b s) = true.
Proof.
  induction s as [| c r IH]; intros b; simpl; [reflexivity |].
  destruct (is_slug_alnum c) eqn:E; simpl.
  - unfold slug_char at 1. rewrite E. simpl. apply IH.
  - destruct b; simpl; apply IH.
Qed.

Lemma sub_dashes (s : string) :
  forall b,
    no_double_dash (sub_non_alnum b s) = true /\
    (b = true -> starts_dash (sub_non_alnum b s) = false).
Proof.
  induction s as [| c r IH]; intros b; simpl; [now split |].
  destruct (is_slug_alnum c) eqn:E; simpl.
  - rewrite (alnum_not_dash c E). simpl. split; [apply IH | reflexivity].
  - destruct b; simpl.
    + apply IH.
    + destruct (IH true) as [I1 I2]. rewrite I2 by reflexivity.
      rewrite I1. split; [reflexivity | discriminate].
Qed.

(** ** Stripping *)

Lemma lstrip_char_chars P x (s : string) :
  all_chars P s = true -> all_chars P (lstrip_char x s) = true.
Proof.
  induction s as [| c r IH]; simpl; [auto |].
  intros Hs. apply andb_true_iff in Hs. destruct Hs as [Hc Hr].
  destruct (Ascii.eqb c x); [auto |]. simpl. now rewrite Hc, Hr.
Qed.

Lemma lstrip_char_dashes x (s : string) :
  no_double_dash s = true -> no_double_dash (lstrip_char x s) = true.
Proof.
  induction s as [| c r IH]; simpl; [auto |].
  intros Hs. apply andb_true_iff in Hs. destruct Hs as [Hc Hr].
  destruct (Ascii.eqb c x); [auto |]. simpl. now rewrite Hc, Hr.
Qed.

Lemma lstrip_char_start (s : string) : starts_dash (lstrip_char "-" s) = false.
Proof.
  induction s as [| c r IH]; simpl; [reflexivity |].
  destruct (Ascii.eqb c "-") eqn:E; [exact IH | simpl; exact E].
Qed.

Lemma rstrip_char_cons x c (r : string) :
  rstrip_char x (String c r) = EmptyString \/
  rstrip_char x (String c r) = String c (rstrip_char x r).
Proof.
  simpl. destruct (rstrip_char x r); [| now right].
  destruct (Ascii.eqb c x); [now left | now right].
Qed.

Lemma rstrip_char_chars P x (s : string) :
  all_chars P s = true -> all_chars P (rstrip_char x s) = true.
Proof.
  induction s as [| c r IH]; [auto |].
  intros Hs. simpl in Hs. apply andb_true_iff in Hs. destruct Hs as [Hc Hr].
  destruct (rstrip_char_cons x c r) as [-> | ->]; [reflexivity |].
  simpl. rewrite Hc. now apply IH.
Qed.

Lemma rstrip_char_start x (s : string) :
  starts_dash (rstrip_char x s) = true -> starts_dash s = true.
Proof.
  destruct s as [| c r]; [auto |].
  destruct (rstrip_char_cons x c r) as [-> | ->]; [discriminate | auto].
Qed.

Lemma rstrip_char_dashes x (s : string) :
  no_double_dash s = true -> no_double_dash (rstrip_char x s) = true.
Proof.
  induction s as [| c r IH]; [auto |].
  intros Hs. simpl in Hs. apply andb_true_iff in Hs. destruct Hs as [Hc Hr].
  destruct (rstrip_char_cons x c r) as [-> | ->]; [reflexivity |].
  simpl. rewrite (IH Hr), andb_true_r.
  destruct (Ascii.eqb c "-"); [| reflexivity]. simpl in *.
  destruct (starts_dash (rstrip_char x r)) eqn:E; [| reflexivity].
  apply rstrip_char_start in E. now rewrite E in Hc.
Qed.

Lemma rstrip_char_end (s : string) : ends_dash (rstrip_char "-" s) = false.
Proof.
  induction s as [| c r IH]; [reflexivity |].
  simpl. destruct (rstrip_char "-" r) as [| d r'] eqn:E.
  - destruct (Ascii.eqb c "-") eqn:Ec; simpl; [reflexivity | exact Ec].
  - exact IH.
Qed.

Lemma lstrip_char_id x (s : string) :
  match s with String c _ => Ascii.eqb c x = false | EmptyString => True end ->
  lstrip_char x s = s.
Proof. destruct s as [| c r]; simpl; [auto | now intros ->]. Qed.

Lemma rstrip_char_id (s : string) :
  ends_dash s = false -> rstrip_char "-" s = s.
Proof.
  induction s as [| c r IH]; [auto |].
  intros He. simpl in He. simpl.
  destruct r as [| d r'].
  - simpl. now rewrite He.
  - rewrite (IH He). reflexivity.
Qed.

(** ** The substitution on a string that is a slug already *)

Lemma lower_id (s : string) : all_chars slug_char s = true -> lower s = s.
Proof.
  induction s as [| c r IH]; simpl; [auto |].
  intros Hs. apply andb_true_iff in Hs. destruct Hs as [Hc Hr].
  now rewrite (lower_slug_char c Hc), (IH Hr).
Qed.

Lemma sub_id (s : string) :
  forall b,
    all_chars slug_char s = true -> no_double_dash s = true ->
    (b = true -> starts_dash s = false) ->
    sub_non_alnum b s = s.
Proof.
  induction s as [| c r IH]; intros b Hc Hd Hb; simpl; [reflexivity |].
  simpl in Hc, Hd.
  apply andb_true_iff in Hc. destruct Hc as [Hc Hr].
  apply andb_true_iff in Hd. destruct Hd as [Hd Hdr].
  destruct (is_slug_alnum c) eqn:E.
  - rewrite (IH false); auto. discriminate.
  - unfold slug_char in Hc. rewrite E in Hc. simpl in Hc.
    destruct b.
    + specialize (Hb eq_refl). simpl in Hb. congruence.
    + apply Ascii.eqb_eq in Hc. subst c.
      rewrite (IH true); auto.
      intros _. simpl in Hd. now apply negb_true_iff in Hd.
Qed.

Lemma slug_of_title_shaped (title : string) :
  slug_shaped (generate_slug title) = true.
Proof.
  unfold slug_shaped, generate_slug, strip_char.
  set (t := sub_non_alnum false (lower title)).
  assert (Hc : all_chars slug_char t = true) by apply sub_chars.
  assert (Hd : no_double_dash t = true) by apply sub_dashes.
  rewrite rstrip_char_chars by now apply lstrip_char_chars.
  rewrite rstrip_char_dashes by now apply lstrip_char_dashes.
  rewrite rstrip_char_end. simpl.
  destruct (starts_dash (rstrip_char "-" (lstrip_char "-" t))) eqn:E;
    [| reflexivity].
  apply rstrip_char_start in E. now rewrite lstrip_char_start in E.
Qed.

Lemma generate_slug_fixes_slugs (s : string) :
  slug_shaped s = true -> generate_slug s = s.
Proof.
  unfold slug_shaped. intros H.
  apply andb_true_iff in H. destruct H as [H He].
  apply andb_true_iff in H. destruct H as [H Hs].
  apply andb_true_iff in H. destruct H as [Hc Hd].
  apply negb_true_iff in He. apply negb_true_iff in Hs.
  unfold generate_slug, strip_char.
  rewrite (lower_id s Hc).
  rewrite (sub_id s false Hc Hd) by discriminate.
  rewrite lstrip_char_id.
  - now apply rstrip_char_id.
  - destruct s; [exact I | exact Hs].
Qed.

(** X1.  [generate_slug] gives a normal form.  Its result is always a
    URL-safe slug: only lower-case ASCII letters, digits and dashes, no two
    dashes in a row and no dash at either end (the empty slug included, for
    a title without letters or digits).  The strings it leaves as they are
    are exactly the ones of that shape, so the slug of a slug is the slug
    itself. *)
Theorem generate_slug_normal_form (title : string) :
  slug_shaped (generate_slug title) = true /\
  (generate_slug title = title <-> slug_shaped title = true) /\
  generate_slug (generate_slug title) = generate_slug title.
Proof.
  split; [apply slug_of_title_shaped |]. split.
  - split.
    + intros E. rewrite <- E. apply slug_of_title_shaped.
    + apply generate_slug_fixes_slugs.
  - apply generate_slug_fixes_slugs, slug_of_title_shaped.
Qed.

Example generate_slug_ex :
  generate_slug "  What is MMT?  (Part 2) " = "what-is-mmt-part-2".
Proof. reflexivity. Qed.

End SlugProps.

(* ================================================================== *)
(** * Properties: the capability order *)
(* ================================================================== *)

Module CapabilityProps.
Import Py Accounts Fixtures PolicyProps.

(** X2.  Whoever may publish a content type directly may create it: the
    create check of the handler never stops an actor the publish check
    would let through. *)
Theorem publish_implies_create (p : UserProfile) (t : string) (lg : value) :
  can_publish_directly p t lg = true -> can_create p t lg = true.
Proof.
  unfold can_publish_directly, can_create.
  destruct (profile_role p); try discriminate; auto.
  destruct (mem_str t local_types); auto.
Qed.

Lemma publish_implies_create_witness :
  can_create oxford_lead "local_event" (VStr "oxford") = true.
Proof. apply publish_implies_create. reflexivity. Defined.

(** X3.  The review capabilities are ordered: whoever may delete may
    approve and edit anything, and whoever may approve drafts of a content
    type for a group may edit content of that type and group. *)
Theorem capability_order (p : UserProfile) :
  (forall t lg t' lg',
     can_delete p t lg = true ->
     can_approve p t' lg' = true /\ can_edit p t' lg' = true) /\
  (forall t lg,
     can_approve p (Some t) lg = true -> can_edit p (Some t) lg = true).
Proof.
  unfold can_delete, can_approve, can_edit.
  destruct (profile_role p); split; intros; try discriminate; auto.
  destruct (truthy lg) eqn:Et; simpl in *; [| discriminate].
  destruct (value_eqb lg (VStr (local_group p))); [| discriminate].
  simpl in *. now rewrite H.
Qed.

(** A group lead edits local content of the own group, and of any group
    when the request names none. *)
Lemma group_lead_can_edit_iff (g t : string) (lg : value) :
  can_edit (mkProfile group_lead g) (Some t) lg = true <->
  (t = "local_event" \/ t = "local_news") /\
  (truthy lg = false \/ lg = VStr g).
Proof.
  unfold can_edit; cbn [profile_role local_group].
  rewrite <- mem_local_types.
  destruct (mem_str t local_types); [| split; [discriminate | intros [? _]; discriminate]].
  destruct (truthy lg).
  - rewrite value_eqb_str. split; [auto | intros [_ [? | ?]]; [discriminate | auto]].
  - split; auto.
Qed.

End CapabilityProps.

(* ================================================================== *)
(** * Properties: validation and defaults *)
(* ================================================================== *)

Module SchemaProps.
Import Py Schemas ContentService Fixtures MergeProps.

Lemma flat_map_nil {A B} (f : A -> list B) (l : list A) :
  flat_map f l = [] <-> forall x, In x l -> f x = [].
Proof.
  induction l as [| a l IH]; simpl.
  - split; [intros _ x [] | auto].
  - split.
    + intros E. apply app_eq_nil in E. destruct E as [Ea El].
      intros x [<- | Hx]; [exact Ea | now apply IH].
    + intros Hall. rewrite (Hall a) by now left. simpl.
      apply IH. intros x Hx. apply Hall. now right.
Qed.

(** X4.  [validate_frontmatter] accepts a record of a known content type
    exactly when every required field is present with a value other than
    [None] and [''], and every enum field the record holds has one of the
    field's options as its value. *)
Theorem validate_frontmatter_accepts_iff (T : string) (sc : schema) (F : dict) :
  get_schema T = Some sc ->
  fst (validate_frontmatter T F) = true <->
  (forall f, In f (required_fields sc) ->
     exists v, get F f = Some v /\ none_or_empty v = false) /\
  (forall k v fd opts,
     In (k, v) F -> lookup (fields sc) k = Some fd ->
     f_type fd = TEnum -> f_options fd = Some opts ->
     in_options v opts = true).
Proof.
  intros Hsc. unfold validate_frontmatter. rewrite Hsc. cbn [fst].
  assert (Hnil : forall l : list verror,
            match l with [] => true | _ => false end = true <-> l = []).
  { intros [| x l]; split; congruence. }
  rewrite Hnil. split.
  - intros E. apply app_eq_nil in E. destruct E as [Em Eo].
    unfold missing_errors in Em. unfold option_errors in Eo.
    rewrite flat_map_nil in Em. rewrite flat_map_nil in Eo.
    split.
    + intros f Hf. specialize (Em f Hf).
      destruct (get F f) as [v |]; [| discriminate].
      exists v. split; [reflexivity |].
      destruct (none_or_empty v); [discriminate | reflexivity].
    + intros k v fd opts Hin Hl Ht Ho.
      specialize (Eo (k, v) Hin). cbv beta iota in Eo.
      rewrite Hl, Ht, Ho in Eo.
      destruct (in_options v opts); [reflexivity | discriminate].
  - intros [Hreq Hopt].
    assert (Em : missing_errors (required_fields sc) F = []).
    { unfold missing_errors. apply flat_map_nil. intros f Hf.
      destruct (Hreq f Hf) as (v & -> & ->). reflexivity. }
    assert (Eo : option_errors (fields sc) F = []).
    { unfold option_errors. apply flat_map_nil. intros [k v] Hin.
      destruct (lookup (fields sc) k) as [fd |] eqn:Hl; [| reflexivity].
      destruct (f_type fd) eqn:Ht; try reflexivity.
      destruct (f_options fd) as [opts |] eqn:Ho; [| reflexivity].
      now rewrite (Hopt k v fd opts Hin Hl Ht Ho). }
    now rewrite Em, Eo.
Qed.

Lemma validate_frontmatter_accepts_iff_witness :
  fst (validate_frontmatter "article" article_fm) = true <->
  (forall f, In f (required_fields article_schema) ->
     exists v, get article_fm f = Some v /\ none_or_empty v = false) /\
  (forall k v fd opts,
     In (k, v) article_fm -> lookup (fields article_schema) k = Some fd ->
     f_type fd = TEnum -> f_options fd = Some opts ->
     in_options v opts = true).
Proof.
  apply (validate_frontmatter_accepts_iff "article" article_schema article_fm).
  reflexivity.
Defined.

(** ** Defaults *)

Lemma contains_true (d : dict) (k : string) :
  contains d k = true <-> get d k <> None.
Proof. unfold contains. destruct (get d k); split; congruence. Qed.

Lemma contains_set (d : dict) (k k' : string) (v : value) :
  contains d k' = true -> contains (set d k v) k' = true.
Proof.
  rewrite !contains_true. intros Hk.
  destruct (string_dec k' k) as [-> | Hne].
  - rewrite get_set_same. discriminate.
  - now rewrite get_set_other.
Qed.

Lemma contains_set_same (d : dict) (k : string) (v : value) :
  contains (set d k v) k = true.
Proof. apply contains_true. rewrite get_set_same. discriminate. Qed.

(** A default never replaces a value that is there. *)
Lemma get_add_default (d : dict) (fld : string * field_def) (k : string)
    (v : value) :
  get d k = Some v -> get (add_default d fld) k = Some v.
Proof.
  intros Hk. unfold add_default.
  destruct (f_default (snd fld)) as [dv |]; [| exact Hk].
  destruct (contains d (fst fld)) eqn:Ec; [exact Hk |].
  rewrite get_set_other; [exact Hk |].
  intros ->. unfold contains in Ec. now rewrite Hk in Ec.
Qed.

Lemma get_fold_defaults (flds : list (string * field_def)) :
  forall (d : dict) (k : string) (v : value),
    get d k = Some v -> get (fold_left add_default flds d) k = Some v.
Proof.
  induction flds as [| fld flds IH]; intros d k v Hk; simpl; [exact Hk |].
  apply IH. now apply get_add_default.
Qed.

Lemma contains_fold_defaults (flds : list (string * field_def)) (d : dict)
    (k : string) :
  contains d k = true -> contains (fold_left add_default flds d) k = true.
Proof.
  unfold contains. destruct (get d k) as [v |] eqn:E; [| discriminate].
  intros _. now rewrite (get_fold_defaults flds d k v E).
Qed.

(** After the loop every field with a default has a value. *)
Lemma fold_defaults_complete (flds : list (string * field_def)) :
  forall (d : dict) (fld : string * field_def),
    In fld flds -> f_default (snd fld) <> None ->
    contains (fold_left add_default flds d) (fst fld) = true.
Proof.
  induction flds as [| f0 flds IH]; intros d fld Hin Hd; [destruct Hin |].
  simpl. destruct Hin as [<- | Hin]; [| now apply IH].
  apply contains_fold_defaults.
  unfold add_default. destruct (f_default (snd f0)) as [dv |]; [| congruence].
  destruct (contains d (fst f0)) eqn:Ec; [exact Ec | apply contains_set_same].
Qed.

(** The loop changes nothing when every field with a default has a value. *)
Lemma fold_defaults_fixed (flds : list (string * field_def)) (d : dict) :
  (forall fld, In fld flds -> f_default (snd fld) <> None ->
     contains d (fst fld) = true) ->
  fold_left add_default flds d = d.
Proof.
  induction flds as [| f0 flds IH]; intros Hall; simpl; [reflexivity |].
  assert (E0 : add_default d f0 = d).
  { unfold add_default. destruct (f_default (snd f0)) as [dv |] eqn:Ed;
      [| reflexivity].
    rewrite (Hall f0); [reflexivity | now left | congruence]. }
  rewrite E0. apply IH. intros fld Hin. apply Hall. now right.
Qed.

Lemma auto_layout_truthy (c : value) : truthy (VStr (auto_layout c)) = true.
Proof.
  unfold auto_layout.
  destruct (_ || _); [reflexivity |]. destruct (value_eqb _ _); reflexivity.
Qed.

(** X5.  [apply_defaults] keeps every value the caller supplied, the one
    exception being a falsy [layout], which the article rule replaces. *)
Theorem apply_defaults_keeps_supplied (T : string) (F : dict) (k : string)
    (v : value) :
  get F k = Some v ->
  (k = "layout" -> truthy v = true) ->
  get (apply_defaults T F) k = Some v.
Proof.
  intros Hk Hlay. unfold apply_defaults.
  destruct (get_schema T) as [sc |]; [| exact Hk].
  pose proof (get_fold_defaults (fields sc) F k v Hk) as Hr.
  destruct (String.eqb T "article" && contains _ "category"); [| exact Hr].
  destruct (string_dec k "layout") as [-> | Hne].
  - unfold contains, get_default. rewrite Hk, (Hlay eq_refl). exact Hr.
  - destruct (_ || _); [| exact Hr]. now rewrite get_set_other.
Qed.

Lemma apply_defaults_keeps_supplied_witness :
  get (apply_defaults "article" article_fm) "author" = Some (VStr "Ann").
Proof.
  apply apply_defaults_keeps_supplied; [reflexivity | discriminate].
Defined.

(** X6.  [apply_defaults] is idempotent: applying the defaults to a record
    that has them changes nothing. *)
Theorem apply_defaults_idempotent (T : string) (F : dict) :
  apply_defaults T (apply_defaults T F) = apply_defaults T F.
Proof.
  unfold apply_defaults.
  destruct (get_schema T) as [sc |] eqn:Hsc; [| reflexivity].
  set (D := fold_left add_default (fields sc) F).
  assert (HD : fold_left add_default (fields sc) D = D).
  { apply fold_defaults_fixed. intros fld Hin Hd.
    now apply fold_defaults_complete. }
  destruct (String.eqb T "article" && contains D "category") eqn:Ecat.
  - destruct (negb (contains F "layout")
              || negb (truthy (get_default F "layout" VNone))) eqn:Elay.
    + set (L := VStr (auto_layout (get_default D "category" VNone))).
      assert (HS : fold_left add_default (fields sc) (set D "layout" L)
                   = set D "layout" L).
      { apply fold_defaults_fixed. intros fld Hin Hd.
        apply contains_set. now apply fold_defaults_complete. }
      rewrite HS.
      apply andb_true_iff in Ecat. destruct Ecat as [Et Ec].
      rewrite Et, (contains_set D "layout" "category" L Ec). cbn [andb].
      rewrite contains_set_same. unfold get_default at 1.
      rewrite get_set_same. unfold L at 1. rewrite auto_layout_truthy.
      reflexivity.
    + rewrite HD, Ecat.
      apply orb_false_iff in Elay. destruct Elay as [E1 E2].
      apply negb_false_iff in E1. apply negb_false_iff in E2.
      unfold contains in E1. unfold get_default in E2.
      destruct (get F "layout") as [lv |] eqn:El; [| discriminate].
      pose proof (get_fold_defaults (fields sc) F "layout" lv El) as Hl.
      fold D in Hl. unfold contains, get_default. rewrite Hl, E2.
      reflexivity.
  - now rewrite HD, Ecat.
Qed.

(** X7.  [generate_markdown] answers with the markdown text or with a
    non-empty error list, never with both and never with neither; an
    unknown content type is one error. *)
Theorem generate_markdown_result (T : string) (F : dict) (B : string) :
  (exists md, generate_markdown T F B = (Some md, [])) \/
  (exists e errors, generate_markdown T F B = (None, e :: errors) /\
     (get_schema T = None -> e = UnknownContentType T /\ errors = [])).
Proof.
  unfold generate_markdown, validate_frontmatter.
  destruct (get_schema T) as [sc |] eqn:Hsc.
  - destruct (missing_errors _ _ ++ option_errors _ _)%list as [| e errors];
      cbn [negb].
    + left. eauto.
    + right. exists e, errors. split; [reflexivity | discriminate].
  - right. exists (UnknownContentType T), []. auto.
Qed.

End SchemaProps.

(* ================================================================== *)
(** * Properties: content paths *)
(* ================================================================== *)

Module PathProps.
Import Py Schemas ContentService Fixtures.


Lemma append_length (a b : string) :
  String.length (a ++ b) = String.length a + String.length b.
Proof. induction a as [| c a IH]; simpl; [reflexivity | now rewrite IH]. Qed.





End PathProps.

(* ================================================================== *)
(** * Properties: reading back a generated file *)
(* ================================================================== *)

Module RoundTripProps.
Import Py Schemas ContentService ContentReader Fixtures.

(** The lines of a block, each closed by a newline. *)
Fixpoint lines (l : list string) : string :=
  match l with
  | [] => ""
  | x :: r => x ++ nl ++ lines r
  end.

(** The frontmatter lines that [generate_markdown] emits for a record. *)
Definition field_lines (sc : schema) (T : string) (F : dict) : list string :=
  flat_map (field_line (apply_defaults T F)) (fields sc).

Definition marker : string := "---".

(** No line holds the frontmatter marker. *)
Definition marker_free (l : list string) : bool :=
  forallb (fun x => match find x marker 0 with None => true | Some _ => false end) l.

Lemma append_assoc (a b c : string) : (a ++ b) ++ c = a ++ b ++ c.
Proof. induction a as [| x a IH]; simpl; [reflexivity | now rewrite IH]. Qed.

Lemma join_app (l rest : list string) :
  rest <> [] -> join nl (l ++ rest) = lines l ++ join nl rest.
Proof.
  intros Hr. induction l as [| x l IH]; [reflexivity |].
  change (join nl ((x :: l) ++ rest))
    with (String.concat nl (x :: (l ++ rest))).
  cbn [String.concat].
  destruct (l ++ rest)%list as [| y t] eqn:E.
  - destruct l; [now destruct rest | discriminate E].
  - unfold join in IH. rewrite IH. cbn [lines].
    now rewrite !append_assoc.
Qed.

(** ** The search for the closing marker *)

Lemma prefix_cons (x c : ascii) (p s : string) :
  String.prefix (String x p) (String c s) = Ascii.eqb x c && String.prefix p s.
Proof.
  cbn -[ascii_dec]. destruct (ascii_dec x c) as [-> | Hne].
  - now rewrite Ascii.eqb_refl.
  - apply Ascii.eqb_neq in Hne. now rewrite Hne.
Qed.

Lemma prefix_nil (s : string) : String.prefix "" s = true.
Proof. now destruct s. Qed.

Lemma prefix_marker_stop (a b : string) :
  String.prefix marker a = false ->
  String.prefix marker (a ++ nl ++ b) = false.
Proof.
  unfold marker, nl.
  destruct a as [| c [| d [| e a]]]; cbn [append];
    rewrite ?prefix_cons, ?prefix_nil;
    change (Ascii.eqb "-" "010") with false;
    intros Hp; rewrite ?andb_false_r; try reflexivity; exact Hp.
Qed.

Lemma index_cons (c : ascii) (s : string) :
  String.index 0 marker (String c s)
  = if String.prefix marker (String c s) then Some 0
    else option_map S (String.index 0 marker s).
Proof.
  cbn [String.index].
  destruct (String.prefix marker (String c s)); [reflexivity |].
  destruct (String.index 0 marker s); reflexivity.
Qed.

Lemma index_at_marker (t : string) :
  String.index 0 marker (marker ++ t) = Some 0.
Proof.
  unfold marker at 2. cbn [append]. rewrite index_cons.
  unfold marker. now rewrite !prefix_cons, prefix_nil.
Qed.

Lemma index_skip_marker (s : string) :
  String.index 3 marker (marker ++ s)
  = option_map (fun n => 3 + n) (String.index 0 marker s).
Proof.
  unfold marker at 2. cbn [append String.index].
  destruct (String.index 0 marker s); reflexivity.
Qed.

(** A line without the marker postpones the first marker by its length. *)
Lemma index_after_line (a b : string) :
  String.index 0 marker a = None ->
  String.index 0 marker (a ++ nl ++ b)
  = option_map (fun n => S (String.length a + n)) (String.index 0 marker b).
Proof.
  induction a as [| c a IH]; intros Ha.
  - change ("" ++ nl ++ b) with (String "010" b). rewrite index_cons.
    unfold marker at 1. rewrite prefix_cons.
    change (Ascii.eqb "-" "010") with false. cbn [andb].
    destruct (String.index 0 marker b); reflexivity.
  - rewrite index_cons in Ha.
    destruct (String.prefix marker (String c a)) eqn:Hp; [discriminate |].
    destruct (String.index 0 marker a) eqn:Hi; [discriminate |].
    pose proof (prefix_marker_stop (String c a) b Hp) as Hq.
    change ((String c a) ++ nl ++ b) with (String c (a ++ nl ++ b)) in *.
    rewrite index_cons, Hq, (IH eq_refl).
    destruct (String.index 0 marker b); reflexivity.
Qed.

Lemma index_lines (l : list string) (t : string) :
  marker_free l = true ->
  String.index 0 marker (lines l ++ marker ++ t)
  = Some (String.length (lines l)).
Proof.
  induction l as [| x l IH]; intros Hf.
  - apply index_at_marker.
  - cbn [marker_free forallb] in Hf. apply andb_true_iff in Hf.
    destruct Hf as [Hx Hl]. unfold find in Hx.
    destruct (String.index 0 marker x) eqn:Ex; [discriminate |].
    cbn [lines]. rewrite !append_assoc.
    rewrite (index_after_line x _ Ex), (IH Hl). cbn [option_map].
    rewrite !PathProps.append_length. change (String.length nl) with 1.
    f_equal. lia.
Qed.

Lemma take_app (a b : string) : take (String.length a) (a ++ b) = a.
Proof. induction a as [| c a IH]; simpl; [now destruct b | now rewrite IH]. Qed.

Lemma drop_app (a b : string) : drop (String.length a) (a ++ b) = b.
Proof. induction a as [| c a IH]; simpl; [reflexivity | exact IH]. Qed.

(** ** Stripping the newlines around the body *)

Lemma rstrip_app_nl (s : string) : rstrip (s ++ nl) = rstrip s.
Proof.
  induction s as [| c s IH]; [reflexivity |].
  change ((String c s) ++ nl) with (String c (s ++ nl)).
  cbn [rstrip]. now rewrite IH.
Qed.

Lemma strip_app_nl (s : string) : strip (s ++ nl) = strip s.
Proof.
  unfold strip. induction s as [| c s IH]; [reflexivity |].
  change ((String c s) ++ nl) with (String c (s ++ nl)).
  cbn [lstrip]. destruct (is_space c); [exact IH |].
  change (String c (s ++ nl)) with ((String c s) ++ nl).
  apply rstrip_app_nl.
Qed.

Lemma strip_nl (s : string) : strip (nl ++ s) = strip s.
Proof. reflexivity. Qed.

Lemma body_after_marker (B : string) :
  strip (nl ++ join nl ("" :: body_lines B)) = strip B.
Proof.
  rewrite strip_nl. unfold body_lines.
  destruct (String.eqb_spec B "") as [-> | Hne]; [reflexivity |].
  destruct (endswith B nl).
  - change (join nl [""; B]) with (nl ++ B). apply strip_nl.
  - change (join nl [""; B; ""]) with (nl ++ (B ++ nl)).
    rewrite strip_nl. apply strip_app_nl.
Qed.

Section WithCollaborators.
Context `{Collaborators}.

(** X9.  When no frontmatter line that [generate_markdown] emits holds
    three dashes in a row, [_parse_frontmatter] finds the closing marker
    of the generated file: it hands the YAML reader exactly the emitted
    lines, and when that reader answers with a mapping the body it returns
    is the body that was written, stripped. *)
Theorem parse_generated (T : string) (sc : schema) (F : dict) (B md : string) :
  get_schema T = Some sc ->
  generate_markdown T F B = (Some md, []) ->
  marker_free (field_lines sc T F) = true ->
  _parse_frontmatter md
  = match yaml_safe_load (strip (lines (field_lines sc T F))) with
    | YDict fm => (Some fm, strip B)
    | _ => (None, md)
    end.
Proof.
  intros Hsc Hgen Hfree.
  unfold generate_markdown in Hgen. rewrite Hsc in Hgen.
  destruct (validate_frontmatter T (apply_defaults T F)) as [ok errs].
  destruct ok; cbn [negb] in Hgen; [| discriminate].
  unfold field_lines in *.
  set (L := flat_map (field_line (apply_defaults T F)) (fields sc)) in *.
  set (rest := nl ++ join nl ("" :: body_lines B)).
  assert (Emd : md = marker ++ (nl ++ lines L) ++ marker ++ rest).
  { injection Hgen as <-.
    change (join nl (("---" :: L) ++ ("---" :: "" :: body_lines B))
            = marker ++ (nl ++ lines L) ++ marker ++ rest).
    rewrite join_app by discriminate. cbn [lines].
    change (join nl ("---" :: "" :: body_lines B))
      with (marker ++ nl ++ join nl ("" :: body_lines B)).
    unfold marker, rest. now rewrite !append_assoc. }
  clear Hgen. subst md.
  set (H1 := nl ++ lines L).
  assert (Hidx : find (marker ++ H1 ++ marker ++ rest) "---" 3
                 = Some (3 + String.length H1)).
  { change (String.index 3 marker (marker ++ H1 ++ marker ++ rest)
            = Some (3 + String.length H1)).
    rewrite index_skip_marker.
    unfold H1. rewrite append_assoc.
    change (nl ++ lines L ++ marker ++ rest)
      with ("" ++ nl ++ (lines L ++ marker ++ rest)).
    rewrite index_after_line by reflexivity.
    now rewrite index_lines. }
  unfold _parse_frontmatter.
  replace (String.eqb (marker ++ H1 ++ marker ++ rest) ""
           || negb (startswith (marker ++ H1 ++ marker ++ rest) "---"))
    with false by reflexivity.
  rewrite Hidx.
  assert (Hyaml : strip (slice 3 (3 + String.length H1)
                           (marker ++ H1 ++ marker ++ rest))
                  = strip (lines L)).
  { unfold slice. replace (3 + String.length H1 - 3) with (String.length H1)
      by lia.
    change (drop 3 (marker ++ H1 ++ marker ++ rest))
      with (H1 ++ marker ++ rest).
    rewrite take_app. apply strip_nl. }
  assert (Hbody : strip (drop (3 + String.length H1 + 3)
                           (marker ++ H1 ++ marker ++ rest))
                  = strip B).
  { change (drop (3 + String.length H1 + 3) (marker ++ H1 ++ marker ++ rest))
      with (drop (String.length H1 + 3) (H1 ++ marker ++ rest)).
    replace (String.length H1 + 3)
      with (String.length (H1 ++ marker))
      by (rewrite PathProps.append_length; reflexivity).
    rewrite <- append_assoc, drop_app.
    apply body_after_marker. }
  rewrite Hyaml, Hbody.
  destruct (yaml_safe_load _); reflexivity.
Qed.

End WithCollaborators.

(** A YAML reader that knows the frontmatter block of the article fixture. *)
Definition article_block : string :=
  strip (lines (field_lines article_schema "article" article_fm)).

Definition article_block_reader : Collaborators :=
  reads_one article_block (apply_defaults "article" article_fm).

Definition article_md : string :=
  match generate_markdown "article" article_fm "Hello" with
  | (Some md, _) => md
  | _ => ""
  end.

Lemma parse_generated_witness :
  @_parse_frontmatter article_block_reader article_md
  = (Some (apply_defaults "article" article_fm), "Hello").
Proof.
  rewrite (@parse_generated article_block_reader "article" article_schema
             article_fm "Hello" article_md);
    vm_compute; reflexivity.
Defined.

End RoundTripProps.

(* ================================================================== *)
(** * Properties: files of the clone *)
(* ================================================================== *)

Module StorageProps.
Import Py Runtime Runtime.Notations GitService ContentReader Fixtures.
Import Frame GitProps HandlerProps.


Lemma fs_get_remove_same (fs : files) (p : string) :
  fs_get (fs_remove fs p) p = None.
Proof.
  unfold fs_remove. induction fs as [| [q c] fs IH]; simpl; [reflexivity |].
  destruct (String.eqb p q) eqn:E; simpl; [exact IH |].
  now rewrite E.
Qed.






(** ** The directory listing *)

Fixpoint ascending (l : list string) : bool :=
  match l with
  | [] => true
  | x :: r =>
      match r with
      | [] => true
      | y :: _ => String.leb x y && ascending r
      end
  end.

Lemma ascending_cons (x y : string) (r : list string) :
  ascending (x :: y :: r) = String.leb x y && ascending (y :: r).
Proof. reflexivity. Qed.

Lemma insert_sorted_ascending (x : string) (l : list string) :
  ascending l = true -> ascending (insert_sorted x l) = true.
Proof.
  induction l as [| y r IH]; intros Hl; [reflexivity |].
  cbn [insert_sorted]. destruct (String.leb x y) eqn:E.
  - now rewrite ascending_cons, E, Hl.
  - assert (Hyx : String.leb y x = true).
    { destruct (String.leb_total x y) as [H | H]; congruence. }
    destruct r as [| z r'].
    + cbn [insert_sorted]. now rewrite ascending_cons, Hyx.
    + rewrite ascending_cons in Hl. apply andb_true_iff in Hl.
      destruct Hl as [Hyz Hr]. specialize (IH Hr).
      cbn [insert_sorted] in *. destruct (String.leb x z).
      * now rewrite ascending_cons, Hyx, IH.
      * now rewrite ascending_cons, Hyz, IH.
Qed.

Lemma sorted_ascending (l : list string) : ascending (sorted l) = true.
Proof.
  induction l as [| x l IH]; [reflexivity |].
  cbn [sorted fold_right]. now apply insert_sorted_ascending.
Qed.

Lemma insert_sorted_in (x y : string) (l : list string) :
  In y (insert_sorted x l) <-> y = x \/ In y l.
Proof.
  induction l as [| z l IH]; simpl; [intuition |].
  destruct (String.leb x z); simpl; [intuition |].
  rewrite IH. intuition.
Qed.

Lemma sorted_in (y : string) (l : list string) : In y (sorted l) <-> In y l.
Proof.
  induction l as [| x l IH]; [reflexivity |].
  cbn [sorted fold_right]. rewrite insert_sorted_in.
  fold (sorted l). rewrite IH. simpl. intuition.
Qed.

Lemma insert_sorted_length (x : string) (l : list string) :
  List.length (insert_sorted x l) = S (List.length l).
Proof.
  induction l as [| z l IH]; simpl; [reflexivity |].
  destruct (String.leb x z); simpl; [reflexivity | now rewrite IH].
Qed.

Lemma sorted_length (l : list string) :
  List.length (sorted l) = List.length l.
Proof.
  induction l as [| x l IH]; [reflexivity |].
  cbn [sorted fold_right]. rewrite insert_sorted_length.
  fold (sorted l). now rewrite IH.
Qed.

(** X12.  [list_files_in_directory] lists, in ascending order, exactly the
    [.md] files that sit directly inside the directory, one entry per
    file. *)
Theorem list_files_in_directory_sorted (w : World) (d : string) :
  let listing := list_files_in_directory w d in
  let here := match mirror w with
              | Some r => filter (md_in_directory d) (map fst (worktree r))
              | None => []
              end in
  ascending listing = true /\
  (forall p, In p listing <-> In p here) /\
  List.length listing = List.length here.
Proof.
  unfold list_files_in_directory. destruct (mirror w) as [r |]; simpl.
  - split; [apply sorted_ascending |].
    split; [intros p; apply sorted_in | apply sorted_length].
  - repeat split; auto.
Qed.

End StorageProps.

(* ================================================================== *)
(** * Properties: commits and the remote *)
(* ================================================================== *)

Module CommitProps.
Import Py Runtime Runtime.Notations GitService GitServiceX Fixtures.
Import Frame GitProps HandlerProps.

(** What the staging loop records for a path: its content on disk, or its
    removal. *)
Definition staged_entry (wt : files) (f : string) : string * option string :=
  (f, fs_get wt f).

Lemma stage_records (fs : list string) :
  forall staged (w : World) (r : Repo),
    cooperative w -> mirror w = Some r -> is_repo r = true ->
    exists w1,
      stage fs staged w
      = (Ok (staged ++ map (staged_entry (worktree r)) fs)%list, w1) /\
      cooperative w1 /\ mirror w1 = Some r /\ DEBUG w1 = DEBUG w /\
      next_id w1 = next_id w.
Proof.
  induction fs as [| f fs IH]; intros staged w r Hs Hm Hr.
  - exists w. cbn. rewrite app_nil_r. auto.
  - cbn [stage].
    assert (Ho : open_repo w = (Ok r, w)).
    { unfold open_repo, bind, gets, ret. now rewrite Hm, Hr. }
    rewrite (bind_ok _ _ _ _ _ Ho).
    destruct (fs_get (worktree r) f) as [c |] eqn:Ef.
    + set (wl := with_trace (trace w ++ [EvGit (IndexAdd f)]) w).
      assert (El : log (EvGit (IndexAdd f)) w = (Ok tt, wl)) by reflexivity.
      rewrite (bind_ok _ _ _ _ _ El).
      destruct (consult_returns wl Hs) as (wc & Ec & Sc & Mc & Dc).
      rewrite (bind_ok _ _ _ _ _ Ec). cbv iota.
      destruct (IH (staged ++ [(f, Some c)])%list wc r)
        as (w1 & E & H1 & H2 & H3 & H4); auto.
      { now rewrite Mc. }
      exists w1. rewrite E. cbn [map]. unfold staged_entry at 2.
      rewrite Ef, <- app_assoc. repeat split; auto.
      * now rewrite H3, Dc.
      * rewrite H4. apply consult_ok in Ec. now destruct Ec as (_ & _ & _ & _ & -> & _).
    + set (wl := with_trace (trace w ++ [EvGit (IndexRemove f)]) w).
      assert (El : log (EvGit (IndexRemove f)) w = (Ok tt, wl)) by reflexivity.
      rewrite (bind_ok _ _ _ _ _ El).
      destruct (consult_returns wl Hs) as (wc & Ec & Sc & Mc & Dc).
      rewrite (bind_ok _ _ _ _ _ Ec). cbv iota.
      destruct (IH (staged ++ [(f, None)])%list wc r)
        as (w1 & E & H1 & H2 & H3 & H4); auto.
      { now rewrite Mc. }
      exists w1. rewrite E. cbn [map]. unfold staged_entry at 2.
      rewrite Ef, <- app_assoc. repeat split; auto.
      * now rewrite H3, Dc.
      * rewrite H4. apply consult_ok in Ec. now destruct Ec as (_ & _ & _ & _ & -> & _).
Qed.

Lemma commit_locally_run (fs : list string) (msg author : string)
    (w : World) (r : Repo) :
  cooperative w -> mirror w = Some r -> is_repo r = true ->
  DEBUG w = false ->
  exists w1,
    commit_locally fs msg author w = (Ok (hexsha (next_id w)), w1) /\
    mirror w1
    = Some (mkRepo true (worktree r)
              (mkCommit (next_id w) msg author
                 (map (staged_entry (worktree r)) fs) :: branch r)
              (origin_ref r) (rebasing r)) /\
    remote w1 = remote w /\ cooperative w1 /\ DEBUG w1 = false.
Proof.
  intros Hs Hm Hr Hd.
  unfold commit_locally, with_lock.
  set (wq := with_trace (trace w ++ [EvAcquire]) w).
  assert (Ho : open_repo wq = (Ok r, wq)).
  { unfold open_repo, bind, gets, ret. simpl. now rewrite Hm, Hr. }
  destruct (stage_records fs [] wq r) as (w1 & E & H1 & H2 & H3 & H4); auto.
  assert (Hrem : remote w1 = remote w).
  { pose proof (respects_stage (fun a b => remote b = remote a)
                  (fun _ => True) (fun _ => eq_refl)
                  (fun a b c Hab Hbc => eq_trans Hbc Hab)
                  (fun _ _ _ => eq_refl) (fun _ _ _ _ => eq_refl)
                  (fun _ => I) fs [] wq) as K.
    rewrite E in K. exact K. }
  unfold commit_body.
  unfold bind at 1. unfold gets at 1. cbn [DEBUG wq with_trace]. rewrite Hd.
  rewrite (bind_ok _ _ _ _ _ Ho).
  rewrite (bind_ok _ _ _ _ _ E).
  unfold cooperative in *.
  destruct w1 as [dbg mir rem out dr au lc rc tr sc nid ck]; simpl in *.
  subst mir nid dbg.
  destruct r as [isr wt br orf rb]; simpl in Hr; subst isr.
  destruct sc as [| v0 sc]; [| good_head H1];
    eexists; cbv -[app hexsha map staged_entry];
    (repeat split; try congruence; try exact Hrem;
     try assumption; try constructor).
Qed.

(** X13.  In production, on a healthy clone and with nothing failing,
    [commit_locally] puts one new commit on top of the local branch: it
    carries the message and the author, and for each listed path the
    content the file has on disk, or its removal when the file is gone.
    The worktree, the remote-tracking branch and the older commits stay as
    they are, and the sha returned is the new commit's. *)
Theorem commit_locally_records (fs : list string) (msg author : string)
    (w : World) (r : Repo) :
  cooperative w -> mirror w = Some r -> is_repo r = true ->
  DEBUG w = false ->
  exists w1,
    commit_locally fs msg author w = (Ok (hexsha (next_id w)), w1) /\
    mirror w1
    = Some (mkRepo true (worktree r)
              (mkCommit (next_id w) msg author
                 (map (staged_entry (worktree r)) fs) :: branch r)
              (origin_ref r) (rebasing r)) /\
    remote w1 = remote w.
Proof.
  intros Hs Hm Hr Hd.
  destruct (commit_locally_run fs msg author w r Hs Hm Hr Hd)
    as (w1 & H1 & H2 & H3 & _).
  exists w1. auto.
Qed.

Lemma commit_locally_records_witness :
  exists w1 r1 c rest,
    commit_locally ["gone.md"] "Delete it" "ann" clean_world
    = (Ok (hexsha 10), w1) /\
    mirror w1 = Some r1 /\ branch r1 = c :: rest /\
    c_staged c = [("gone.md", None)].
Proof.
  destruct (commit_locally_records ["gone.md"] "Delete it" "ann" clean_world
              (mkRepo true [] [commit_a] [commit_a] false))
    as (w1 & E & Hm & _);
    try reflexivity; try exact (Forall_nil _).
  exists w1. eexists; eexists; eexists.
  split; [exact E |]. split; [exact Hm |]. split; reflexivity.
Defined.

(** ** Pushing *)

Lemma in_history_app (c : commit) (a b : history) :
  in_history c (a ++ b)%list = in_history c a || in_history c b.
Proof.
  unfold in_history, ids. now rewrite map_app, existsb_app.
Qed.

Lemma in_history_in (c : commit) (h : history) :
  In c h -> in_history c h = true.
Proof.
  intros Hin. unfold in_history, ids. apply existsb_exists.
  exists (c_id c). split; [now apply in_map | apply Nat.eqb_refl].
Qed.

(** A rebase onto [h] keeps every commit of the branch, by identity. *)
Lemma rebase_keeps (c : commit) (h b : history) :
  In c b -> in_history c (range h b ++ h)%list = true.
Proof.
  intros Hin. rewrite in_history_app.
  destruct (in_history c h) eqn:E; [apply orb_true_r |].
  rewrite orb_false_r. apply in_history_in.
  unfold range. apply filter_In. split; [exact Hin | now rewrite E].
Qed.

(** X14.  [push_to_remote] never loses a local commit: whether it returns
    or raises, every commit the local branch held is still on it (a pull
    with rebase may have moved it on top of the remote's commits). *)
Theorem push_to_remote_keeps_commits (w w1 : World) (r : Repo)
    (res : res nat) :
  mirror w = Some r ->
  push_to_remote w = (res, w1) ->
  exists r1,
    mirror w1 = Some r1 /\
    forall c, In c (branch r) -> in_history c (branch r1) = true.
Proof.
  destruct w as [dbg mir rem out dr au lc rc tr sc nid ck].
  destruct r as [isr wt br orf rb].
  cbn [mirror]. intros -> H.
  repeat (cbv -[range app is_suffix in_history] in H; try stuck_in H);
    injection H as <- <-; cbn [mirror];
    eexists; (split; [reflexivity |]); cbn [branch];
    intros x Hx;
    first [ now apply in_history_in
          | now apply rebase_keeps
          | match goal with
            | E : range ?a ?b = _ |- _ =>
                let K := fresh "K" in
                pose proof (rebase_keeps x a b Hx) as K;
                rewrite E in K; exact K
            end ].
Qed.

Lemma push_to_remote_keeps_commits_witness :
  exists w1 r1,
    push_to_remote (diverged_world []) = (Ok 1, w1) /\
    mirror w1 = Some r1 /\
    in_history commit_b (branch r1) = true.
Proof.
  eexists; eexists. split; [vm_compute; reflexivity |].
  destruct (push_to_remote_keeps_commits (diverged_world []) _ diverged_repo
              _ eq_refl eq_refl) as (r1 & Hm & Hk).
  injection Hm as <-. split; [reflexivity |].
  apply Hk. now left.
Defined.

(** ** Unpushed commits *)

Lemma has_unpushed_commits_run (w : World) :
  exists b w',
    has_unpushed_commits w = (Ok b, w') /\
    mirror w' = mirror w /\ remote w' = remote w /\
    drafts w' = drafts w /\
    (b = true -> unpushed w <> []).
Proof.
  destruct w as [dbg mir rem out dr au lc rc tr sc nid ck].
  unfold unpushed. cbn [mirror].
  destruct mir as [[isr wt br orf rb] |];
    [| eexists; eexists; cbv;
       repeat split; try reflexivity; discriminate].
  destruct isr;
    [| eexists; eexists; cbv -[range];
       repeat split; try reflexivity; discriminate].
  destruct br as [| c br];
    [ eexists; eexists; cbv -[range];
      repeat split; try reflexivity; discriminate |].
  destruct orf as [| c' orf];
    [ eexists; eexists; cbv -[range];
      repeat split; try reflexivity; discriminate |].
  destruct c as [n m a st], c' as [n' m' a' st'].
  destruct sc as [| v sc];
    cbv -[range app hexsha String.eqb];
    match goal with
    | |- context [String.eqb ?x ?y] => destruct (String.eqb x y)
    end;
    try (eexists; eexists;
         repeat split; try reflexivity; discriminate);
    try destruct v;
    match goal with
    | |- context [range ?x ?y] => destruct (range x y) eqn:Er
    end;
    eexists; eexists; cbv -[range app];
    repeat split; try reflexivity; try discriminate.
Qed.

(** X15.  [has_unpushed_commits] never raises and changes neither the
    clone nor the remote; it answers True only when the local branch holds
    a commit that the remote-tracking branch lacks. *)
Theorem has_unpushed_commits_sound (w : World) :
  exists b w',
    has_unpushed_commits w = (Ok b, w') /\
    mirror w' = mirror w /\ remote w' = remote w /\
    (b = true -> unpushed w <> []).
Proof.
  destruct (has_unpushed_commits_run w) as (b & w' & H1 & H2 & H3 & _ & H5).
  exists b, w'. auto.
Qed.




(** X17.  [get_unpushed_changes] never raises.  Under [DEBUG] or without
    a clone it answers the empty list and does nothing; otherwise it may
    refresh the remote-tracking branch, and leaves the local branch, the
    worktree and the remote as they are. *)
Theorem get_unpushed_changes_reads_only (w : World) :
  exists l w',
    get_unpushed_changes w = (Ok l, w') /\
    remote w' = remote w /\
    (DEBUG w = true \/ mirror w = None -> l = [] /\ w' = w) /\
    (forall r, mirror w = Some r ->
       exists r', mirror w' = Some r' /\
                  branch r' = branch r /\ worktree r' = worktree r).
Proof.
  destruct w as [dbg mir rem out dr au lc rc tr sc nid ck].
  cbn [DEBUG mirror].
  destruct dbg.
  { eexists; eexists. cbv. repeat split; auto.
    intros r ->. eauto. }
  destruct mir as [[isr wt br orf rb] |].
  - destruct isr.
    + destruct sc as [| v0 [| v1 sc]]; try destruct v0; try destruct v1;
        eexists; eexists; cbv -[range app map change_of];
        (split; [reflexivity |]); (split; [reflexivity |]);
        (split; [intros [E | E]; discriminate E |]);
        intros r E; injection E as <-; eexists;
        (split; [reflexivity |]); split; reflexivity.
    + eexists; eexists; cbv -[range app map change_of].
      split; [reflexivity |]. split; [reflexivity |].
      split; [intros [E | E]; discriminate E |].
      intros r E; injection E as <-; eexists.
      split; [reflexivity |]. split; reflexivity.
  - eexists; eexists. cbv. repeat split; auto. intros r E. discriminate E.
Qed.

(** X18.  Under [DEBUG] the committing half of the git service runs no
    git command: [commit_locally] and [commit_and_push] answer the
    sentinel ['debug-no-push'], [push_to_remote] answers 0, and all they
    leave behind is the taking and releasing of the lock.  Outside
    [DEBUG] a sha never equals the sentinel, so [commit_and_push] always
    goes on to the push. *)
Theorem debug_mode_runs_no_git (fs : list string) (msg author : string)
    (w : World) :
  (DEBUG w = true ->
     commit_locally fs msg author w
     = (Ok "debug-no-push",
        with_trace (trace w ++ [EvAcquire; EvRelease]) w) /\
     push_to_remote w
     = (Ok 0, with_trace (trace w ++ [EvAcquire; EvRelease]) w) /\
     commit_and_push fs msg author w
     = (Ok "debug-no-push",
        with_trace (trace w ++ [EvAcquire; EvRelease]) w)) /\
  (forall sha w1,
     DEBUG w = false ->
     commit_locally fs msg author w = (Ok sha, w1) ->
     commit_and_push fs msg author w
     = (push_to_remote ;;; ret sha) w1).
Proof.
  split.
  - destruct w as [dbg mir rem out dr au lc rc tr sc nid ck].
    cbn [DEBUG]. intros ->.
    cbv -[app]. rewrite <- !app_assoc. repeat split.
  - intros sha w1 Hd Hc.
    unfold commit_and_push. rewrite (bind_ok _ _ _ _ _ Hc).
    apply commit_locally_ok in Hc; [| exact Hd].
    destruct Hc as (n & _ & _ & _ & _ & -> & _).
    reflexivity.
Qed.

End CommitProps.

(* ================================================================== *)
(** * Properties: the content reader *)
(* ================================================================== *)

Module ReaderProps.
Import Py Schemas ContentService Runtime Runtime.Notations.
Import GitService ContentReader Fixtures.
Import Frame GitProps HandlerProps.

Lemma lookup_head {A} (k : string) (v : A) (l : list (string * A)) :
  lookup ((k, v) :: l) k = Some v.
Proof. simpl. now rewrite String.eqb_refl. Qed.


Lemma written_file_reads (p c : string) (w w' : World) :
  write_file_to_repo p c w = (Ok tt, w') ->
  read_file_from_repo w' p = Some c.
Proof.
  destruct w as [dbg mir rem out dr au lc rc tr sc nid ck].
  unfold read_file_from_repo.
  destruct mir as [[isr wt br orf rb] |]; destruct sc as [| [] sc];
    cbv -[fs_get fs_set app]; intros E; try discriminate E;
    injection E as <-; cbn [mirror worktree DEBUG output];
    change [(p, c)] with (fs_set [] p c);
    now rewrite fs_get_set_same.
Qed.

Section WithCollaborators.
Context `{Collaborators}.

Lemma gets_bind {A B} (f : World -> A) (k : A -> M B) (w : World) :
  bind (gets f) k w = k (f w) w.
Proof. reflexivity. Qed.




(** The cache key of a record. *)
Definition read_key (content_type slug : string) : string :=
  _cache_key "read" [content_type; slug].

Lemma read_content_hit (content_type slug : string) (w : World) (c : content) :
  lookup (read_cache w) (read_key content_type slug) = Some c ->
  read_content content_type slug w = (Ok (Some c), w).
Proof.
  intros E. unfold read_content, read_key in *. cbv zeta in *.
  rewrite gets_bind, E. reflexivity.
Qed.

(** X20.  A record that [read_content] found is cached: a second call
    (while the cache entry lives) gives the same record and does
    nothing. *)
Theorem read_content_cached (content_type slug : string) (w w1 : World)
    (c : content) :
  read_content content_type slug w = (Ok (Some c), w1) ->
  read_content content_type slug w1 = (Ok (Some c), w1).
Proof.
  intros Hr. apply read_content_hit.
  unfold read_content in Hr. cbv zeta in Hr. fold (read_key content_type slug) in Hr.
  rewrite gets_bind in Hr.
  destruct (lookup (read_cache w) (read_key content_type slug))
    as [cached |] eqn:E.
  - injection Hr as <- <-. exact E.
  - bind_inv Hr. bind_inv Hr.
    destruct a0 as [fp |]; [| discriminate Hr].
    destruct (String.eqb fp ""); [discriminate Hr |].
    rewrite gets_bind in Hr.
    destruct (read_file_from_repo w2 fp) as [raw |]; [| discriminate Hr].
    destruct (_parse_frontmatter raw) as [fm body].
    bind_inv Hr. unfold modify in E2. injection E2 as <- <-.
    injection Hr as <- <-.
    cbn [read_cache with_caches]. apply lookup_head.
Qed.

(** X21.  Once the content file of a (content type, slug) is written into
    the clone, [check_slug_exists] answers True for it, from the file
    itself: without a listing, a refresh of the clone or any other
    effect. *)
Theorem created_file_is_found (content_type slug p md : string)
    (w w1 : World) :
  get_file_path content_type slug = Some p ->
  write_file_to_repo p md w = (Ok tt, w1) ->
  check_slug_exists content_type slug w1 = (Ok true, w1).
Proof.
  unfold get_file_path. intros Hp Hw.
  unfold check_slug_exists, _find_file_path_by_slug.
  destruct (get_schema content_type) as [sc |]; [| discriminate].
  injection Hp as <-.
  unfold bind at 1. unfold bind at 1. unfold gets at 1.
  now rewrite (written_file_reads _ _ _ _ Hw).
Qed.


End WithCollaborators.

Lemma created_file_is_found_witness :
  exists w1,
    write_file_to_repo jobs_path "text" clean_world = (Ok tt, w1) /\
    @check_slug_exists offline "article" "jobs" w1 = (Ok true, w1).
Proof.
  pose (w1 := snd (write_file_to_repo jobs_path "text" clean_world)).
  exists w1. split; [reflexivity |].
  apply (@created_file_is_found offline "article" "jobs" jobs_path "text"
           clean_world w1); reflexivity.
Defined.

Lemma read_content_cached_witness :
  exists c w1,
    @read_content jobs_reader "article" "jobs" jobs_world = (Ok (Some c), w1) /\
    @read_content jobs_reader "article" "jobs" w1 = (Ok (Some c), w1).
Proof.
  pose (c := mkContent article_fm "Hello" jobs_raw jobs_path).
  pose (w1 := snd (@read_content jobs_reader "article" "jobs" jobs_world)).
  assert (E : @read_content jobs_reader "article" "jobs" jobs_world
              = (Ok (Some c), w1)) by (vm_compute; reflexivity).
  exists c, w1. split; [exact E |].
  exact (@read_content_cached jobs_reader "article" "jobs" jobs_world w1 c E).
Defined.


End ReaderProps.

(* ================================================================== *)
(** * Properties: refusals *)
(* ================================================================== *)

Module RefusalProps.
Import Py Schemas Accounts ContentService Runtime Runtime.Notations.
Import GitService ContentReader Views ViewsX Fixtures.
Import Frame GitProps MergeProps PolicyProps HandlerProps.

Section WithCollaborators.
Context `{Collaborators}.

Lemma edit_attempt_result conv user content_type title slug fm body
    file_path markdown ib ip (w w' : World) (r : action_result) :
  edit_attempt conv user content_type title slug fm body file_path
    markdown ib ip w = (Ok r, w') ->
  r = RContentEdited title content_type.
Proof. intros E. now apply edit_attempt_ok in E. Qed.

(** X23.  A group lead's edit of local content is scoped by the group the
    request names, not by the group of the stored record: a request that
    names no group is never refused for permission, whatever group the
    record belongs to. *)
Theorem group_lead_edit_without_group (g : string) (a : action_data)
    (conv : nat) (u : User) (w w' : World) (r : res action_result) :
  a_type a = "local_event" \/ a_type a = "local_news" ->
  a_slug_key a <> "" ->
  truthy (group_of a) = false ->
  _handle_edit_action a (mkProfile group_lead g) conv u w = (r, w') ->
  r <> Ok (RError PermissionDenied) /\ r <> Ok (RError MissingTypeOrSlug).
Proof.
  intros Ht Hs Hg.
  assert (Hedit : can_edit (mkProfile group_lead g) (Some (a_type a))
                    (group_of a) = true).
  { apply CapabilityProps.group_lead_can_edit_iff. split; [exact Ht | now left]. }
  assert (Hne : String.eqb (a_type a) "" = false).
  { destruct Ht as [-> | ->]; reflexivity. }
  apply String.eqb_neq in Hs.
  unfold _handle_edit_action. fold (group_of a).
  rewrite Hne, Hs, Hedit. cbn [orb negb].
  unfold bind at 1.
  destruct (read_content (a_type a) (a_slug_key a) w) as [[[ex |] | e] w1].
  - destruct (generate_markdown _ _ _) as [[md |] [| e errs]];
      try (intros E; injection E as <- <-; split; discriminate).
    destruct (resolve_edit_image _ _ _) as [ib ip].
    destruct (get_file_path _ _);
      [| intros E; injection E as <- <-; split; discriminate].
    unfold try_except.
    destruct (edit_attempt _ _ _ _ _ _ _ _ _ _ _ _) as [[r0 | e] w2] eqn:Ea.
    + apply edit_attempt_result in Ea. subst r0.
      intros E; injection E as <- <-; split; discriminate.
    + intros E; injection E as <- <-; split; discriminate.
  - intros E; injection E as <- <-; split; discriminate.
  - intros E; injection E as <- <-; split; discriminate.
Qed.

End WithCollaborators.

(** An edit of a local event that names no group. *)
Definition retitle_meetup : action_data :=
  mkAction "local_event" "meetup" [("title", VStr "New")] None [].

Lemma group_lead_edit_without_group_witness :
  fst (@_handle_edit_action offline retitle_meetup oxford_lead 1 ann
         empty_world) <> Ok (RError PermissionDenied) /\
  fst (@_handle_edit_action offline retitle_meetup oxford_lead 1 ann
         empty_world) <> Ok (RError MissingTypeOrSlug).
Proof.
  apply (@group_lead_edit_without_group offline "oxford" retitle_meetup 1 ann
           empty_world
           (snd (@_handle_edit_action offline retitle_meetup oxford_lead 1
                   ann empty_world))).
  - now left.
  - discriminate.
  - reflexivity.
  - apply surjective_pairing.
Defined.

End RefusalProps.

(* ================================================================== *)
(** * Properties: what a mutation leaves behind *)
(* ================================================================== *)

Module MutationProps.
Import Py Schemas Accounts ContentService Runtime Runtime.Notations.
Import GitService ContentReader Views ViewsX Fixtures.
Import Frame GitProps MergeProps PolicyProps HandlerProps.
Import StorageProps CommitProps ReaderProps.

(** Both caches are empty. *)
Definition caches_empty (w : World) : Prop :=
  list_cache w = [] /\ read_cache w = [].

Lemma invalidate_then_ret {A} (x : A) (w w' : World) (r : res A) :
  (invalidate_cache ;;; ret x) w = (r, w') -> caches_empty w'.
Proof. cbv -[app]. intros E. injection E as _ <-. split; reflexivity. Qed.

Lemma log_audit_run content_type slug action user sha summary (w : World) :
  exists w', _log_audit content_type slug action user sha summary w = (Ok tt, w').
Proof.
  destruct (log_audit_ok content_type slug action user sha summary w)
    as (w' & E & _). eauto.
Qed.

Lemma publish_attempt_caches conv user content_type title slug fm body
    file_path markdown ib ip (w w' : World) (r : action_result) :
  publish_attempt conv user content_type title slug fm body file_path
    markdown ib ip w = (Ok r, w') -> caches_empty w'.
Proof.
  unfold publish_attempt. intros E.
  bind_inv E. bind_inv E. bind_inv E.
  now apply invalidate_then_ret in E.
Qed.

Lemma edit_attempt_caches conv user content_type title slug fm body
    file_path markdown ib ip (w w' : World) (r : action_result) :
  edit_attempt conv user content_type title slug fm body file_path
    markdown ib ip w = (Ok r, w') -> caches_empty w'.
Proof.
  unfold edit_attempt. intros E.
  bind_inv E. bind_inv E. bind_inv E.
  now apply invalidate_then_ret in E.
Qed.

Lemma delete_attempt_caches content_type slug title user file_path
    (w w' : World) (t : value) (ct : string) :
  delete_attempt content_type slug title user file_path w
  = (Ok (DContentDeleted t ct), w') -> caches_empty w'.
Proof.
  unfold delete_attempt. intros E.
  bind_inv E. bind_inv E.
  destruct a0 as [sha |]; [| discriminate E].
  bind_inv E.
  now apply invalidate_then_ret in E.
Qed.

Section WithCollaborators.
Context `{Collaborators}.

(** X24.  A handler that reports a content change has emptied the
    content caches as its last step: after content_created,
    content_edited or content_deleted the next listing or read goes back
    to the clone. *)
Theorem mutation_empties_caches (a : action_data) (p : UserProfile)
    (conv : nat) (u : User) (w w' : World) (t : value) (ct : string) :
  (_handle_content_action a p conv u w = (Ok (RContentCreated t ct), w') ->
   caches_empty w') /\
  (_handle_edit_action a p conv u w = (Ok (RContentEdited t ct), w') ->
   caches_empty w') /\
  (_handle_delete_action a p conv u w = (Ok (DContentDeleted t ct), w') ->
   caches_empty w').
Proof.
  split; [| split].
  - unfold _handle_content_action. intros E.
    bind_inv E. destruct a0; [discriminate E |].
    destruct (negb (can_create _ _ _)); [discriminate E |].
    destruct (generate_markdown _ _ _) as [[md |] [| e errs]];
      try discriminate E.
    destruct (resolve_image _ _ _ _) as [ib ip].
    destruct (get_file_path _ _); [| discriminate E].
    destruct (can_publish_directly _ _ _).
    + unfold try_except in E.
      destruct (publish_attempt _ _ _ _ _ _ _ _ _ _ _ _) as [[r | e] w2] eqn:Ep.
      * injection E as _ <-. now apply publish_attempt_caches in Ep.
      * unfold save_pending in E. bind_inv E. discriminate E.
    + unfold save_pending in E. bind_inv E. discriminate E.
  - unfold _handle_edit_action. intros E.
    destruct (_ || _); [discriminate E |].
    destruct (negb (can_edit _ _ _)); [discriminate E |].
    bind_inv E. destruct a0 as [ex |]; [| discriminate E].
    destruct (generate_markdown _ _ _) as [[md |] [| e errs]];
      try discriminate E.
    destruct (resolve_edit_image _ _ _) as [ib ip].
    destruct (get_file_path _ _); [| discriminate E].
    unfold try_except in E.
    destruct (edit_attempt _ _ _ _ _ _ _ _ _ _ _ _) as [[r | e] w2] eqn:Ep.
    + injection E as _ <-. now apply edit_attempt_caches in Ep.
    + discriminate E.
  - unfold _handle_delete_action. intros E.
    destruct (_ || _); [discriminate E |].
    destruct (negb (can_delete _ _ _)); [discriminate E |].
    bind_inv E. destruct a0 as [ex |]; [| discriminate E].
    destruct (get_file_path _ _); [| discriminate E].
    unfold try_except in E.
    destruct (delete_attempt _ _ _ _ _ _) as [[r | e] w2] eqn:Ep.
    + injection E as -> <-. now apply delete_attempt_caches in Ep.
    + discriminate E.
Qed.

End WithCollaborators.

End MutationProps.

(* ================================================================== *)
(** * Properties: the delete handler *)
(* ================================================================== *)

Module DeleteProps.
Import Py Schemas Accounts ContentService Runtime Runtime.Notations.
Import GitService ContentReader Views ViewsX Fixtures.
Import Frame GitProps MergeProps PolicyProps HandlerProps.
Import StorageProps CommitProps ReaderProps MutationProps.

Lemma ensure_repo_refreshes (w : World) : refreshes w (snd (ensure_repo w)).
Proof.
  apply (respects_ensure_repo refreshes sync_event);
    first [ apply refreshes_refl
          | apply refreshes_trans
          | intros; unfold refreshes; simpl;
            (split; [first [ apply appends_same_trace; reflexivity
                           | apply appends_log; assumption ] |]);
            repeat split; reflexivity
          | intros g Hg; exact Hg ].
Qed.

Lemma delete_absent (path : string) (w : World) :
  read_file_from_repo w path = None ->
  delete_file_from_repo path w = (Ok false, w).
Proof.
  unfold read_file_from_repo, delete_file_from_repo, bind, gets.
  destruct (mirror w) as [r |]; [| reflexivity].
  destruct (fs_get (worktree r) path); [discriminate | reflexivity].
Qed.

Lemma delete_returns (path c : string) (w : World) (r : Repo) :
  cooperative w -> mirror w = Some r ->
  fs_get (worktree r) path = Some c ->
  exists w1,
    delete_file_from_repo path w = (Ok true, w1) /\
    cooperative w1 /\ DEBUG w1 = DEBUG w /\
    mirror w1 = Some (mkRepo (is_repo r) (fs_remove (worktree r) path)
                        (branch r) (origin_ref r) (rebasing r)) /\
    audit w1 = audit w /\ drafts w1 = drafts w.
Proof.
  unfold cooperative.
  destruct w as [dbg mir rem out dr au lc rc tr sc nid ck]; simpl.
  intros Hs -> Hf.
  unfold delete_file_from_repo, bind at 1, gets at 1. cbn [mirror].
  rewrite Hf.
  destruct sc as [| v0 sc]; [| good_head Hs];
    eexists; cbv -[app fs_remove]; returned.
Qed.

Lemma log_audit_records content_type slug action user sha summary
    (w : World) :
  cooperative w ->
  exists w1,
    _log_audit content_type slug action user sha summary w = (Ok tt, w1) /\
    audit w1 = mkAudit content_type slug action (u_username user) sha summary
               :: audit w /\
    mirror w1 = mirror w /\ remote w1 = remote w /\ drafts w1 = drafts w.
Proof.
  unfold cooperative.
  destruct w as [dbg mir rem out dr au lc rc tr sc nid ck]; simpl.
  intros Hs.
  destruct sc as [| v0 sc]; [| good_head Hs];
    eexists; cbv -[app]; returned.
Qed.

Lemma commit_locally_keeps_db (fs : list string) (msg author : string)
    (w : World) :
  keeps_db w (snd (commit_locally fs msg author w)).
Proof.
  apply (respects_commit_locally keeps_db (fun _ => True)); keeps_db_frame.
Qed.

Section WithCollaborators.
Context `{Collaborators}.

(** The handler after its checks, on a record that [read_content] found. *)
Lemma delete_after_checks (a : action_data) (p : UserProfile) (conv : nat)
    (u : User) (w w1 : World) (ex : content) (path : string) :
  a_type a <> "" -> a_slug_key a <> "" ->
  can_delete p (Some (a_type a)) VNone = true ->
  read_content (a_type a) (a_slug_key a) w = (Ok (Some ex), w1) ->
  get_file_path (a_type a) (a_slug_key a) = Some path ->
  _handle_delete_action a p conv u w
  = try_except
      (delete_attempt (a_type a) (a_slug_key a)
         (title_or_untitled (ct_frontmatter ex)) u path)
      (fun _ => ret DFailedToDelete) w1.
Proof.
  intros Ht Hs Hcan Hread Hpath.
  apply String.eqb_neq in Ht. apply String.eqb_neq in Hs.
  unfold _handle_delete_action.
  rewrite Ht, Hs, Hcan. cbn [orb negb].
  rewrite (bind_ok _ _ _ _ _ Hread). cbv iota.
  now rewrite Hpath.
Qed.

(** X25.  The delete handler removes the file at the path of the
    (content type, slug), whatever file [read_content] found the record
    in.  When there is no file at that path (the record came from a file
    with another name whose frontmatter holds the slug) the handler
    answers 'File not found in repo': nothing is deleted or committed, no
    audit entry is written and the caches are not emptied. *)
Theorem delete_needs_file_at_slug_path (a : action_data) (p : UserProfile)
    (conv : nat) (u : User) (w w1 w2 : World) (ex : content) (path : string) :
  a_type a <> "" -> a_slug_key a <> "" ->
  can_delete p (Some (a_type a)) VNone = true ->
  read_content (a_type a) (a_slug_key a) w = (Ok (Some ex), w1) ->
  get_file_path (a_type a) (a_slug_key a) = Some path ->
  DEBUG w = false ->
  ensure_repo w1 = (Ok tt, w2) ->
  read_file_from_repo w2 path = None ->
  _handle_delete_action a p conv u w = (Ok DFileNotInRepo, w2) /\
  audit w2 = audit w /\ drafts w2 = drafts w /\
  exists evs, added w w2 evs /\ no_publication evs /\ no_record evs.
Proof.
  intros Ht Hs Hcan Hread Hpath Hd He Hno.
  rewrite (delete_after_checks a p conv u w w1 ex path) by assumption.
  pose proof (read_refreshes _ _ _ _ _ Hread)
    as ([e1 [T1 F1]] & D1 & A1 & G1 & _).
  pose proof (ensure_repo_refreshes w1) as K. rewrite He in K.
  destruct K as ([e2 [T2 F2]] & D2 & A2 & _).
  cbn [snd] in *.
  split.
  - unfold try_except, delete_attempt.
    rewrite gets_bind, G1, Hd.
    assert (E : (ensure_repo ;;;
                 deleted <- delete_file_from_repo path ;;
                 (if negb deleted then ret None
                  else
                    sha <- commit_locally [path]
                             (commit_msg "Delete" (a_type a)
                                (title_or_untitled (ct_frontmatter ex))
                                (u_username u)) (author_of u) ;;
                    ret (Some sha))) w1 = (Ok None, w2)).
    { rewrite (bind_ok _ _ _ _ _ He).
      now rewrite (bind_ok _ _ _ _ _ (delete_absent path w2 Hno)). }
    now rewrite (bind_ok _ _ _ _ _ E).
  - split; [congruence |]. split; [congruence |].
    exists (e1 ++ e2)%list. split; [| split].
    + unfold added. now rewrite T2, T1, app_assoc.
    + apply sync_events_no_publication. apply Forall_app. now split.
    + apply sync_events_no_record. apply Forall_app. now split.
Qed.

(** X26.  A delete that goes through: in production, on a healthy clone
    and with nothing failing, when the file of the (content type, slug) is
    in the refreshed clone, the handler answers content_deleted; the file
    is gone from the clone, the commit now at the head of the local branch
    stages exactly its removal, the audit log has a new 'delete' entry
    with that commit's sha, and the caches are empty. *)
Theorem delete_commits_removal (a : action_data) (p : UserProfile)
    (conv : nat) (u : User) (w w1 : World) (ex : content) (path : string) :
  a_type a <> "" -> a_slug_key a <> "" ->
  can_delete p (Some (a_type a)) VNone = true ->
  read_content (a_type a) (a_slug_key a) w = (Ok (Some ex), w1) ->
  get_file_path (a_type a) (a_slug_key a) = Some path ->
  DEBUG w = false -> cooperative w -> healthy w ->
  (forall w2 r2, ensure_repo w1 = (Ok tt, w2) -> mirror w2 = Some r2 ->
     fs_get (worktree r2) path <> None) ->
  exists w3 r3 c rest entry,
    _handle_delete_action a p conv u w
    = (Ok (DContentDeleted (title_or_untitled (ct_frontmatter ex)) (a_type a)),
       w3) /\
    mirror w3 = Some r3 /\ fs_get (worktree r3) path = None /\
    branch r3 = c :: rest /\ c_staged c = [(path, None)] /\
    audit w3 = entry :: audit w /\
    a_action entry = "delete" /\ a_slug entry = a_slug_key a /\
    a_git_commit_sha entry = hexsha (c_id c) /\
    caches_empty w3.
Proof.
  intros Ht Hs Hcan Hread Hpath Hd Hcoop Hh Hfile.
  rewrite (delete_after_checks a p conv u w w1 ex path) by assumption.
  pose proof (read_ready _ _ _ _ _ Hread) as (S1 & H1 & D1).
  pose proof (read_refreshes _ _ _ _ _ Hread) as (_ & _ & A1 & _).
  destruct (ensure_repo_returns w1 (S1 Hcoop) (H1 Hh))
    as (w2 & r2 & E2 & S2 & D2 & M2 & R2).
  pose proof (ensure_repo_keeps_db w1) as K2. rewrite E2 in K2.
  destruct K2 as (_ & _ & A2 & _). cbn [snd] in A2.
  destruct (fs_get (worktree r2) path) as [c0 |] eqn:Ef;
    [| exfalso; now apply (Hfile w2 r2 E2 M2)].
  destruct (delete_returns path c0 w2 r2 S2 M2 Ef)
    as (w3 & E3 & S3 & D3 & M3 & A3 & _).
  set (msg := commit_msg "Delete" (a_type a)
                (title_or_untitled (ct_frontmatter ex)) (u_username u)).
  destruct (commit_locally_run [path] msg (author_of u) w3 _ S3 M3)
    as (w4 & E4 & M4 & _ & S4 & _); [exact R2 | congruence |].
  pose proof (commit_locally_keeps_db [path] msg (author_of u) w3) as K4.
  rewrite E4 in K4. destruct K4 as (_ & _ & A4 & _). cbn [snd] in A4.
  destruct (log_audit_records (a_type a) (a_slug_key a) "delete" u
              (hexsha (next_id w3)) "" w4 S4)
    as (w5 & E5 & A5 & M5 & _).
  set (w6 := with_caches [] [] (with_trace (trace w5 ++ [EvCacheClear]) w5)).
  assert (E6 : invalidate_cache w5 = (Ok tt, w6)) by reflexivity.
  exists w6,
    (mkRepo true (fs_remove (worktree r2) path)
       (mkCommit (next_id w3) msg (author_of u) [(path, None)] :: branch r2)
       (origin_ref r2) (rebasing r2)),
    (mkCommit (next_id w3) msg (author_of u) [(path, None)]),
    (branch r2),
    (mkAudit (a_type a) (a_slug_key a) "delete" (u_username u)
       (hexsha (next_id w3)) "").
  split.
  - unfold try_except, delete_attempt.
    rewrite gets_bind, D1, Hd.
    assert (E : (ensure_repo ;;;
                 deleted <- delete_file_from_repo path ;;
                 (if negb deleted then ret None
                  else
                    sha <- commit_locally [path] msg (author_of u) ;;
                    ret (Some sha))) w1
                = (Ok (Some (hexsha (next_id w3))), w4)).
    { rewrite (bind_ok _ _ _ _ _ E2), (bind_ok _ _ _ _ _ E3). cbn [negb].
      now rewrite (bind_ok _ _ _ _ _ E4). }
    rewrite (bind_ok _ _ _ _ _ E). cbv iota.
    rewrite (bind_ok _ _ _ _ _ E5), (bind_ok _ _ _ _ _ E6).
    reflexivity.
  - assert (Hm6 : mirror w6 = mirror w5) by reflexivity.
    assert (Ha6 : audit w6 = audit w5) by reflexivity.
    rewrite Hm6, M5, M4, Ha6, A5, A4, A3, A2, A1.
    cbn [worktree branch origin_ref rebasing map staged_entry c_staged c_id
         a_action a_slug a_git_commit_sha].
    unfold staged_entry. rewrite fs_get_remove_same.
    repeat split.
Qed.

End WithCollaborators.

(** A clone whose one article sits in a file named otherwise than its
    slug. *)
Definition misnamed_path : string := "src/content/articles/old-name.md".

Definition misnamed_world : World :=
  mkWorld false
    (Some (mkRepo true [(misnamed_path, jobs_raw)] [commit_a] [commit_a] false))
    [commit_a] [] [] [] [] [] [] [] 10 keep_tree.

Definition delete_jobs : action_data := mkAction "article" "jobs" [] None [].

Lemma delete_needs_file_at_slug_path_witness :
  exists w2,
    @_handle_delete_action jobs_reader delete_jobs an_editor 1 ann
      misnamed_world = (Ok DFileNotInRepo, w2) /\
    audit w2 = [] /\ mirror w2 = mirror misnamed_world.
Proof.
  pose (ex := mkContent article_fm "Hello" jobs_raw misnamed_path).
  pose (w1 := snd (@read_content jobs_reader "article" "jobs" misnamed_world)).
  pose (w2 := snd (ensure_repo w1)).
  destruct (@delete_needs_file_at_slug_path jobs_reader delete_jobs an_editor
              1 ann misnamed_world w1 w2 ex jobs_path)
    as (H1 & H2 & _);
    try discriminate; try (vm_compute; reflexivity).
  exists w2. split; [exact H1 |]. split; [exact H2 | reflexivity].
Defined.

Lemma delete_commits_removal_witness :
  exists w3 r3 c rest,
    @_handle_delete_action jobs_reader delete_jobs an_editor 1 ann jobs_world
    = (Ok (DContentDeleted (VStr "Jobs") "article"), w3) /\
    mirror w3 = Some r3 /\ fs_get (worktree r3) jobs_path = None /\
    branch r3 = c :: rest /\ c_staged c = [(jobs_path, None)].
Proof.
  pose (ex := mkContent article_fm "Hello" jobs_raw jobs_path).
  pose (w1 := snd (@read_content jobs_reader "article" "jobs" jobs_world)).
  destruct (@delete_commits_removal jobs_reader delete_jobs an_editor 1 ann
              jobs_world w1 ex jobs_path)
    as (w3 & r3 & c & rest & entry & H1 & H2 & H3 & H4 & H5 & _);
    try discriminate; try (vm_compute; reflexivity);
    try exact jobs_world_healthy; try exact (Forall_nil _).
  { intros w2 r2 E Hm. vm_compute in E. injection E as <-.
    injection Hm as <-. discriminate. }
  exists w3, r3, c, rest. repeat split; assumption.
Defined.

End DeleteProps.

(* ================================================================== *)
(** * Properties: reviewing drafts and publishing *)
(* ================================================================== *)

Module ReviewProps.
Import Py Schemas Accounts ContentService Runtime Runtime.Notations.
Import GitService ContentReader Views ViewsX Fixtures.
Import Frame GitProps MergeProps PolicyProps HandlerProps.
Import StorageProps CommitProps ReaderProps MutationProps DeleteProps.

(** The group a draft is for. *)
Definition draft_group (d : ContentDraft) : value :=
  get_default (d_frontmatter_json d) "localGroup" (VStr "").

Lemma get_pending_some (id : nat) (ds : list ContentDraft) (d : ContentDraft) :
  get_pending id ds = Some d ->
  In d ds /\ d_id d = id /\ d_status d = pending.
Proof.
  unfold get_pending. intros E. apply find_some in E.
  destruct E as [Hin Hp]. apply andb_true_iff in Hp.
  destruct Hp as [Hi Hs]. apply Nat.eqb_eq in Hi.
  split; [exact Hin |]. split; [exact Hi |].
  destruct (d_status d); try discriminate Hs. reflexivity.
Qed.

(** Once the row of a key holds a decided draft, no pending draft has
    that key. *)
Lemma get_pending_put (d : ContentDraft) (ds : list ContentDraft) :
  d_status d <> pending ->
  get_pending (d_id d) (put_draft d ds) = None.
Proof.
  intros Hst.
  assert (Hd : (Nat.eqb (d_id d) (d_id d)
                && status_eqb (d_status d) pending) = false).
  { destruct (d_status d); try reflexivity; try apply andb_false_r.
    now elim Hst. }
  unfold get_pending, put_draft.
  destruct (existsb _ ds) eqn:Ex.
  - clear Ex. induction ds as [| x ds IH]; [reflexivity |].
    cbn [map List.find].
    destruct (Nat.eqb (d_id x) (d_id d)) eqn:Ei.
    + now rewrite Hd.
    + now rewrite Ei.
  - cbn [List.find]. rewrite Hd.
    induction ds as [| x ds IH]; [reflexivity |].
    cbn [existsb] in Ex. apply orb_false_iff in Ex. destruct Ex as [Ei Ex].
    cbn [List.find]. rewrite Ei. cbn [andb]. now apply IH.
Qed.

Lemma save_draft_ok (d : ContentDraft) (w w' : World) :
  save_draft d w = (Ok tt, w') ->
  drafts w' = put_draft d (drafts w) /\
  mirror w' = mirror w /\ remote w' = remote w /\ audit w' = audit w /\
  trace w' = (trace w ++ [EvDraft (d_status d)])%list.
Proof.
  destruct w as [dbg mir rem out dr au lc rc tr sc nid ck].
  destruct sc as [| [] sc]; cbv -[app put_draft d_status];
    intros E; try discriminate E; injection E as <-; repeat split.
Qed.

Lemma save_draft_raise (d : ContentDraft) (w w' : World) (e : exn) :
  save_draft d w = (Raise e, w') ->
  drafts w' = drafts w /\ audit w' = audit w.
Proof.
  destruct w as [dbg mir rem out dr au lc rc tr sc nid ck].
  destruct sc as [| [] sc]; cbv -[app put_draft d_status];
    intros E; try discriminate E; injection E as _ <-; split; reflexivity.
Qed.

Lemma save_draft_returns (d : ContentDraft) (w : World) :
  cooperative w -> exists w1, save_draft d w = (Ok tt, w1).
Proof.
  unfold cooperative.
  destruct w as [dbg mir rem out dr au lc rc tr sc nid ck]; simpl.
  intros Hs.
  destruct sc as [| v0 sc]; [| good_head Hs]; eexists; reflexivity.
Qed.

(** ** The writes of an approval *)

Lemma approve_write_keeps_db (d : ContentDraft) (u : User)
    (file_path markdown : string) (w : World) :
  keeps_db w (snd (approve_write d u file_path markdown w)).
Proof.
  revert w. change (respects keeps_db (approve_write d u file_path markdown)).
  unfold approve_write.
  apply (respects_bind keeps_db keeps_db_trans);
    [apply respects_gets, keeps_db_refl | intros dbg].
  destruct dbg.
  - apply (respects_bind keeps_db keeps_db_trans);
      [| intros; apply respects_ret, keeps_db_refl].
    apply (respects_write_file_to_output keeps_db (fun _ => True));
      keeps_db_frame.
  - apply (respects_bind keeps_db keeps_db_trans);
      [exact ensure_repo_keeps_db | intros _].
    apply (respects_bind keeps_db keeps_db_trans);
      [exact (write_file_to_repo_keeps_db _ _) | intros _].
    apply (respects_bind keeps_db keeps_db_trans);
      [| intros fs; exact (commit_locally_keeps_db _ _ _)].
    destruct (image_to_write _ _) as [[p b] |];
      [| apply respects_ret, keeps_db_refl].
    apply (respects_bind keeps_db keeps_db_trans);
      [exact (write_file_to_repo_keeps_db _ _)
      | intros; apply respects_ret, keeps_db_refl].
Qed.

Lemma approve_write_returns (d : ContentDraft) (u : User)
    (file_path markdown : string) (w : World) :
  cooperative w -> healthy w -> DEBUG w = false ->
  exists sha w1,
    approve_write d u file_path markdown w = (Ok sha, w1) /\ cooperative w1.
Proof.
  intros Hs Hh Hd. unfold approve_write.
  rewrite gets_bind, Hd.
  destruct (ensure_repo_returns w Hs Hh) as (w1 & r1 & E1 & S1 & D1 & M1 & R1).
  rewrite (bind_ok _ _ _ _ _ E1).
  destruct (write_file_to_repo_returns file_path markdown w1 r1 S1 M1)
    as (w2 & E2 & S2 & D2 & M2).
  rewrite (bind_ok _ _ _ _ _ E2).
  set (msg := commit_msg _ _ _ _).
  destruct (image_to_write _ _) as [[p b] |].
  - destruct (write_file_to_repo_returns p b w2 _ S2 M2)
      as (w3 & E3 & S3 & D3 & M3).
    simpl in M3.
    assert (E3' : (write_file_to_repo p b ;;; ret [file_path; p]) w2
                  = (Ok [file_path; p], w3))
      by now rewrite (bind_ok _ _ _ _ _ E3).
    rewrite (bind_ok _ _ _ _ _ E3').
    destruct (commit_locally_returns [file_path; p] msg (author_of u) w3 _
                S3 M3)
      as (sha & w4 & E4 & S4 & _); auto; try congruence.
    { intros f [<- | [<- | []]]; simpl.
      - apply fs_get_set_keeps. rewrite fs_get_set_same. discriminate.
      - rewrite fs_get_set_same. discriminate. }
    exists sha, w4. auto.
  - assert (E3' : ret [file_path] w2 = (Ok [file_path], w2)) by reflexivity.
    rewrite (bind_ok _ _ _ _ _ E3').
    destruct (commit_locally_returns [file_path] msg (author_of u) w2 _ S2 M2)
      as (sha & w4 & E4 & S4 & _); auto; try congruence.
    { intros f [<- | []]; simpl. rewrite fs_get_set_same. discriminate. }
    exists sha, w4. auto.
Qed.

(** What the writes of an approval have done when they return. *)
Lemma approve_write_ok (d : ContentDraft) (u : User)
    (file_path markdown sha : string) (w w' : World) :
  approve_write d u file_path markdown w = (Ok sha, w') ->
  DEBUG w = false ->
  exists r c rest evs,
    sha = hexsha (c_id c) /\ mirror w' = Some r /\ branch r = c :: rest /\
    trace w' = (trace w ++ evs)%list /\
    In (EvWrite file_path markdown) evs /\ In (EvGit Commit) evs.
Proof.
  unfold approve_write. intros E Hd.
  rewrite gets_bind, Hd in E.
  bind_inv E.
  pose proof (ensure_repo_keeps_db w) as K1. rewrite E0 in K1. simpl in K1.
  destruct K1 as ([e1 [T1 _]] & _ & _ & D1).
  bind_inv E.
  pose proof (write_file_to_repo_keeps_db file_path markdown w0) as K2.
  rewrite E1 in K2. simpl in K2. destruct K2 as (_ & _ & _ & D2).
  destruct a0. apply write_file_to_repo_ok in E1.
  bind_inv E.
  assert (K3 : exists e3, trace w2 = (trace w1 ++ e3)%list
                          /\ DEBUG w2 = DEBUG w1).
  { destruct (image_to_write _ _) as [[p b] |].
    - bind_inv E2.
      pose proof (write_file_to_repo_keeps_db p b w1) as K.
      rewrite E3 in K. simpl in K. destruct K as ([e [T _]] & _ & _ & D).
      injection E2 as _ <-. eauto.
    - injection E2 as _ <-. exists []. now rewrite app_nil_r. }
  destruct K3 as [e3 [T3 D3]].
  apply commit_locally_ok in E; [| congruence].
  destruct E as (n & r & staged & rest & e4 & -> & Hm & Hb & T4 & Hin).
  eexists r, _, rest, (e1 ++ [EvWrite file_path markdown] ++ e3 ++ e4)%list.
  split; [| split; [exact Hm | split; [exact Hb |]]].
  - reflexivity.
  - split; [| split].
    + rewrite T4, T3, E1, T1. now rewrite <- !app_assoc.
    + rewrite !in_app_iff. simpl. tauto.
    + rewrite !in_app_iff. simpl. tauto.
Qed.

(** ** The decisions *)

(** The draft a review decided is the pending one with the key. *)
Lemma reject_draft_inv (p : UserProfile) (u : User) (id : nat)
    (fb : string) (w w1 : World) (to : string) :
  reject_draft p u id fb w = (Ok (HttpRedirect to), w1) ->
  exists d,
    get_pending id (drafts w) = Some d /\
    can_approve p (Some (d_content_type d)) (draft_group d) = true /\
    drafts w1 = put_draft (reviewed d rejected (u_username u) fb
                             (d_git_commit_sha d)) (drafts w) /\
    mirror w1 = mirror w /\ remote w1 = remote w /\ audit w1 = audit w /\
    trace w1 = (trace w ++ [EvDraft rejected])%list.
Proof.
  unfold reject_draft. rewrite gets_bind. intros E.
  destruct (get_pending id (drafts w)) as [d |]; [| discriminate E].
  fold (draft_group d) in E.
  destruct (can_approve p _ _) eqn:Hc; cbn [negb] in E; [| discriminate E].
  bind_inv E. destruct a. apply save_draft_ok in E0.
  injection E as _ <-.
  destruct E0 as (Hd & Hm & Hr & Ha & Ht).
  exists d. repeat split; assumption.
Qed.

Lemma approve_draft_inv (p : UserProfile) (u : User) (id : nat)
    (w w1 : World) (to : string) :
  approve_draft p u id w = (Ok (HttpRedirect to), w1) ->
  exists d sha,
    get_pending id (drafts w) = Some d /\
    can_approve p (Some (d_content_type d)) (draft_group d) = true /\
    drafts w1 = put_draft (reviewed d approved (u_username u)
                             (d_review_feedback d) sha) (drafts w) /\
    audit w1 = audit w.
Proof.
  unfold approve_draft. rewrite gets_bind. intros E.
  destruct (get_pending id (drafts w)) as [d |]; [| discriminate E].
  fold (draft_group d) in E.
  destruct (can_approve p _ _) eqn:Hc; cbn [negb] in E; [| discriminate E].
  destruct (generate_markdown _ _ _) as [[md |] [| e errs]];
    try discriminate E.
  destruct (get_file_path _ _) as [fp |]; [| discriminate E].
  unfold try_except in E.
  match type of E with
  | (let (_, _) := ?m w in _) = _ => destruct (m w) as [[r | e] w2] eqn:Em
  end; [| discriminate E].
  injection E as _ <-.
  bind_inv Em.
  pose proof (approve_write_keeps_db d u fp md w) as K.
  rewrite E in K. destruct K as (_ & Kd & Ka & _). cbn [snd] in Kd, Ka.
  bind_inv Em. destruct a0. apply save_draft_ok in E0.
  destruct E0 as (Hd & _ & _ & Ha & _).
  injection Em as _ <-.
  exists d, a. repeat split; congruence.
Qed.

(** X27.  A decision is final.  After [reject_draft] or [approve_draft]
    has gone through for a draft, the draft is no longer pending: any
    later approval or rejection of it, by whoever, answers 404 and changes
    nothing. *)
Theorem review_is_final (p : UserProfile) (u : User) (id : nat)
    (fb : string) (w w1 : World) (to : string) :
  reject_draft p u id fb w = (Ok (HttpRedirect to), w1) \/
  approve_draft p u id w = (Ok (HttpRedirect to), w1) ->
  forall p' u' fb',
    reject_draft p' u' id fb' w1 = (Ok Http404, w1) /\
    approve_draft p' u' id w1 = (Ok Http404, w1).
Proof.
  intros Hdone.
  assert (Hnone : get_pending id (drafts w1) = None).
  { destruct Hdone as [E | E].
    - apply reject_draft_inv in E. destruct E as (d & Hp & _ & -> & _).
      apply get_pending_some in Hp. destruct Hp as (_ & <- & _).
      apply (get_pending_put (reviewed d rejected _ _ _)). discriminate.
    - apply approve_draft_inv in E. destruct E as (d & sha & Hp & _ & -> & _).
      apply get_pending_some in Hp. destruct Hp as (_ & <- & _).
      apply (get_pending_put (reviewed d approved _ _ _)). discriminate. }
  intros p' u' fb'. unfold reject_draft, approve_draft.
  rewrite !gets_bind, Hnone. split; reflexivity.
Qed.

(** X28.  [approve_draft] changes the drafts only when it goes through.
    On 404, 403 and 400 it leaves the world exactly as it was; on 500 (a
    failure at whatever step of the publishing block, the saving of the
    draft included) the drafts and the audit log are unchanged, so the
    draft is still pending. *)
Theorem approve_failure_keeps_drafts (p : UserProfile) (u : User) (id : nat)
    (w w1 : World) (r : http_response) :
  approve_draft p u id w = (Ok r, w1) ->
  (forall to, r <> HttpRedirect to) ->
  drafts w1 = drafts w /\ audit w1 = audit w /\
  (r <> Http500 -> w1 = w).
Proof.
  unfold approve_draft. rewrite gets_bind. intros E Hr.
  destruct (get_pending id (drafts w)) as [d |];
    [| injection E as _ <-; auto].
  destruct (negb (can_approve p _ _)); [injection E as _ <-; auto |].
  destruct (generate_markdown _ _ _) as [[md |] [| e errs]];
    try (injection E as _ <-; auto; fail).
  destruct (get_file_path _ _) as [fp |]; [| discriminate E].
  unfold try_except in E.
  match type of E with
  | (let (_, _) := ?m w in _) = _ => destruct (m w) as [[r0 | e] w2] eqn:Em
  end.
  - injection E as <- <-. exfalso.
    bind_inv Em. bind_inv Em. injection Em as <- _.
    now apply (Hr "pending_list").
  - injection E as <- <-.
    assert (Hkeep : drafts w2 = drafts w /\ audit w2 = audit w).
    { unfold bind in Em.
      pose proof (approve_write_keeps_db d u fp md w) as K.
      destruct (approve_write d u fp md w) as [[sha | e0] w3].
      - destruct K as (_ & Kd & Ka & _). cbn [snd] in Kd, Ka.
        destruct (save_draft _ w3) as [[[] | e1] w4] eqn:Es.
        + discriminate Em.
        + injection Em as _ <-. apply save_draft_raise in Es.
          destruct Es. split; congruence.
      - injection Em as _ <-.
        destruct K as (_ & Kd & Ka & _). now split. }
    destruct Hkeep. repeat split; try assumption.
    intros Hne. now elim Hne.
Qed.

(** X29.  An approval that goes through: in production, on a healthy
    clone and with nothing failing, a reviewer whom [can_approve] lets
    through for the draft's type and group gets the redirect; the content
    file is written and committed, and the draft becomes approved, with
    the reviewer on it and the sha of the commit now at the head of the
    local branch.  The audit log stays as it is. *)
Theorem approve_publishes (p : UserProfile) (u : User) (id : nat)
    (w : World) (d : ContentDraft) (md : string) :
  get_pending id (drafts w) = Some d ->
  can_approve p (Some (d_content_type d)) (draft_group d) = true ->
  generate_markdown (d_content_type d) (d_frontmatter_json d)
    (d_body_markdown d) = (Some md, []) ->
  DEBUG w = false -> cooperative w -> healthy w ->
  exists w1 r c rest evs,
    approve_draft p u id w = (Ok (HttpRedirect "pending_list"), w1) /\
    mirror w1 = Some r /\ branch r = c :: rest /\
    drafts w1 = put_draft (reviewed d approved (u_username u)
                             (d_review_feedback d) (hexsha (c_id c)))
                  (drafts w) /\
    audit w1 = audit w /\
    added w w1 evs /\
    In (EvWrite (file_path_of (d_content_type d) (d_slug d)) md) evs /\
    In (EvGit Commit) evs.
Proof.
  intros Hp Hc Hgen Hd Hs Hh.
  set (fp := file_path_of (d_content_type d) (d_slug d)).
  destruct (approve_write_returns d u fp md w Hs Hh Hd)
    as (sha & w2 & E2 & S2).
  pose proof (approve_write_keeps_db d u fp md w) as K.
  rewrite E2 in K. destruct K as (_ & Kd & Ka & _). cbn [snd] in Kd, Ka.
  destruct (approve_write_ok d u fp md sha w w2 E2 Hd)
    as (r & c & rest & evs & -> & Hm & Hb & Ht & I1 & I2).
  set (d' := reviewed d approved (u_username u) (d_review_feedback d)
               (hexsha (c_id c))).
  destruct (save_draft_returns d' w2 S2) as (w3 & E3).
  pose proof (save_draft_ok d' w2 w3 E3) as (Hd3 & Hm3 & _ & Ha3 & Ht3).
  exists w3, r, c, rest, (evs ++ [EvDraft approved])%list.
  split.
  - unfold approve_draft. rewrite gets_bind, Hp.
    fold (draft_group d). rewrite Hc. cbn [negb]. rewrite Hgen.
    rewrite (generated_has_path _ (d_slug d) _ _ _ Hgen). fold fp.
    unfold try_except.
    rewrite (bind_ok _ _ _ _ _ E2). fold d'.
    now rewrite (bind_ok _ _ _ _ _ E3).
  - split; [congruence |]. split; [exact Hb |].
    split; [rewrite Hd3, Kd; reflexivity |].
    split; [rewrite Ha3; exact Ka |].
    split; [| split].
    + unfold added. rewrite Ht3, Ht. now rewrite <- app_assoc.
    + rewrite in_app_iff. tauto.
    + rewrite in_app_iff. tauto.
Qed.


Lemma review_is_final_witness :
  exists w1,
    reject_draft oxford_lead ann 7 "Not yet" world_with_draft
    = (Ok (HttpRedirect "pending_list"), w1) /\
    approve_draft an_editor ann 7 w1 = (Ok Http404, w1).
Proof.
  pose (w1 := snd (reject_draft oxford_lead ann 7 "Not yet" world_with_draft)).
  exists w1. split; [reflexivity |].
  exact (proj2 (review_is_final oxford_lead ann 7 "Not yet" world_with_draft
                  w1 "pending_list" (or_introl eq_refl) an_editor ann "")).
Defined.

Lemma approve_failure_keeps_drafts_witness :
  exists w1,
    approve_draft oxford_lead ann 7 (with_script [Fail] world_with_draft)
    = (Ok Http500, w1) /\
    drafts w1 = [pending_oxford_event].
Proof.
  pose (w1 := snd (approve_draft oxford_lead ann 7
                     (with_script [Fail] world_with_draft))).
  assert (E : approve_draft oxford_lead ann 7
                (with_script [Fail] world_with_draft) = (Ok Http500, w1))
    by (vm_compute; reflexivity).
  exists w1. split; [exact E |].
  apply (approve_failure_keeps_drafts oxford_lead ann 7
           (with_script [Fail] world_with_draft) w1 Http500 E).
  discriminate.
Defined.

Lemma approve_publishes_witness :
  exists w1 r c rest,
    approve_draft oxford_lead ann 7 world_with_draft
    = (Ok (HttpRedirect "pending_list"), w1) /\
    mirror w1 = Some r /\ branch r = c :: rest /\
    drafts w1
    = [reviewed pending_oxford_event approved "ann" "" (hexsha (c_id c))].
Proof.
  pose (md := match fst (generate_markdown "local_event" (event_fm "oxford")
                           "See you there") with
              | Some m => m
              | None => ""
              end).
  destruct (approve_publishes oxford_lead ann 7 world_with_draft
              pending_oxford_event md)
    as (w1 & r & c & rest & evs & H1 & H2 & H3 & H4 & _);
    try (vm_compute; reflexivity).
  - exact (Forall_nil _).
  - intros r Hr. discriminate Hr.
  - exists w1, r, c, rest. repeat split; assumption.
Defined.

End ReviewProps.
